(** * System Information Tool: a shallow embedding of [main.py]

    The program collects operating-system metrics (system, CPU, memory,
    disk, network, processes), gathers the selected sections in one
    dictionary and either prints them (text or JSON) or writes them to a
    file.  Everything the operating system answers is an input of the
    model (the record [env]); the functions below follow [main.py]
    function by function and keep its names. *)

From Stdlib Require Import Bool Arith ZArith NArith QArith Lia List String Ascii.
From Stdlib Require Import Decimal DecimalString DecimalN DecimalZ.
From Stdlib Require Import Sorting.Sorted Sorting.Permutation.
Import ListNotations.

Local Open Scope list_scope.
Local Open Scope string_scope.
Local Open Scope Z_scope.

(** ** Exceptions and results

    Python exceptions are values; a computation that may raise returns a
    [result]. *)

Inductive exn : Type :=
| ValueError
| AttributeError
| TypeError
| OSError
| gaierror.

Inductive result (A : Type) : Type :=
| Ok (a : A)
| Raise (e : exn).

Arguments Ok {A} a.
Arguments Raise {A} e.

(** ** Python floats

    The program never computes with the floats psutil hands over: it
    compares them (sorting) and prints them ([str], [json.dumps]).  A
    finite float is therefore modelled by its [repr], the shortest
    decimal literal that reads back as that float: sign, integer digits,
    fractional digits ([Nil] when the literal has none, as in [1e+16])
    and an optional signed exponent whose digits are kept as printed
    ([e-05]).  Infinities and NaN are outside the model. *)

Record pyfloat : Type := mkfloat {
  f_neg  : bool;
  f_int  : N;
  f_frac : uint;
  f_exp  : option (bool * uint)
}.

Definition exp_Z (e : option (bool * uint)) : Z :=
  match e with
  | None => 0
  | Some (true, d) => - Z.of_N (N.of_uint d)
  | Some (false, d) => Z.of_N (N.of_uint d)
  end.

(** The number a literal denotes. *)
Definition float_Q (f : pyfloat) : Q :=
  let k := Z.of_nat (nb_digits (f_frac f)) in
  let m := Z.of_N (f_int f) * 10 ^ k + Z.of_N (N.of_uint (f_frac f)) in
  let s := if f_neg f then (- m)%Z else m in
  (inject_Z s * Qpower (10 # 1) (exp_Z (f_exp f) - k))%Q.

(** [a <= b] on floats. *)
Definition float_le (a b : pyfloat) : bool := Qle_bool (float_Q a) (float_Q b).

(** ** Processes *)

(** What [psutil.process_iter] with its list of attributes yields for
    one process: the dictionary [proc.info], filled before the process
    is handed to the loop.  psutil leaves out a process that has gone
    and stores [None] for whatever it could not read (access denied, a
    zombie), so a name, a user name and either percentage may be
    [None]; the process id never is.  The dictionary built at
    lines 105-111 has the same five keys and values. *)
Record ProcessEntry : Type := mkproc {
  pid            : Z;
  name           : option string;
  username       : option string;
  memory_percent : option pyfloat;
  cpu_percent    : option pyfloat
}.

(** The loop of lines 102-113; [processes] is the list being filled.
    Reading the attribute [info] and its five keys raises nothing, so
    the handler of line 112 is never entered and every process yielded
    gets its entry. *)
Fixpoint enumerate (procs : list ProcessEntry) (processes : list ProcessEntry)
  : list ProcessEntry :=
  match procs with
  | [] => processes
  | proc_info :: rest => enumerate rest (processes ++ [proc_info])%list
  end.

(** The arrangement [list.sort(reverse=True)] gives to items whose keys
    are floats: the sort is stable, and with [reverse=True] elements
    with equal keys keep their original order.  There is one such
    arrangement; it is computed here by insertion. *)
Section Sort.
Context {A : Type} (key : A -> pyfloat).

Fixpoint insert_desc (x : A) (l : list A) : list A :=
  match l with
  | [] => [x]
  | y :: l' =>
      if float_le (key y) (key x) then x :: y :: l'
      else y :: insert_desc x l'
  end.

Definition sort_reverse (l : list A) : list A :=
  fold_right insert_desc [] l.

End Sort.

(** [list.sort] computes the key of every item before it compares any:
    the items paired with their keys, if every key is a float. *)
Fixpoint sort_keys {A : Type} (key : A -> option pyfloat) (l : list A)
  : option (list (pyfloat * A)) :=
  match l with
  | [] => Some []
  | x :: l' =>
      match key x, sort_keys key l' with
      | Some k, Some keyed => Some ((k, x) :: keyed)
      | _, _ => None
      end
  end.

(** [l.sort(key=key, reverse=True)].  A list of fewer than two items is
    left as it is without a comparison.  In a longer list every item is
    compared with another one at least once, and comparing [None] with
    a float or with [None] raises [TypeError]. *)
Definition list_sort {A : Type} (key : A -> option pyfloat) (l : list A)
  : result (list A) :=
  match l with
  | [] | [_] => Ok l
  | _ =>
      match sort_keys key l with
      | Some keyed => Ok (map snd (sort_reverse fst keyed))
      | None => Raise TypeError
      end
  end.

(** The slice [l[:k]]: a negative [k] counts from the end. *)
Definition slice_to {A : Type} (l : list A) (k : Z) : list A :=
  if 0 <=? k then firstn (Z.to_nat k) l
  else firstn (List.length l - Z.to_nat (- k)) l.

Definition get_process_info (procs : list ProcessEntry) (sort_by : string) (limit : Z)
  : result (list ProcessEntry) :=
  let processes := enumerate procs [] in
  match (if String.eqb sort_by "memory"
         then list_sort memory_percent processes
         else list_sort cpu_percent processes) with
  | Ok processes => Ok (slice_to processes limit)
  | Raise e => Raise e
  end.

(** ** Python values

    The objects a snapshot is made of.  A [str] is a [string] whose
    characters are the code points below 256; a [dict] keeps its keys in
    insertion order, so it is an association list that [dict_set] keeps
    free of duplicate keys. *)

#[local] Unset Elimination Schemes.
Inductive value : Type :=
| VNone
| VBool (b : bool)
| VInt (z : Z)
| VFloat (f : pyfloat)
| VStr (s : string)
| VList (l : list value)
| VDict (d : list (string * value)).
#[local] Set Elimination Schemes.

Definition dict : Type := list (string * value).

(** Induction on values, with the items of lists and the values of
    dictionaries as smaller values. *)
Section ValueInduction.
Variable P : value -> Prop.
Hypothesis HNone : P VNone.
Hypothesis HBool : forall b, P (VBool b).
Hypothesis HInt : forall z, P (VInt z).
Hypothesis HFloat : forall f, P (VFloat f).
Hypothesis HStr : forall s, P (VStr s).
Hypothesis HList : forall l, Forall P l -> P (VList l).
Hypothesis HDict : forall d, Forall (fun kv => P (snd kv)) d -> P (VDict d).

Fixpoint value_induction (v : value) : P v :=
  match v with
  | VNone => HNone
  | VBool b => HBool b
  | VInt z => HInt z
  | VFloat f => HFloat f
  | VStr s => HStr s
  | VList l =>
      HList l ((fix items (l : list value) : Forall P l :=
                  match l with
                  | [] => Forall_nil P
                  | x :: l' => Forall_cons x (value_induction x) (items l')
                  end) l)
  | VDict d =>
      HDict d ((fix members (d : list (string * value))
                  : Forall (fun kv => P (snd kv)) d :=
                  match d with
                  | [] => Forall_nil _
                  | kv :: d' =>
                      Forall_cons kv (value_induction (snd kv)) (members d')
                  end) d)
  end.

End ValueInduction.

Fixpoint dict_get (k : string) (d : dict) : option value :=
  match d with
  | [] => None
  | (k', v) :: d' => if String.eqb k k' then Some v else dict_get k d'
  end.

(** [k in d] *)
Definition dict_mem (k : string) (d : dict) : bool :=
  match dict_get k d with Some _ => true | None => false end.

(** [d[k] = v]: an existing key keeps its place, a new one goes last. *)
Fixpoint dict_set (k : string) (v : value) (d : dict) : dict :=
  match d with
  | [] => [(k, v)]
  | (k', v') :: d' =>
      if String.eqb k k' then (k, v) :: d' else (k', v') :: dict_set k v d'
  end.

Definition dict_keys (d : dict) : list string := map fst d.

(** ** Text *)

Definition nl : string := String "010"%char "".

Fixpoint repeat_string (s : string) (n : nat) : string :=
  match n with
  | O => ""
  | S n' => s ++ repeat_string s n'
  end.

(** [sep.join(l)] *)
Fixpoint join (sep : string) (l : list string) : string :=
  match l with
  | [] => ""
  | [s] => s
  | s :: l' => s ++ sep ++ join sep l'
  end.

Definition str_of_N (n : N) : string := NilEmpty.string_of_uint (N.to_uint n).
Definition str_of_Z (z : Z) : string :=
  (if z <? 0 then "-" else "") ++ str_of_N (Z.abs_N z).

(** The fraction and the exponent of a float literal. *)
Definition frac_text (frac : uint) : string :=
  match frac with
  | Nil => ""
  | d => "." ++ NilEmpty.string_of_uint d
  end.

Definition exp_text (e : option (bool * uint)) : string :=
  match e with
  | None => ""
  | Some (s, d) => "e" ++ (if s then "-" else "+") ++ NilEmpty.string_of_uint d
  end.

(** [repr] of a float: the literal itself. *)
Definition float_repr (f : pyfloat) : string :=
  (if f_neg f then "-" else "")
  ++ str_of_N (f_int f) ++ frac_text (f_frac f) ++ exp_text (f_exp f).

Definition hex_digit (n : N) : ascii :=
  if (n <? 10)%N then ascii_of_N (48 + n) else ascii_of_N (87 + n).

(** Two lowercase hexadecimal digits of a code point below 256. *)
Definition hex2 (c : ascii) : string :=
  let n := N_of_ascii c in
  String (hex_digit (n / 16)) (String (hex_digit (n mod 16)) "").

Fixpoint contains (c : ascii) (s : string) : bool :=
  match s with
  | EmptyString => false
  | String c' s' => Ascii.eqb c c' || contains c s'
  end.

(** [str.isprintable] on one code point below 256. *)
Definition printable (c : ascii) : bool :=
  let n := N_of_ascii c in
  ((32 <=? n) && (n <? 127) || (161 <=? n) && negb (n =? 173))%N.

Definition backslash : ascii := "092"%char.
Definition dquote : ascii := "034"%char.
Definition squote : ascii := "039"%char.

(** A backslash followed by the given text. *)
Definition esc (s : string) : string := String backslash s.

Definition repr_char (quote c : ascii) : string :=
  if Ascii.eqb c quote || Ascii.eqb c backslash then esc (String c "")
  else if Ascii.eqb c "009"%char then esc "t"
  else if Ascii.eqb c "010"%char then esc "n"
  else if Ascii.eqb c "013"%char then esc "r"
  else if printable c then String c ""
  else esc ("x" ++ hex2 c).

Fixpoint concat_map (f : ascii -> string) (s : string) : string :=
  match s with
  | EmptyString => ""
  | String c s' => f c ++ concat_map f s'
  end.

(** [repr] of a [str]: single quotes, unless the text has a single quote
    and no double quote. *)
Definition repr_str (s : string) : string :=
  let quote := if contains squote s && negb (contains dquote s)
               then dquote else squote in
  String quote (concat_map (repr_char quote) s ++ String quote "").

Fixpoint py_repr (v : value) : string :=
  match v with
  | VNone => "None"
  | VBool true => "True"
  | VBool false => "False"
  | VInt z => str_of_Z z
  | VFloat f => float_repr f
  | VStr s => repr_str s
  | VList l => "[" ++ join ", " (map py_repr l) ++ "]"
  | VDict d =>
      "{" ++ join ", " (map (fun kv => let '(k, v) := kv in
                                     repr_str k ++ ": " ++ py_repr v) d) ++ "}"
  end.

(** [str(v)], which is also what an f-string field [{v}] gives. *)
Definition py_str (v : value) : string :=
  match v with
  | VStr s => s
  | _ => py_repr v
  end.

Definition is_lower (c : ascii) : bool :=
  let n := N_of_ascii c in ((97 <=? n) && (n <=? 122))%N.
Definition is_upper (c : ascii) : bool :=
  let n := N_of_ascii c in ((65 <=? n) && (n <=? 90))%N.
Definition upper (c : ascii) : ascii :=
  if is_lower c then ascii_of_N (N_of_ascii c - 32) else c.
Definition lower (c : ascii) : ascii :=
  if is_upper c then ascii_of_N (N_of_ascii c + 32) else c.

(** [str.capitalize] on a text of ASCII characters, which every key the
    collectors build is.  (Outside ASCII Python also changes the other
    cased characters and may change the length; the statements that go
    through [capitalize] are about ASCII keys.) *)
Definition capitalize (s : string) : string :=
  match s with
  | EmptyString => ""
  | String c s' => String (upper c) (concat_map (fun c => String (lower c) "") s')
  end.

(** [f"{s:{width}}"] for a [str]: padded on the right with spaces. *)
Definition ljust (s : string) (width : nat) : string :=
  s ++ repeat_string " " (width - String.length s).

(** ** What the operating system answers *)

Module scpufreq.
Record t : Type := mk { current : pyfloat; min : pyfloat; max : pyfloat }.
End scpufreq.

Module svmem.
Record t : Type := mk { total : N; available : N; used : N; percent : pyfloat }.
End svmem.

Module sswap.
Record t : Type := mk { total : N; used : N; percent : pyfloat }.
End sswap.

Module sdiskpart.
Record t : Type := mk { device : string; mountpoint : string; fstype : string }.
End sdiskpart.

Module sdiskusage.
Record t : Type := mk { total : N; used : N; free : N; percent : pyfloat }.
End sdiskusage.

Module snetio.
Record t : Type := mk {
  bytes_sent : N; bytes_recv : N; packets_sent : N; packets_recv : N
}.
End snetio.

(** The answers of [platform], [socket], [psutil], the file system and
    the clock during one run.  [disk_usage] may raise for a mount point;
    [gethostbyname] raises when the host name does not resolve;
    [process_iter] lists the dictionaries [proc.info] of the processes
    yielded; [open_w filename] is what [open(filename, 'w')] does, it
    raises when the file cannot be created or truncated; [set_order] is
    the order in which a Python [set] of strings, given by its members
    in insertion order, is iterated (it depends on the hash seed of the
    run); [timestamp] is [datetime.now().strftime("%Y-%m-%d %H:%M:%S")]. *)
Module Env.
Record t : Type := mk {
  system : string;
  node : string;
  release : string;
  version : string;
  machine : string;
  processor : string;
  python_version : string;
  cpu_count_physical : option Z;
  cpu_count_logical : option Z;
  cpu_freq : option scpufreq.t;
  cpu_percent_percpu : list pyfloat;
  cpu_percent : pyfloat;
  virtual_memory : svmem.t;
  swap_memory : sswap.t;
  disk_partitions : list sdiskpart.t;
  disk_usage : string -> result sdiskusage.t;
  gethostname : string;
  gethostbyname : string -> result string;
  net_io_counters : list (string * snetio.t);
  process_iter : list ProcessEntry;
  open_w : string -> result unit;
  set_order : list string -> list string;
  timestamp : string
}.
End Env.

(** ** Collectors *)

Definition get_system_info (env : Env.t) : value :=
  VDict [ ("system", VStr (Env.system env));
          ("node", VStr (Env.node env));
          ("release", VStr (Env.release env));
          ("version", VStr (Env.version env));
          ("machine", VStr (Env.machine env));
          ("processor", VStr (Env.processor env));
          ("python_version", VStr (Env.python_version env)) ].

Definition opt_int (o : option Z) : value :=
  match o with Some z => VInt z | None => VNone end.

Definition get_cpu_info (env : Env.t) : value :=
  VDict [ ("physical_cores", opt_int (Env.cpu_count_physical env));
          ("total_cores", opt_int (Env.cpu_count_logical env));
          ("max_frequency",
            match Env.cpu_freq env with
            | Some f => VFloat (scpufreq.max f)
            | None => VStr "N/A"
            end);
          ("current_frequency",
            match Env.cpu_freq env with
            | Some f => VFloat (scpufreq.current f)
            | None => VStr "N/A"
            end);
          ("cpu_usage_per_core",
            VList (map (fun x => VStr (float_repr x ++ "%")) (Env.cpu_percent_percpu env)));
          ("total_cpu_usage", VStr (float_repr (Env.cpu_percent env) ++ "%")) ].

Definition digit (n : N) (d : uint) : uint :=
  match n with
  | 0%N => D0 d | 1%N => D1 d | 2%N => D2 d | 3%N => D3 d | 4%N => D4 d
  | 5%N => D5 d | 6%N => D6 d | 7%N => D7 d | 8%N => D8 d | _ => D9 d
  end.

(** [round(b / 2**k, 2)] as the program computes it: [k] is 30 (sizes in
    GB) or 20 (traffic in MB), and [b] is a count of bytes below
    [2**53].  There the division is exact, [round] takes the nearest
    multiple of 0.01 (a tie goes to the even one), the result has at
    most twelve significant digits and [repr] prints it with one or two
    decimals.  (From [2**53] bytes on, or for a small [k], a float no
    longer holds the quotient or its hundredths and Python prints other
    digits; the statements about sizes stay below that.) *)
Definition round2 (b k : N) : pyfloat :=
  let num := (b * 100)%N in
  let den := (2 ^ k)%N in
  let q := (num / den)%N in
  let r := (num mod den)%N in
  let h := if (den <? 2 * r)%N then (q + 1)%N
           else if (den =? 2 * r)%N then (q + q mod 2)%N
           else q in
  let c := (h mod 100)%N in
  mkfloat false (h / 100)
          (if (c mod 10 =? 0)%N then digit (c / 10) Nil
           else digit (c / 10) (digit (c mod 10) Nil))
          None.

(** The local function of [get_memory_info]. *)
Definition bytes_to_gb (bytes_val : N) : pyfloat := round2 bytes_val 30.

Definition get_memory_info (env : Env.t) : value :=
  let virtual_mem := Env.virtual_memory env in
  let swap_mem := Env.swap_memory env in
  VDict [ ("total", VStr (float_repr (bytes_to_gb (svmem.total virtual_mem)) ++ " GB"));
          ("available", VStr (float_repr (bytes_to_gb (svmem.available virtual_mem)) ++ " GB"));
          ("used", VStr (float_repr (bytes_to_gb (svmem.used virtual_mem)) ++ " GB"));
          ("percentage", VStr (float_repr (svmem.percent virtual_mem) ++ "%"));
          ("swap_total", VStr (float_repr (bytes_to_gb (sswap.total swap_mem)) ++ " GB"));
          ("swap_used", VStr (float_repr (bytes_to_gb (sswap.used swap_mem)) ++ " GB"));
          ("swap_percentage", VStr (float_repr (sswap.percent swap_mem) ++ "%")) ].

(** The dictionary appended at lines 64-72. *)
Definition disk_entry (partition : sdiskpart.t) (partition_usage : sdiskusage.t) : value :=
  VDict [ ("device", VStr (sdiskpart.device partition));
          ("mountpoint", VStr (sdiskpart.mountpoint partition));
          ("file_system", VStr (sdiskpart.fstype partition));
          ("total_size", VStr (float_repr (round2 (sdiskusage.total partition_usage) 30) ++ " GB"));
          ("used", VStr (float_repr (round2 (sdiskusage.used partition_usage) 30) ++ " GB"));
          ("free", VStr (float_repr (round2 (sdiskusage.free partition_usage) 30) ++ " GB"));
          ("percentage", VStr (float_repr (sdiskusage.percent partition_usage) ++ "%")) ].

(** The loop of lines 61-75: the bare [except] swallows whatever the
    usage query raises. *)
Fixpoint disk_loop (disk_usage : string -> result sdiskusage.t)
  (partitions : list sdiskpart.t) (disk_info : list value) : list value :=
  match partitions with
  | [] => disk_info
  | partition :: rest =>
      match disk_usage (sdiskpart.mountpoint partition) with
      | Ok partition_usage =>
          disk_loop disk_usage rest (disk_info ++ [disk_entry partition partition_usage])%list
      | Raise _ => disk_loop disk_usage rest disk_info
      end
  end.

Definition get_disk_info (env : Env.t) : list value :=
  disk_loop (Env.disk_usage env) (Env.disk_partitions env) [].

Definition interface_entry (stats : snetio.t) : value :=
  VDict [ ("bytes_sent", VStr (float_repr (round2 (snetio.bytes_sent stats) 20) ++ " MB"));
          ("bytes_received", VStr (float_repr (round2 (snetio.bytes_recv stats) 20) ++ " MB"));
          ("packets_sent", VInt (Z.of_N (snetio.packets_sent stats)));
          ("packets_received", VInt (Z.of_N (snetio.packets_recv stats))) ].

(** The dictionary literal of lines 81-85 is built first: when the host
    name does not resolve, line 83 raises and the counters are never
    read. *)
Definition get_network_info (env : Env.t) : result value :=
  match Env.gethostbyname env (Env.gethostname env) with
  | Raise e => Raise e
  | Ok ip_address =>
      let interfaces :=
        fold_left (fun d kv => dict_set (fst kv) (interface_entry (snd kv)) d)
                  (Env.net_io_counters env) [] in
      Ok (VDict [ ("hostname", VStr (Env.gethostname env));
                  ("ip_address", VStr ip_address);
                  ("interfaces", VDict interfaces) ])
  end.

Definition opt_str (o : option string) : value :=
  match o with Some s => VStr s | None => VNone end.

Definition opt_float (o : option pyfloat) : value :=
  match o with Some f => VFloat f | None => VNone end.

(** A process entry as the dictionary of lines 105-111. *)
Definition process_value (p : ProcessEntry) : value :=
  VDict [ ("pid", VInt (pid p));
          ("name", opt_str (name p));
          ("username", opt_str (username p));
          ("memory_percent", opt_float (memory_percent p));
          ("cpu_percent", opt_float (cpu_percent p)) ].

(** ** Output

    What a run does to the outside: lines printed and files written, in
    order.  A computation of type [io A] carries what it has done so far
    and either a value or the exception that stopped it. *)

Inductive effect : Type :=
| Print (text : string)
| WriteFile (filename content : string).

Definition io (A : Type) : Type := (list effect * result A)%type.

Definition ret {A : Type} (a : A) : io A := ([], Ok a).

Definition raise {A : Type} (e : exn) : io A := ([], Raise e).

Definition io_bind {A B : Type} (m : io A) (k : A -> io B) : io B :=
  match m with
  | (out, Ok a) => let (out', r) := k a in ((out ++ out')%list, r)
  | (out, Raise e) => (out, Raise e)
  end.

Notation "x <- m ;; k" := (io_bind m (fun x => k))
  (at level 61, m at next level, right associativity).
Notation "m ;; k" := (io_bind m (fun _ => k))
  (at level 61, right associativity).

(** [print(text)] *)
Definition print (text : string) : io unit := ([Print text], Ok tt).

(** [for x in l: body(x)] *)
Fixpoint for_each {A : Type} (l : list A) (body : A -> io unit) : io unit :=
  match l with
  | [] => ret tt
  | x :: l' => body x ;; for_each l' body
  end.

(** ** The text formatter *)

(** [max(...)] of a sequence of lengths; it raises on an empty one. *)
Definition py_max (l : list nat) : io nat :=
  match l with
  | [] => raise ValueError
  | n :: l' => ret (fold_left Nat.max l' n)
  end.

(** [keys.update(ks)] and [keys.remove(k)] on a set kept as the list of
    its members in insertion order. *)
Definition set_mem (k : string) (keys : list string) : bool :=
  existsb (String.eqb k) keys.

Definition set_add (keys : list string) (k : string) : list string :=
  if set_mem k keys then keys else (keys ++ [k])%list.

Definition set_update (keys ks : list string) : list string :=
  fold_left set_add ks keys.

Definition set_remove (k : string) (keys : list string) : list string :=
  filter (fun k' => negb (String.eqb k k')) keys.

(** Lines 144-146; [item.keys()] raises on an item that is no [dict]. *)
Fixpoint all_keys (data : list value) (keys : list string) : io (list string) :=
  match data with
  | [] => ret keys
  | VDict item :: rest => all_keys rest (set_update keys (dict_keys item))
  | _ :: _ => raise AttributeError
  end.

(** Lines 151-153 *)
Definition header_line (keys : list string) : string :=
  fold_left (fun header key => header ++ " | " ++ capitalize key) keys "Name".

(** Lines 160-163 *)
Definition item_line (keys : list string) (item : dict) (name : value) : string :=
  fold_left
    (fun line key =>
       if negb (String.eqb key "name")
       then line ++ " | " ++ py_str (match dict_get key item with
                                     | Some v => v
                                     | None => VStr "N/A"
                                     end)
       else line)
    keys (py_str name).

Definition display_info (set_order : list string -> list string)
  (data : value) (title : option string) : io unit :=
  match title with
  | Some (String c t) => print (nl ++ "=== " ++ String c t ++ " ===" ++ nl)
  | _ => ret tt
  end ;;
  match data with
  | VDict d =>
      max_key_length <- py_max (map (fun kv => String.length (fst kv)) d) ;;
      for_each d (fun kv =>
        let (key, value) := kv in
        match value with
        | VDict sub =>
            print (key ++ ":") ;;
            for_each sub (fun skv =>
              print ("  " ++ fst skv ++ ": " ++ py_str (snd skv)))
        | VList items =>
            print (key ++ ":") ;;
            for_each items (fun item => print ("  - " ++ py_str item))
        | _ => print (ljust key max_key_length ++ ": " ++ py_str value)
        end)
  | VList (VDict first :: others) =>
      let data := VDict first :: others in
      keys <- all_keys data [] ;;
      let named := set_mem "name" keys in
      let keys := if named then set_remove "name" keys else keys in
      (if named
       then let header := header_line (set_order keys) in
            print header ;;
            print (repeat_string "-" (String.length header))
       else ret tt) ;;
      for_each data (fun item =>
        match item with
        | VDict d =>
            match dict_get "name" d with
            | Some name => print (item_line (set_order keys) d name)
            | None => print (py_str item)
            end
        | _ => raise AttributeError
        end)
  | VList data => for_each data (fun item => print ("- " ++ py_str item))
  | _ => ret tt
  end.

(** ** JSON *)

(** One character of a JSON string as [json.dumps] writes it
    ([ensure_ascii] is on). *)
Definition json_char (c : ascii) : string :=
  let n := N_of_ascii c in
  if Ascii.eqb c dquote then esc (String dquote "")
  else if Ascii.eqb c backslash then esc (String backslash "")
  else if Ascii.eqb c "010"%char then esc "n"
  else if Ascii.eqb c "013"%char then esc "r"
  else if Ascii.eqb c "009"%char then esc "t"
  else if Ascii.eqb c "008"%char then esc "b"
  else if Ascii.eqb c "012"%char then esc "f"
  else if ((32 <=? n) && (n <=? 126))%N then String c ""
  else esc ("u00" ++ hex2 c).

Definition json_string (s : string) : string :=
  String dquote (concat_map json_char s ++ String dquote "").

(** A line break followed by the indentation of a nesting level. *)
Definition newline_indent (indent level : nat) : string :=
  nl ++ repeat_string " " (indent * level).

(** [json.dumps(v, indent=indent)], for the text at nesting [level]. *)
Fixpoint json_encode (indent level : nat) (v : value) : string :=
  match v with
  | VNone => "null"
  | VBool true => "true"
  | VBool false => "false"
  | VInt z => str_of_Z z
  | VFloat f => float_repr f
  | VStr s => json_string s
  | VList [] => "[]"
  | VList l =>
      "[" ++ newline_indent indent (S level)
      ++ join ("," ++ newline_indent indent (S level))
              (map (json_encode indent (S level)) l)
      ++ newline_indent indent level ++ "]"
  | VDict [] => "{}"
  | VDict d =>
      "{" ++ newline_indent indent (S level)
      ++ join ("," ++ newline_indent indent (S level))
              (map (fun kv => let '(k, v) := kv in
                              json_string k ++ ": " ++ json_encode indent (S level) v) d)
      ++ newline_indent indent level ++ "}"
  end.

Definition json_dumps (indent : nat) (v : value) : string :=
  json_encode indent 0 v.

(** Lines 171-175.  When [open] raises, nothing is written and the
    confirmation is not printed. *)
Definition save_to_file (env : Env.t) (data : value) (filename : string) : io unit :=
  match Env.open_w env filename with
  | Raise e => raise e
  | Ok _ =>
      ([WriteFile filename (json_dumps 4 data)], Ok tt) ;;
      print ("Information saved to " ++ filename)
  end.

(** ** Reading JSON back

    [json.loads] on the texts [json.dumps] can write, and on every other
    text of the JSON grammar whose strings stay below code point 256 and
    whose numbers are finite ([NaN] and [Infinity] are refused).  A
    number with a fraction or an exponent is a float and is kept as the
    literal read. *)

Definition is_ws (c : ascii) : bool :=
  Ascii.eqb c " "%char || Ascii.eqb c "009"%char
  || Ascii.eqb c "010"%char || Ascii.eqb c "013"%char.

Fixpoint skip_ws (s : string) : string :=
  match s with
  | String c s' => if is_ws c then skip_ws s' else s
  | EmptyString => ""
  end.

Definition is_digit (c : ascii) : bool :=
  let n := N_of_ascii c in ((48 <=? n) && (n <=? 57))%N.

(** The longest run of digits at the head of a text, and what follows. *)
Fixpoint scan_digits (s : string) : uint * string :=
  match s with
  | String c s' =>
      if is_digit c
      then let (d, rest) := scan_digits s' in (digit (N_of_ascii c - 48) d, rest)
      else (Nil, s)
  | EmptyString => (Nil, "")
  end.

(** The integer part of a number: [0] alone, or digits that start with
    none. *)
Definition scan_int (s : string) : option (uint * string) :=
  match s with
  | String c s' =>
      if Ascii.eqb c "0"%char then Some (D0 Nil, s')
      else if is_digit c then Some (scan_digits s)
      else None
  | EmptyString => None
  end.

(** The fraction, if a point and a digit follow. *)
Definition scan_frac (s : string) : uint * string :=
  match s with
  | String c (String c' s') =>
      if Ascii.eqb c "."%char && is_digit c' then scan_digits (String c' s')
      else (Nil, s)
  | _ => (Nil, s)
  end.

(** The exponent, if [e] or [E], an optional sign and a digit follow. *)
Definition scan_exp (s : string) : option (bool * uint) * string :=
  match s with
  | String c (String c' s') =>
      if Ascii.eqb c "e"%char || Ascii.eqb c "E"%char then
        if is_digit c' then
          let (d, rest) := scan_digits (String c' s') in (Some (false, d), rest)
        else if Ascii.eqb c' "-"%char || Ascii.eqb c' "+"%char then
          match s' with
          | String c'' _ =>
              if is_digit c''
              then let (d, rest) := scan_digits s' in
                   (Some (Ascii.eqb c' "-"%char, d), rest)
              else (None, s)
          | EmptyString => (None, s)
          end
        else (None, s)
      else (None, s)
  | _ => (None, s)
  end.

Definition parse_number (s : string) : option (value * string) :=
  let (neg, s0) := match s with
                   | String c s' => if Ascii.eqb c "-"%char then (true, s') else (false, s)
                   | EmptyString => (false, s)
                   end in
  match scan_int s0 with
  | None => None
  | Some (d, s1) =>
      let (frac, s2) := scan_frac s1 in
      let (e, s3) := scan_exp s2 in
      match frac, e with
      | Nil, None =>
          Some (VInt (if neg then - Z.of_N (N.of_uint d) else Z.of_N (N.of_uint d)), s3)
      | _, _ => Some (VFloat (mkfloat neg (N.of_uint d) frac e), s3)
      end
  end.

Definition hex_value (c : ascii) : option N :=
  let n := N_of_ascii c in
  if ((48 <=? n) && (n <=? 57))%N then Some (n - 48)%N
  else if ((97 <=? n) && (n <=? 102))%N then Some (n - 87)%N
  else if ((65 <=? n) && (n <=? 70))%N then Some (n - 55)%N
  else None.

Definition hex4 (a b c d : ascii) : option N :=
  match hex_value a, hex_value b, hex_value c, hex_value d with
  | Some x, Some y, Some z, Some w => Some (((x * 16 + y) * 16 + z) * 16 + w)%N
  | _, _, _, _ => None
  end.

(** The character a backslash and [e] stand for. *)
Definition unescape (e : ascii) : option ascii :=
  if Ascii.eqb e dquote then Some dquote
  else if Ascii.eqb e backslash then Some backslash
  else if Ascii.eqb e "/"%char then Some "/"%char
  else if Ascii.eqb e "b"%char then Some "008"%char
  else if Ascii.eqb e "f"%char then Some "012"%char
  else if Ascii.eqb e "n"%char then Some "010"%char
  else if Ascii.eqb e "r"%char then Some "013"%char
  else if Ascii.eqb e "t"%char then Some "009"%char
  else None.

Definition cons_char (c : ascii) (r : option (string * string)) : option (string * string) :=
  match r with
  | Some (s, rest) => Some (String c s, rest)
  | None => None
  end.

(** The characters of a string up to its closing quote. *)
Fixpoint scan_string (s : string) : option (string * string) :=
  match s with
  | EmptyString => None
  | String c s' =>
      if Ascii.eqb c dquote then Some ("", s')
      else if Ascii.eqb c backslash then
        match s' with
        | EmptyString => None
        | String e s'' =>
            if Ascii.eqb e "u"%char then
              match s'' with
              | String h1 (String h2 (String h3 (String h4 s3))) =>
                  match hex4 h1 h2 h3 h4 with
                  | Some n =>
                      if (n <? 256)%N then cons_char (ascii_of_N n) (scan_string s3)
                      else None
                  | None => None
                  end
              | _ => None
              end
            else
              match unescape e with
              | Some ch => cons_char ch (scan_string s'')
              | None => None
              end
        end
      else if (N_of_ascii c <? 32)%N then None
      else cons_char c (scan_string s')
  end.

(** [s] without the prefix [p], if it starts with it. *)
Fixpoint strip_prefix (p s : string) : option string :=
  match p, s with
  | EmptyString, _ => Some s
  | String a p', String b s' => if Ascii.eqb a b then strip_prefix p' s' else None
  | String _ _, EmptyString => None
  end.

(** [dict(pairs)]: a key read twice keeps its first place and its last
    value. *)
Definition build_dict (pairs : list (string * value)) : dict :=
  fold_left (fun d kv => dict_set (fst kv) (snd kv) d) pairs [].

(** The value at the head of a text (blanks before it already skipped),
    the elements of an array after its bracket and the members of an
    object after its brace.  [fuel] bounds the nesting and the number of
    items; the length of the text is always enough. *)
Fixpoint parse_value (fuel : nat) (s : string) : option (value * string) :=
  match fuel with
  | O => None
  | S fuel =>
      match s with
      | EmptyString => None
      | String c rest =>
          if Ascii.eqb c "{"%char then
            match skip_ws rest with
            | EmptyString => None
            | String c' rest' =>
                if Ascii.eqb c' "}"%char then Some (VDict [], rest')
                else match parse_members fuel (String c' rest') with
                     | Some (pairs, r) => Some (VDict (build_dict pairs), r)
                     | None => None
                     end
            end
          else if Ascii.eqb c "["%char then
            match skip_ws rest with
            | EmptyString => None
            | String c' rest' =>
                if Ascii.eqb c' "]"%char then Some (VList [], rest')
                else match parse_elements fuel (String c' rest') with
                     | Some (items, r) => Some (VList items, r)
                     | None => None
                     end
            end
          else if Ascii.eqb c dquote then
            match scan_string rest with
            | Some (str, r) => Some (VStr str, r)
            | None => None
            end
          else if Ascii.eqb c "n"%char then
            match strip_prefix "ull" rest with
            | Some r => Some (VNone, r)
            | None => None
            end
          else if Ascii.eqb c "t"%char then
            match strip_prefix "rue" rest with
            | Some r => Some (VBool true, r)
            | None => None
            end
          else if Ascii.eqb c "f"%char then
            match strip_prefix "alse" rest with
            | Some r => Some (VBool false, r)
            | None => None
            end
          else parse_number s
      end
  end
with parse_elements (fuel : nat) (s : string) : option (list value * string) :=
  match fuel with
  | O => None
  | S fuel =>
      match parse_value fuel s with
      | None => None
      | Some (v, r) =>
          match skip_ws r with
          | EmptyString => None
          | String c r' =>
              if Ascii.eqb c ","%char then
                match parse_elements fuel (skip_ws r') with
                | Some (items, r'') => Some (v :: items, r'')
                | None => None
                end
              else if Ascii.eqb c "]"%char then Some ([v], r')
              else None
          end
      end
  end
with parse_members (fuel : nat) (s : string) : option (list (string * value) * string) :=
  match fuel with
  | O => None
  | S fuel =>
      match s with
      | EmptyString => None
      | String q s1 =>
          if Ascii.eqb q dquote then
            match scan_string s1 with
            | None => None
            | Some (key, s2) =>
                match skip_ws s2 with
                | EmptyString => None
                | String colon s3 =>
                    if Ascii.eqb colon ":"%char then
                      match parse_value fuel (skip_ws s3) with
                      | None => None
                      | Some (v, r) =>
                          match skip_ws r with
                          | EmptyString => None
                          | String c r' =>
                              if Ascii.eqb c ","%char then
                                match parse_members fuel (skip_ws r') with
                                | Some (pairs, r'') => Some ((key, v) :: pairs, r'')
                                | None => None
                                end
                              else if Ascii.eqb c "}"%char then Some ([(key, v)], r')
                              else None
                          end
                      end
                    else None
                end
            end
          else None
      end
  end.

(** [json.loads(text)]: one value, blanks around it allowed, nothing
    else. *)
Definition json_loads (text : string) : option value :=
  match parse_value (S (String.length text)) (skip_ws text) with
  | Some (v, rest) =>
      match skip_ws rest with
      | EmptyString => Some v
      | String _ _ => None
      end
  | None => None
  end.

(** ** The command line *)

Module Args.
Record t : Type := mk {
  all : bool;
  system : bool;
  cpu : bool;
  memory : bool;
  disk : bool;
  network : bool;
  processes : bool;
  sort_by : string;
  limit : Z;
  output : option string;
  json : bool
}.
End Args.

(** One argument as [argparse] takes it from the command line: an
    option it knows (short and long spellings are the same option,
    [--limit] comes with the integer its text denotes), [-h], or
    anything it refuses, be it an unknown option, a stray word, an
    option without its value or a [--limit] that is no integer. *)
Inductive cli_option : Type :=
| OptAll
| OptSystem
| OptCpu
| OptMemory
| OptDisk
| OptNetwork
| OptProcesses
| OptSortBy (choice : string)
| OptLimit (n : Z)
| OptOutput (file : string)
| OptJson
| OptHelp
| Unrecognised (text : string).

(** The defaults of lines 179-190. *)
Definition default_args : Args.t :=
  Args.mk false false false false false false false "memory" 10 None false.

(** What one argument does to the namespace: a [store_true] flag sets
    its field, a valued option stores its value (the last one wins);
    a [--sort-by] outside its choices and an argument [argparse]
    refuses stop the program with a usage message, [-h] stops it after
    the help text: in each case [main] goes no further. *)
Definition parse_option (a : Args.t) (o : cli_option) : option Args.t :=
  let '(Args.mk all system cpu memory disk network processes
                sort_by limit output json) := a in
  match o with
  | OptAll => Some (Args.mk true system cpu memory disk network processes sort_by limit output json)
  | OptSystem => Some (Args.mk all true cpu memory disk network processes sort_by limit output json)
  | OptCpu => Some (Args.mk all system true memory disk network processes sort_by limit output json)
  | OptMemory => Some (Args.mk all system cpu true disk network processes sort_by limit output json)
  | OptDisk => Some (Args.mk all system cpu memory true network processes sort_by limit output json)
  | OptNetwork => Some (Args.mk all system cpu memory disk true processes sort_by limit output json)
  | OptProcesses => Some (Args.mk all system cpu memory disk network true sort_by limit output json)
  | OptSortBy choice =>
      if String.eqb choice "cpu" || String.eqb choice "memory"
      then Some (Args.mk all system cpu memory disk network processes choice limit output json)
      else None
  | OptLimit n => Some (Args.mk all system cpu memory disk network processes sort_by n output json)
  | OptOutput file => Some (Args.mk all system cpu memory disk network processes sort_by limit (Some file) json)
  | OptJson => Some (Args.mk all system cpu memory disk network processes sort_by limit output true)
  | OptHelp => None
  | Unrecognised _ => None
  end.

(** [parser.parse_args()] *)
Fixpoint parse_args (argv : list cli_option) (a : Args.t) : option Args.t :=
  match argv with
  | [] => Some a
  | o :: rest =>
      match parse_option a o with
      | Some a' => parse_args rest a'
      | None => None
      end
  end.

(** ** The driver *)

Definition lift {A : Type} (r : result A) : io A := ([], r).

(** [any(l)] *)
Definition any (l : list bool) : bool := existsb (fun b => b) l.

(** Lines 194-217: the sections asked for, gathered in [results]. *)
Definition collect (args : Args.t) (env : Env.t) : io dict :=
  let system :=
    if negb (any [Args.all args; Args.system args; Args.cpu args; Args.memory args;
                  Args.disk args; Args.network args; Args.processes args])
    then true else Args.system args in
  let results : dict := [] in
  let results :=
    if Args.all args || system
    then dict_set "system" (get_system_info env) results else results in
  let results :=
    if Args.all args || Args.cpu args
    then dict_set "cpu" (get_cpu_info env) results else results in
  let results :=
    if Args.all args || Args.memory args
    then dict_set "memory" (get_memory_info env) results else results in
  let results :=
    if Args.all args || Args.disk args
    then dict_set "disk" (VList (get_disk_info env)) results else results in
  results <-
    (if Args.all args || Args.network args
     then network <- lift (get_network_info env) ;;
          ret (dict_set "network" network results)
     else ret results) ;;
  if Args.all args || Args.processes args
  then
    processes <- lift (get_process_info (Env.process_iter env)
                                        (Args.sort_by args) (Args.limit args)) ;;
    ret (dict_set "processes" (VList (map process_value processes)) results)
  else ret results.

(** [if key in results: display_info(results[key], title)] *)
Definition display_section (env : Env.t) (results : dict) (key title : string) : io unit :=
  match dict_get key results with
  | Some data => display_info (Env.set_order env) data (Some title)
  | None => ret tt
  end.

(** Lines 231-250: the report printed when neither [--json] nor
    [--output] is given. *)
Definition text_report (args : Args.t) (env : Env.t) (results : dict) : io unit :=
  print (nl ++ "System Information - "
         ++ py_str (match dict_get "timestamp" results with
                    | Some v => v
                    | None => VNone
                    end)
         ++ nl) ;;
  display_section env results "system" "System Information" ;;
  display_section env results "cpu" "CPU Information" ;;
  display_section env results "memory" "Memory Information" ;;
  display_section env results "disk" "Disk Information" ;;
  display_section env results "network" "Network Information" ;;
  let sort_type := if String.eqb (Args.sort_by args) "memory" then "Memory" else "CPU" in
  display_section env results "processes"
    ("Top " ++ str_of_Z (Args.limit args) ++ " Processes by " ++ sort_type ++ " Usage").

(** [main], from the parsed arguments on.  It gives back the final
    [results] so that the snapshot of a run can be talked about. *)
Definition main (args : Args.t) (env : Env.t) : io dict :=
  results <- collect args env ;;
  if Args.json args then
    match Args.output args with
    | Some (String c f) => save_to_file env (VDict results) (String c f)
    | _ => print (json_dumps 4 (VDict results))
    end ;;
    ret results
  else
    let results := dict_set "timestamp" (VStr (Env.timestamp env)) results in
    match Args.output args with
    | Some (String c f) => save_to_file env (VDict results) (String c f)
    | _ => text_report args env results
    end ;;
    ret results.

(** The whole program: parse the command line, then run. *)
Definition run (argv : list cli_option) (env : Env.t) : option (io dict) :=
  match parse_args argv default_args with
  | Some args => Some (main args env)
  | None => None
  end.

(** ** Vocabulary of the statements *)

(** The metric [get_process_info] sorts by. *)
Definition metric (sort_by : string) : ProcessEntry -> option pyfloat :=
  if String.eqb sort_by "memory" then memory_percent else cpu_percent.

(** The metric of the process was read: it is a float, not [None]. *)
Definition measured (sort_by : string) (p : ProcessEntry) : Prop :=
  metric sort_by p <> None.

(** The lists the sort accepts: fewer than two processes, or a metric
    read for every process. *)
Definition sortable (sort_by : string) (procs : list ProcessEntry) : Prop :=
  (List.length procs < 2)%nat \/ Forall (measured sort_by) procs.

(** The key of [b] is a float no larger than the key of [a]. *)
Definition key_ge {A : Type} (key : A -> option pyfloat) (a b : A) : Prop :=
  exists x y, key a = Some x /\ key b = Some y /\ (float_Q y <= float_Q x)%Q.

(** Every later entry has a key no larger than every earlier one. *)
Definition descending {A : Type} (key : A -> option pyfloat) (l : list A) : Prop :=
  forall i j a b,
    (i < j)%nat -> nth_error l i = Some a -> nth_error l j = Some b ->
    key_ge key a b.

(** The key of the item is the float [k]. *)
Definition has_key {A : Type} (key : A -> option pyfloat) (k : Q) (x : A) : bool :=
  match key x with
  | Some f => Qeq_bool (float_Q f) k
  | None => false
  end.

(** The entries of the partitions whose usage query succeeds, in
    order. *)
Definition usage_entries (disk_usage : string -> result sdiskusage.t)
  (partitions : list sdiskpart.t) : list value :=
  flat_map (fun p => match disk_usage (sdiskpart.mountpoint p) with
                     | Ok u => [disk_entry p u]
                     | Raise _ => []
                     end) partitions.

(** The six sections, in the order [main] collects them. *)
Definition sections : list string :=
  ["system"; "cpu"; "memory"; "disk"; "network"; "processes"].

(** The flag of a section in the parsed arguments. *)
Definition section_flag (args : Args.t) (key : string) : bool :=
  if String.eqb key "system" then Args.system args
  else if String.eqb key "cpu" then Args.cpu args
  else if String.eqb key "memory" then Args.memory args
  else if String.eqb key "disk" then Args.disk args
  else if String.eqb key "network" then Args.network args
  else if String.eqb key "processes" then Args.processes args
  else false.

(** No section flag at all is set. *)
Definition no_section_flag (args : Args.t) : bool :=
  negb (Args.all args || Args.system args || Args.cpu args || Args.memory args
        || Args.disk args || Args.network args || Args.processes args).

(** The section is to be collected: [--all], its own flag, or (for the
    system section) no flag at all. *)
Definition selected (args : Args.t) (key : string) : bool :=
  Args.all args || section_flag args key
  || (no_section_flag args && String.eqb key "system").

(** What the collector of a section returns. *)
Definition section_result (args : Args.t) (env : Env.t) (key : string) : result value :=
  if String.eqb key "system" then Ok (get_system_info env)
  else if String.eqb key "cpu" then Ok (get_cpu_info env)
  else if String.eqb key "memory" then Ok (get_memory_info env)
  else if String.eqb key "disk" then Ok (VList (get_disk_info env))
  else if String.eqb key "network" then get_network_info env
  else match get_process_info (Env.process_iter env)
                              (Args.sort_by args) (Args.limit args) with
       | Ok processes => Ok (VList (map process_value processes))
       | Raise e => Raise e
       end.

(** The sections of the given keys, each bound to what its collector
    returns, unless a collector raises: the first that does decides. *)
Fixpoint gather (collector : string -> result value) (keys : list string)
  : result dict :=
  match keys with
  | [] => Ok []
  | key :: rest =>
      match collector key with
      | Raise e => Raise e
      | Ok v =>
          match gather collector rest with
          | Ok d => Ok ((key, v) :: d)
          | Raise e => Raise e
          end
      end
  end.

(** The selected sections, in canonical order. *)
Definition snapshot (args : Args.t) (env : Env.t) : result dict :=
  gather (section_result args env) (filter (selected args) sections).

(** The results [main] ends with once the snapshot is gathered: the
    timestamp goes last, in text mode only. *)
Definition with_timestamp (args : Args.t) (env : Env.t) (snap : dict) : dict :=
  (snap ++ (if Args.json args then []
            else [("timestamp", VStr (Env.timestamp env))]))%list.

(** The host name of the machine resolves to an address. *)
Definition resolves (env : Env.t) : Prop :=
  exists ip_address, Env.gethostbyname env (Env.gethostname env) = Ok ip_address.

(** The output file, if one is named, can be opened for writing. *)
Definition opens (args : Args.t) (env : Env.t) : Prop :=
  match Args.output args with
  | Some (String c f) => Env.open_w env (String c f) = Ok tt
  | _ => True
  end.

(** The sections asked for can be collected: the host name resolves if
    the network section is among them, the sort accepts the processes if
    the process section is. *)
Definition collects (args : Args.t) (env : Env.t) : Prop :=
  (Args.all args || Args.network args = true -> resolves env)
  /\ (Args.all args || Args.processes args = true ->
      sortable (Args.sort_by args) (Env.process_iter env)).

(** What a run of [main] does to the outside once the results are
    gathered. *)
Definition main_effects (args : Args.t) (env : Env.t) (results : dict) : list effect :=
  match Args.output args with
  | Some (String c f) =>
      [WriteFile (String c f) (json_dumps 4 (VDict results));
       Print ("Information saved to " ++ String c f)]
  | _ =>
      if Args.json args then [Print (json_dumps 4 (VDict results))]
      else fst (text_report args env results)
  end.

(** The characters that reach standard output: [print] ends each text
    with a line break. *)
Fixpoint stdout_text (out : list effect) : string :=
  match out with
  | [] => ""
  | Print text :: rest => text ++ nl ++ stdout_text rest
  | WriteFile _ _ :: rest => stdout_text rest
  end.

(** What an option on the command line asks for. *)
Definition asks_for (key : string) (o : cli_option) : bool :=
  match o with
  | OptAll => true
  | OptSystem => String.eqb key "system"
  | OptCpu => String.eqb key "cpu"
  | OptMemory => String.eqb key "memory"
  | OptDisk => String.eqb key "disk"
  | OptNetwork => String.eqb key "network"
  | OptProcesses => String.eqb key "processes"
  | _ => false
  end.

Definition is_section_option (o : cli_option) : bool :=
  match o with
  | OptAll | OptSystem | OptCpu | OptMemory | OptDisk | OptNetwork | OptProcesses => true
  | _ => false
  end.

Definition is_json_option (o : cli_option) : bool :=
  match o with OptJson => true | _ => false end.

(** The section is requested by the command line, whatever the order of
    its options. *)
Definition requested (argv : list cli_option) (key : string) : bool :=
  existsb (asks_for key) argv
  || (negb (existsb is_section_option argv) && String.eqb key "system").

(** The choices of the [--sort-by] options of a command line, in
    order. *)
Definition sort_by_choices (argv : list cli_option) : list string :=
  flat_map (fun o => match o with
                     | OptSortBy choice => [choice]
                     | _ => []
                     end) argv.

(** An option [parse_args] accepts. *)
Definition valid_option (o : cli_option) : bool :=
  match o with
  | OptSortBy choice => String.eqb choice "cpu" || String.eqb choice "memory"
  | OptHelp | Unrecognised _ => false
  | _ => true
  end.

(** The line a title gives, if it counts. *)
Definition title_lines (title : option string) : list effect :=
  match title with
  | Some (String c t) => [Print (nl ++ "=== " ++ String c t ++ " ===" ++ nl)]
  | _ => []
  end.

(** The longest key of a mapping. *)
Definition max_key_length (d : dict) : nat :=
  list_max (map (fun kv => String.length (fst kv)) d).

(** The lines of one entry of a mapping: a nested mapping or a list
    gives its key and indented lines, anything else one padded line. *)
Definition mapping_lines (width : nat) (kv : string * value) : list effect :=
  match snd kv with
  | VDict sub =>
      Print (fst kv ++ ":")
      :: map (fun skv => Print ("  " ++ fst skv ++ ": " ++ py_str (snd skv))) sub
  | VList items =>
      Print (fst kv ++ ":") :: map (fun item => Print ("  - " ++ py_str item)) items
  | v => [Print (ljust (fst kv) width ++ ": " ++ py_str v)]
  end.



(** The keys of all records, each once, in the order they first occur. *)
Definition key_union (records : list dict) : list string :=
  fold_left (fun keys r => set_update keys (dict_keys r)) records [].

(** The line of a record in a table with the given columns. *)
Definition record_line (cols : list string) (r : dict) : effect :=
  match dict_get "name" r with
  | Some name =>
      Print (join " | "
               (py_str name
                :: map (fun k => py_str (match dict_get k r with
                                         | Some v => v
                                         | None => VStr "N/A"
                                         end)) cols))
  | None => Print (py_str (VDict r))
  end.

(** The lines of a list of records: with a name column, a header, a
    rule and one line per record; without, the records as they are. *)
Definition table_lines (set_order : list string -> list string)
  (records : list dict) : list effect :=
  let keys := key_union records in
  if set_mem "name" keys then
    let cols := set_order (set_remove "name" keys) in
    let header := join " | " ("Name" :: map capitalize cols) in
    Print header
    :: Print (repeat_string "-" (String.length header))
    :: map (record_line cols) records
  else map (fun r => Print (py_str (VDict r))) records.

Definition is_dict (v : value) : bool :=
  match v with VDict _ => true | _ => false end.

(** The values [display_info] prints without failing: a mapping that is
    not empty, a list whose items are all records once the first is, and
    everything that is neither a mapping nor a list. *)
Definition displayable (v : value) : Prop :=
  match v with
  | VDict d => d <> []
  | VList (VDict _ :: items) => forallb is_dict items = true
  | _ => True
  end.

(** An exponent has digits. *)
Definition wf_exp (e : option (bool * uint)) : bool :=
  match e with
  | Some (_, Nil) => false
  | _ => true
  end.

(** A float literal as [repr] writes it: a fraction or an exponent is
    there, and an exponent has digits. *)
Definition wf_float (f : pyfloat) : bool :=
  match f_frac f, f_exp f with
  | Nil, None => false
  | _, e => wf_exp e
  end.

Fixpoint distinct (keys : list string) : bool :=
  match keys with
  | [] => true
  | k :: keys' => negb (existsb (String.eqb k) keys') && distinct keys'
  end.

(** The values Python can hold: the keys of a [dict] are distinct, a
    float has the shape of a literal. *)
Fixpoint wf_value (v : value) : bool :=
  match v with
  | VFloat f => wf_float f
  | VList l => forallb wf_value l
  | VDict d =>
      distinct (map fst d) && forallb (fun kv => wf_value (snd kv)) d
  | _ => true
  end.

(** The floats the operating system hands over have the shape of
    literals (they are finite). *)
Definition wf_opt_float (o : option pyfloat) : bool :=
  match o with
  | Some f => wf_float f
  | None => true
  end.

Definition wf_process (p : ProcessEntry) : bool :=
  wf_opt_float (memory_percent p) && wf_opt_float (cpu_percent p).

Definition wf_env (env : Env.t) : bool :=
  match Env.cpu_freq env with
  | Some f => wf_float (scpufreq.max f) && wf_float (scpufreq.current f)
  | None => true
  end
  && forallb wf_process (Env.process_iter env).

(** A text after which a JSON value surely ends: nothing, a comma or a
    line break. *)
Definition ends_value (rest : string) : bool :=
  match rest with
  | EmptyString => true
  | String c _ => Ascii.eqb c ","%char || Ascii.eqb c "010"%char
  end.

(** The head of a text is not a digit. *)
Definition no_digit_ahead (rest : string) : bool :=
  match rest with
  | EmptyString => true
  | String c _ => negb (is_digit c)
  end.

(** The text of one member of an object. *)
Definition member_text (indent level : nat) (kv : string * value) : string :=
  let '(k, v) := kv in json_string k ++ ": " ++ json_encode indent (S level) v.

(** The property proved of every value: its text, followed by something
    that ends a value, is read back as the value. *)
Definition reads_back (indent : nat) (v : value) : Prop :=
  wf_value v = true ->
  forall level rest fuel,
    ends_value rest = true ->
    (String.length (json_encode indent level v) <= fuel)%nat ->
    parse_value (S fuel) (json_encode indent level v ++ rest) = Some (v, rest).

(** ** Sample data *)

Definition fl (i : N) (frac : uint) : pyfloat := mkfloat false i frac None.

Definition proc_init : ProcessEntry :=
  mkproc 1 (Some "init") (Some "root") (Some (fl 0 (D5 Nil))) (Some (fl 1 (D0 Nil))).
Definition proc_sshd : ProcessEntry :=
  mkproc 812 (Some "sshd") (Some "root") (Some (fl 3 (D2 Nil))) (Some (fl 0 (D0 Nil))).
Definition proc_python : ProcessEntry :=
  mkproc 4021 (Some "python3") (Some "alice")
         (Some (fl 12 (D7 (D5 Nil)))) (Some (fl 48 (D1 Nil))).

(** A process of another user that psutil may not look into: it has a
    name, the rest is [None]. *)
Definition proc_denied : ProcessEntry :=
  mkproc 640 (Some "systemd-logind") None None None.

Definition sample_procs : list ProcessEntry :=
  [proc_init; proc_sshd; proc_python].

(** The same machine, seen by a user who is denied one process. *)
Definition denied_procs : list ProcessEntry :=
  [proc_init; proc_denied; proc_python].

Definition sample_partitions : list sdiskpart.t :=
  [ sdiskpart.mk "/dev/sda1" "/" "ext4";
    sdiskpart.mk "/dev/sr0" "/media/cdrom" "iso9660";
    sdiskpart.mk "/dev/sdb1" "/data" "xfs" ].

(** The CD drive is empty: its usage query raises. *)
Definition sample_disk_usage (mountpoint : string) : result sdiskusage.t :=
  if String.eqb mountpoint "/" then
    Ok (sdiskusage.mk 500107862016 125026965504 375080896512 (fl 25 (D0 Nil)))
  else if String.eqb mountpoint "/data" then
    Ok (sdiskusage.mk 1073741824 134217728 939524096 (fl 12 (D5 Nil)))
  else Raise OSError.

(** No directory [missing] exists: a file in it cannot be opened. *)
Definition sample_open_w (filename : string) : result unit :=
  if String.eqb filename "missing/report.json" then Raise OSError else Ok tt.

(** A machine with the given answer to [gethostbyname] and the given
    processes. *)
Definition machine (gethostbyname : string -> result string)
  (procs : list ProcessEntry) : Env.t :=
  Env.mk "Linux" "host1" "6.1.0" "#1 SMP" "x86_64" "" "3.11.2"
         (Some 4) (Some 8)
         (Some (scpufreq.mk (fl 2400 (D0 Nil)) (fl 800 (D0 Nil)) (fl 3600 (D0 Nil))))
         [fl 3 (D0 Nil); fl 12 (D5 Nil)] (fl 7 (D8 Nil))
         (svmem.mk 16777216000 8388608000 8388608000 (fl 50 (D0 Nil)))
         (sswap.mk 2147483648 0 (fl 0 (D0 Nil)))
         sample_partitions sample_disk_usage
         "host1" gethostbyname
         [("lo", snetio.mk 1048576 1048576 100 100);
          ("eth0", snetio.mk 123456789 987654321 4000 5000)]
         procs
         sample_open_w
         (fun keys => keys)
         "2024-05-01 12:00:00".

Definition sample_env : Env.t := machine (fun _ => Ok "127.0.1.1") sample_procs.

(** The host name is in no name service. *)
Definition unresolved_env : Env.t := machine (fun _ => Raise gaierror) sample_procs.

Definition denied_env : Env.t := machine (fun _ => Ok "127.0.1.1") denied_procs.


(** The results of a run on the machine of a user who is denied one
    process: what psutil could not read is [None]. *)
Definition sample_results : dict :=
  [ ("system", get_system_info denied_env);
    ("disk", VList (get_disk_info denied_env));
    ("processes", VList (map process_value denied_procs)) ].


(** [report.txt] is asked for and [--json] is not. *)
Definition text_file_args : Args.t :=
  Args.mk false false false false false false false "memory" 10 (Some "report.txt") false.

Definition json_file_args : Args.t :=
  Args.mk false false true false false false true "cpu" 2 (Some "top.json") true.

(** [-p -j -d --sort-by cpu -c --limit 5] *)
Definition sample_argv : list cli_option :=
  [OptProcesses; OptJson; OptDisk; OptSortBy "cpu"; OptCpu; OptLimit 5].

(** What [parse_args] makes of it. *)
Definition sample_parsed : Args.t :=
  Args.mk false false true false true false true "cpu" 5 None true.

Definition all_args : Args.t :=
  Args.mk true false false false false false false "memory" 2 None true.

(** [-a --sort-by cpu --limit 2]: every section, as text. *)
Definition text_all_args : Args.t :=
  Args.mk true false false false false false false "cpu" 2 None false.

(** Two processes with the same CPU share, around a busier one. *)
Definition tie_procs : list ProcessEntry :=
  [proc_sshd; proc_python;
   mkproc 77 (Some "cron") (Some "root") (Some (fl 0 (D1 Nil))) (Some (fl 0 (D0 Nil)))].

Definition is_print (e : effect) : bool :=
  match e with
  | Print _ => true
  | WriteFile _ _ => false
  end.

(** The title [main] gives a section in the text report (lines 233-250). *)
Definition section_title (args : Args.t) (key : string) : string :=
  if String.eqb key "system" then "System Information"
  else if String.eqb key "cpu" then "CPU Information"
  else if String.eqb key "memory" then "Memory Information"
  else if String.eqb key "disk" then "Disk Information"
  else if String.eqb key "network" then "Network Information"
  else "Top " ++ str_of_Z (Args.limit args) ++ " Processes by "
       ++ (if String.eqb (Args.sort_by args) "memory" then "Memory" else "CPU")
       ++ " Usage".

(** The number of hundredths [round2] settles on. *)
Definition hundredths (b k : N) : N :=
  let num := (b * 100)%N in
  let den := (2 ^ k)%N in
  let q := (num / den)%N in
  let r := (num mod den)%N in
  if (den <? 2 * r)%N then (q + 1)%N
  else if (den =? 2 * r)%N then (q + q mod 2)%N
  else q.

(** The digits [round2] writes after the point for [c] hundredths. *)
Definition two_decimals (c : N) : uint :=
  if (c mod 10 =? 0)%N then digit (c / 10) Nil
  else digit (c / 10) (digit (c mod 10) Nil).

(** A printable character of ASCII, or a line break. *)
Definition plain_char (c : ascii) : bool :=
  let n := N_of_ascii c in (((32 <=? n) && (n <=? 126)) || (n =? 10))%N.

Fixpoint plain_text (s : string) : bool :=
  match s with
  | EmptyString => true
  | String c s' => plain_char c && plain_text s'
  end.

(** The number of spaces a text starts with. *)
Fixpoint leading_spaces (s : string) : nat :=
  match s with
  | String c s' => if Ascii.eqb c " "%char then S (leading_spaces s') else O
  | EmptyString => O
  end.

(** For every line break of a text, the number of spaces after it: the
    indentation of the lines after the first. *)
Fixpoint indents (s : string) : list nat :=
  match s with
  | EmptyString => []
  | String c s' =>
      if Ascii.eqb c "010"%char then leading_spaces s' :: indents s'
      else indents s'
  end.

(** The text holds no line break. *)
Fixpoint one_line (s : string) : bool :=
  match s with
  | EmptyString => true
  | String c s' => negb (Ascii.eqb c "010"%char) && one_line s'
  end.

(** What is proved of every value: the line breaks of its text are
    followed by multiples of the indentation. *)
Definition indented (indent : nat) (v : value) : Prop :=
  forall level tail,
  exists inner,
    indents (json_encode indent level v ++ tail) = (inner ++ indents tail)%list
    /\ Forall (fun n => exists m, n = (indent * m)%nat) inner.


(** The fields of a process record, in the order [process_value] gives them. *)
Definition process_fields (p : ProcessEntry) : dict :=
  match process_value p with
  | VDict d => d
  | _ => []
  end.

Definition process_columns : list string :=
  ["pid"; "username"; "memory_percent"; "cpu_percent"].

(** * Properties *)

(** ** Sorting and slicing *)

Lemma firstn_In {A : Type} (n : nat) (l : list A) (x : A) :
  In x (firstn n l) -> In x l.
Proof.
  revert l. induction n as [| n IH]; intros [| y l]; simpl; try tauto.
  intros [H | H]; [now left | right; now apply IH].
Qed.

Section SortFacts.
Context {A : Type} (key : A -> pyfloat).

Let ge (a b : A) : Prop := (float_Q (key b) <= float_Q (key a))%Q.

Lemma float_le_true (a b : pyfloat) :
  float_le a b = true <-> (float_Q a <= float_Q b)%Q.
Proof. unfold float_le. apply Qle_bool_iff. Qed.

Lemma float_le_false (a b : pyfloat) :
  float_le a b = false -> (float_Q b <= float_Q a)%Q.
Proof.
  intros H. destruct (Qlt_le_dec (float_Q b) (float_Q a)) as [Hlt | Hle].
  - now apply Qlt_le_weak.
  - apply float_le_true in Hle. congruence.
Qed.

Lemma insert_desc_perm (x : A) (l : list A) :
  Permutation (insert_desc key x l) (x :: l).
Proof.
  induction l as [| y l IH]; simpl.
  - apply Permutation_refl.
  - destruct (float_le (key y) (key x)).
    + apply Permutation_refl.
    + apply perm_trans with (y :: x :: l).
      * now apply perm_skip.
      * apply perm_swap.
Qed.

Lemma sort_reverse_perm (l : list A) : Permutation (sort_reverse key l) l.
Proof.
  induction l as [| x l IH]; simpl.
  - apply perm_nil.
  - apply perm_trans with (x :: sort_reverse key l).
    + apply insert_desc_perm.
    + now apply perm_skip.
Qed.

Lemma insert_desc_sorted (x : A) (l : list A) :
  StronglySorted ge l -> StronglySorted ge (insert_desc key x l).
Proof.
  induction 1 as [| y l Hl IH Hy]; simpl.
  - repeat constructor.
  - destruct (float_le (key y) (key x)) eqn:E.
    + apply float_le_true in E.
      constructor; [now constructor |].
      constructor; [exact E |].
      rewrite Forall_forall in *. intros z Hz. unfold ge in *.
      eapply Qle_trans; [apply Hy, Hz | exact E].
    + apply float_le_false in E.
      constructor; [exact IH |].
      apply (Permutation_Forall (x := x :: l)).
      * symmetry. apply insert_desc_perm.
      * constructor; assumption.
Qed.

Lemma sort_reverse_sorted (l : list A) : StronglySorted ge (sort_reverse key l).
Proof.
  induction l as [| x l IH]; simpl.
  - constructor.
  - now apply insert_desc_sorted.
Qed.

End SortFacts.

Section Stability.
Context {A : Type} (key : A -> pyfloat) (k : Q).

Let same (x : A) : bool := Qeq_bool (float_Q (key x)) k.

Lemma insert_desc_stable (x : A) (l : list A) :
  filter same (insert_desc key x l) = filter same (x :: l).
Proof.
  induction l as [| y l IH]; [reflexivity |].
  cbn [insert_desc]. destruct (float_le (key y) (key x)) eqn:E; [reflexivity |].
  cbn [filter] in *. rewrite IH.
  destruct (same x) eqn:Hx, (same y) eqn:Hy; try reflexivity.
  exfalso. unfold same in Hx, Hy.
  apply Qeq_bool_iff in Hx. apply Qeq_bool_iff in Hy.
  assert (Hle : (float_Q (key y) <= float_Q (key x))%Q).
  { rewrite Hx, Hy. apply Qle_refl. }
  apply float_le_true in Hle. congruence.
Qed.

Lemma sort_reverse_stable (l : list A) :
  filter same (sort_reverse key l) = filter same l.
Proof.
  induction l as [| x l IH]; [reflexivity |].
  cbn [sort_reverse fold_right]. fold (sort_reverse key l).
  rewrite insert_desc_stable. cbn [filter]. now rewrite IH.
Qed.

End Stability.

Section Sorted.
Context {A : Type} (R : A -> A -> Prop).

Lemma firstn_sorted (n : nat) (l : list A) :
  StronglySorted R l -> StronglySorted R (firstn n l).
Proof.
  intros H. revert n. induction H as [| y l Hl IH Hy]; intros [| n]; simpl;
    try constructor.
  - apply IH.
  - rewrite Forall_forall in *. intros z Hz. apply Hy.
    eapply firstn_In. exact Hz.
Qed.

Lemma sorted_nth (l : list A) :
  StronglySorted R l ->
  forall i j a b,
    (i < j)%nat -> nth_error l i = Some a -> nth_error l j = Some b -> R a b.
Proof.
  induction 1 as [| y l Hl IH Hy]; intros i j a b Hij Ha Hb.
  - destruct i; discriminate.
  - destruct j as [| j]; [lia |]. simpl in Hb.
    destruct i as [| i]; simpl in Ha.
    + injection Ha as <-. rewrite Forall_forall in Hy.
      apply Hy. eapply nth_error_In. exact Hb.
    + apply (IH i j); [lia | assumption | assumption].
Qed.

Lemma sorted_app_order (l1 l2 : list A) :
  StronglySorted R (l1 ++ l2)%list ->
  forall a b, In a l1 -> In b l2 -> R a b.
Proof.
  induction l1 as [| x l1 IH]; intros Hs a b Ha Hb; [destruct Ha |].
  simpl in Hs. inversion Hs as [| ? ? Hs' Hall]; subst.
  destruct Ha as [<- | Ha].
  - rewrite Forall_forall in Hall. apply Hall. apply in_or_app. now right.
  - now apply IH.
Qed.

Lemma sorted_map {B : Type} (f : B -> A) (R' : B -> B -> Prop) (l : list B) :
  StronglySorted R' l ->
  (forall a b, In a l -> In b l -> R' a b -> R (f a) (f b)) ->
  StronglySorted R (map f l).
Proof.
  induction 1 as [| y l Hl IH Hy]; intros HR; simpl; constructor.
  - apply IH. intros a b Ha Hb. apply HR; now right.
  - rewrite Forall_forall in *. intros z Hz.
    apply in_map_iff in Hz. destruct Hz as (b & <- & Hb).
    apply HR; [now left | now right | now apply Hy].
Qed.

End Sorted.

Lemma slice_to_length {A : Type} (l : list A) (k : Z) :
  0 <= k -> Z.of_nat (List.length (slice_to l k)) <= k.
Proof.
  intros Hk. unfold slice_to.
  destruct (0 <=? k) eqn:E; [| apply Z.leb_gt in E; lia].
  pose proof (firstn_le_length (Z.to_nat k) l). rewrite length_firstn. lia.
Qed.

Lemma slice_to_all {A : Type} (l : list A) (k : Z) :
  Z.of_nat (List.length l) <= k -> slice_to l k = l.
Proof.
  intros Hk. unfold slice_to.
  destruct (0 <=? k) eqn:E; [| apply Z.leb_gt in E; lia].
  apply firstn_all2. lia.
Qed.

Lemma slice_to_incl {A : Type} (l : list A) (k : Z) (x : A) :
  In x (slice_to l k) -> In x l.
Proof.
  unfold slice_to. destruct (0 <=? k); apply firstn_In.
Qed.

Lemma slice_to_firstn {A : Type} (l : list A) (k : Z) :
  exists n, slice_to l k = firstn n l.
Proof. unfold slice_to. destruct (0 <=? k); eauto. Qed.

(** ** The sort of the process list *)

Section ListSort.
Context {A : Type} (key : A -> option pyfloat).

(** The keys computed before the sort belong to their items. *)
Lemma sort_keys_spec (l : list A) (keyed : list (pyfloat * A)) :
  sort_keys key l = Some keyed ->
  map snd keyed = l
  /\ Forall (fun kx => key (snd kx) = Some (fst kx)) keyed.
Proof.
  revert keyed. induction l as [| x l IH]; intros keyed H; simpl in H.
  - injection H as <-. split; constructor.
  - destruct (key x) as [k |] eqn:Hk; [| discriminate].
    destruct (sort_keys key l) as [keyed' |]; [| discriminate].
    injection H as <-. destruct (IH keyed' eq_refl) as [Hm Hf].
    split; [simpl; now rewrite Hm | constructor; assumption].
Qed.

Lemma sort_keys_measured (l : list A) :
  Forall (fun x => key x <> None) l -> exists keyed, sort_keys key l = Some keyed.
Proof.
  induction 1 as [| x l Hx _ [keyed IH]]; simpl.
  - now exists [].
  - destruct (key x) as [k |]; [| congruence]. rewrite IH. eauto.
Qed.

Lemma sort_keys_None (l : list A) :
  sort_keys key l = None -> exists x, In x l /\ key x = None.
Proof.
  induction l as [| x l IH]; simpl; [discriminate |].
  destruct (key x) as [k |] eqn:Hk.
  - destruct (sort_keys key l); [discriminate |].
    intros _. destruct (IH eq_refl) as (y & Hy & Hn). exists y. auto.
  - intros _. exists x. auto.
Qed.

Lemma sort_keys_Some (l : list A) (keyed : list (pyfloat * A)) :
  sort_keys key l = Some keyed -> Forall (fun x => key x <> None) l.
Proof.
  revert keyed. induction l as [| x l IH]; intros keyed H; simpl in H.
  - constructor.
  - destruct (key x) as [k |] eqn:Hk; [| discriminate].
    destruct (sort_keys key l) as [keyed' |]; [| discriminate].
    constructor; [congruence | now apply (IH keyed')].
Qed.

(** Whenever the sort returns, its result is the stable descending
    arrangement of the list. *)
Lemma list_sort_ok (l l' : list A) :
  list_sort key l = Ok l' ->
  Permutation l' l
  /\ StronglySorted (key_ge key) l'
  /\ forall k, filter (has_key key k) l' = filter (has_key key k) l.
Proof.
  intros H.
  assert (Hshort : (List.length l < 2)%nat -> l' = l).
  { destruct l as [| x [| y l]]; simpl; intros Hl; try lia;
      simpl in H; congruence. }
  destruct (le_lt_dec 2 (List.length l)) as [Hlong | Hlt].
  - assert (Hk : exists keyed,
               sort_keys key l = Some keyed
               /\ l' = map snd (sort_reverse fst keyed)).
    { destruct l as [| x [| y l]]; simpl in Hlong; try lia.
      unfold list_sort in H.
      destruct (sort_keys key (x :: y :: l)) as [keyed |]; [| discriminate].
      injection H as <-. eauto. }
    destruct Hk as (keyed & Hkeyed & ->).
    destruct (sort_keys_spec _ _ Hkeyed) as [Hm Hf].
    assert (Hs : Forall (fun kx => key (snd kx) = Some (fst kx))
                   (sort_reverse fst keyed)).
    { apply (Permutation_Forall (x := keyed)); [| exact Hf].
      symmetry. apply sort_reverse_perm. }
    rewrite Forall_forall in Hs, Hf.
    split; [| split].
    + apply perm_trans with (map snd keyed).
      * apply Permutation_map, sort_reverse_perm.
      * rewrite Hm. apply Permutation_refl.
    + apply (sorted_map _ snd
               (fun a b : pyfloat * A => (float_Q (fst b) <= float_Q (fst a))%Q)).
      * apply sort_reverse_sorted.
      * intros a b Ha Hb Hab. exists (fst a), (fst b).
        split; [now apply Hs | split; [now apply Hs | exact Hab]].
    + intros k.
      assert (Hfm : forall s : list (pyfloat * A),
                 (forall kx, In kx s -> key (snd kx) = Some (fst kx)) ->
                 filter (has_key key k) (map snd s)
                 = map snd (filter (fun kx => Qeq_bool (float_Q (fst kx)) k) s)).
      { induction s as [| kx s IH]; intros Hin; [reflexivity |].
        simpl. unfold has_key at 1. rewrite (Hin kx) by now left.
        rewrite IH by (intros; apply Hin; now right).
        now destruct (Qeq_bool (float_Q (fst kx)) k). }
      rewrite (Hfm _ Hs), (sort_reverse_stable fst k keyed), <- (Hfm _ Hf).
      now rewrite Hm.
  - rewrite (Hshort Hlt). split; [apply Permutation_refl | split; [| reflexivity]].
    destruct l as [| x [| y l]]; simpl in Hlt; try lia; repeat constructor.
Qed.

Lemma list_sort_returns (l : list A) :
  (List.length l < 2)%nat \/ Forall (fun x => key x <> None) l ->
  exists l', list_sort key l = Ok l'.
Proof.
  intros H. destruct l as [| x [| y l]]; try (eexists; reflexivity).
  destruct H as [H | H]; [simpl in H; lia |].
  destruct (sort_keys_measured _ H) as [keyed Hk].
  unfold list_sort. rewrite Hk. eauto.
Qed.

(** The sort raises only [TypeError], and exactly on a list of two or
    more items one of which has no key. *)
Lemma list_sort_raises (l : list A) (e : exn) :
  list_sort key l = Raise e <->
  e = TypeError /\ (2 <= List.length l)%nat /\ exists x, In x l /\ key x = None.
Proof.
  split.
  - intros H. destruct l as [| x [| y l]]; try discriminate.
    unfold list_sort in H.
    destruct (sort_keys key (x :: y :: l)) as [keyed |] eqn:Hk; [discriminate |].
    injection H as <-. split; [reflexivity |]. split; [simpl; lia |].
    now apply sort_keys_None.
  - intros (-> & Hl & x0 & Hin & Hn).
    destruct l as [| x [| y l]]; simpl in Hl; try lia.
    unfold list_sort.
    destruct (sort_keys key (x :: y :: l)) as [keyed |] eqn:Hk; [| reflexivity].
    apply sort_keys_Some in Hk. rewrite Forall_forall in Hk.
    now destruct (Hk x0 Hin).
Qed.

End ListSort.

(** ** The process collector *)

Lemma enumerate_app (procs acc : list ProcessEntry) :
  enumerate procs acc = (acc ++ procs)%list.
Proof.
  revert acc. induction procs as [| p procs IH]; intros acc; simpl.
  - now rewrite app_nil_r.
  - rewrite IH, <- app_assoc. reflexivity.
Qed.

Lemma get_process_info_sort procs sort_by limit :
  get_process_info procs sort_by limit
  = match list_sort (metric sort_by) procs with
    | Ok sorted => Ok (slice_to sorted limit)
    | Raise e => Raise e
    end.
Proof.
  unfold get_process_info, metric. rewrite enumerate_app. simpl.
  destruct (String.eqb sort_by "memory"); reflexivity.
Qed.

Lemma get_process_info_ok procs sort_by limit l :
  get_process_info procs sort_by limit = Ok l ->
  exists sorted,
    list_sort (metric sort_by) procs = Ok sorted /\ l = slice_to sorted limit.
Proof.
  rewrite get_process_info_sort.
  destruct (list_sort (metric sort_by) procs) as [sorted | e]; [| discriminate].
  intros H. injection H as <-. eauto.
Qed.

Lemma get_process_info_returns procs sort_by limit :
  sortable sort_by procs ->
  exists sorted,
    list_sort (metric sort_by) procs = Ok sorted
    /\ get_process_info procs sort_by limit = Ok (slice_to sorted limit).
Proof.
  intros H. destruct (list_sort_returns (metric sort_by) procs H) as [sorted Hs].
  exists sorted. split; [exact Hs |]. now rewrite get_process_info_sort, Hs.
Qed.

Lemma descending_slice sort_by (sorted : list ProcessEntry) (limit : Z) :
  StronglySorted (key_ge (metric sort_by)) sorted ->
  descending (metric sort_by) (slice_to sorted limit).
Proof.
  intros H. unfold descending. apply sorted_nth.
  unfold slice_to. destruct (0 <=? limit); now apply firstn_sorted.
Qed.

(** C1 (as stated, refuted).  With the limit -1 and two processes the
    collector returns one entry: the slice [processes[:-1]] drops the
    last entry instead of bounding the length by the limit. *)
Lemma get_process_info_negative_limit :
  get_process_info [proc_init; proc_sshd] "memory" (-1) = Ok [proc_sshd]
  /\ ~ (Z.of_nat (List.length [proc_sshd]) <= -1).
Proof.
  split.
  - vm_compute. reflexivity.
  - simpl. lia.
Qed.

(** C1 (amended).  When the sort metric of every enumerated process was
    read (it is a float, not [None]), for every sort key and every
    limit N that is not negative, [get_process_info] returns a list of
    at most N entries, in descending order of [memory_percent] when the
    key is "memory" and of [cpu_percent] otherwise. *)
Theorem get_process_info_sorted_within_limit
  (procs : list ProcessEntry) (sort_by : string) (limit : Z) :
  Forall (measured sort_by) procs ->
  0 <= limit ->
  exists l,
    get_process_info procs sort_by limit = Ok l
    /\ Z.of_nat (List.length l) <= limit
    /\ (sort_by = "memory" -> descending memory_percent l)
    /\ (sort_by <> "memory" -> descending cpu_percent l).
Proof.
  intros Hm Hl.
  destruct (get_process_info_returns procs sort_by limit (or_intror Hm))
    as (sorted & Hs & Hg).
  exists (slice_to sorted limit). split; [exact Hg |].
  split; [now apply slice_to_length |].
  destruct (list_sort_ok _ _ _ Hs) as (_ & Hsorted & _).
  pose proof (descending_slice sort_by sorted limit Hsorted) as Hd.
  unfold metric in Hd. split; intros Hk.
  - subst sort_by. exact Hd.
  - apply String.eqb_neq in Hk. now rewrite Hk in Hd.
Qed.

Lemma get_process_info_sorted_within_limit_witness :
  exists l,
    get_process_info sample_procs "cpu" 2 = Ok l
    /\ Z.of_nat (List.length l) <= 2
    /\ ("cpu" = "memory" -> descending memory_percent l)
    /\ ("cpu" <> "memory" -> descending cpu_percent l).
Proof.
  apply (get_process_info_sorted_within_limit sample_procs "cpu" 2).
  - repeat constructor; discriminate.
  - lia.
Defined.

(** ** The disk collector *)

Lemma disk_loop_entries disk_usage partitions acc :
  disk_loop disk_usage partitions acc
  = (acc ++ usage_entries disk_usage partitions)%list.
Proof.
  revert acc. induction partitions as [| p ps IH]; intros acc; simpl.
  - now rewrite app_nil_r.
  - destruct (disk_usage (sdiskpart.mountpoint p)) as [u | e].
    + rewrite IH, <- app_assoc. reflexivity.
    + apply IH.
Qed.

Lemma usage_entries_In disk_usage partitions v :
  In v (usage_entries disk_usage partitions) <->
  exists p u, In p partitions
              /\ disk_usage (sdiskpart.mountpoint p) = Ok u
              /\ v = disk_entry p u.
Proof.
  unfold usage_entries. rewrite in_flat_map. split.
  - intros (p & Hp & Hv). exists p.
    destruct (disk_usage (sdiskpart.mountpoint p)) as [u | e] eqn:E.
    + destruct Hv as [<- | []]. now exists u.
    + destruct Hv.
  - intros (p & u & Hp & Hu & ->). exists p. split; [exact Hp |].
    rewrite Hu. now left.
Qed.

Lemma disk_entries_shape (env : Env.t) (v : value) :
  In v (get_disk_info env) -> exists p u, v = disk_entry p u.
Proof.
  unfold get_disk_info. rewrite disk_loop_entries. simpl. intros H.
  apply usage_entries_In in H. destruct H as (p & u & _ & _ & ->). eauto.
Qed.

(** C4.  The disk collector returns, in order, one entry per partition
    whose usage query succeeds and nothing else: a listed partition has
    an entry in the result exactly when its query succeeds.  The
    collector is a total function: a failing query raises nothing. *)
Theorem get_disk_info_skips_failed_partitions (env : Env.t) :
  get_disk_info env = usage_entries (Env.disk_usage env) (Env.disk_partitions env)
  /\ (forall v, In v (get_disk_info env) ->
        exists p u, In p (Env.disk_partitions env)
                    /\ Env.disk_usage env (sdiskpart.mountpoint p) = Ok u
                    /\ v = disk_entry p u)
  /\ (forall p, In p (Env.disk_partitions env) ->
        ((exists u, In (disk_entry p u) (get_disk_info env))
         <-> (exists u, Env.disk_usage env (sdiskpart.mountpoint p) = Ok u))).
Proof.
  assert (E : get_disk_info env
              = usage_entries (Env.disk_usage env) (Env.disk_partitions env))
    by apply (disk_loop_entries _ _ []).
  split; [exact E |]. rewrite E. split.
  - intros v Hv. now apply usage_entries_In.
  - intros p Hp. split.
    + intros (u & Hu). apply usage_entries_In in Hu.
      destruct Hu as (p' & u' & _ & Hq & Heq).
      unfold disk_entry in Heq. injection Heq as _ Hm _ _ _ _ _.
      rewrite Hm. now exists u'.
    + intros (u & Hu). exists u. apply usage_entries_In. now exists p, u.
Qed.

(** ** Computations that print *)

Lemma io_bind_ok {A B : Type} (m : io A) (k : A -> io B) (out : list effect) (a : A) :
  m = (out, Ok a) -> io_bind m k = ((out ++ fst (k a))%list, snd (k a)).
Proof. intros ->. simpl. now destruct (k a). Qed.

Lemma io_bind_snd {A B : Type} (m : io A) (k : A -> io B) (a : A) :
  snd m = Ok a -> snd (io_bind m k) = snd (k a).
Proof.
  destruct m as [out r]. simpl. intros ->. now destruct (k a).
Qed.

Lemma for_each_ok {A : Type} (l : list A) (body : A -> io unit) :
  (forall x, In x l -> snd (body x) = Ok tt) -> snd (for_each l body) = Ok tt.
Proof.
  induction l as [| x l IH]; intros H; simpl for_each.
  - reflexivity.
  - rewrite (io_bind_snd _ _ tt); [| apply H; now left].
    apply IH. intros y Hy. apply H. now right.
Qed.

Lemma for_each_print {A : Type} (l : list A) (f : A -> string) :
  for_each l (fun x => print (f x)) = (map (fun x => Print (f x)) l, Ok tt).
Proof.
  induction l as [| x l IH]; simpl for_each.
  - reflexivity.
  - rewrite IH. reflexivity.
Qed.

(** ** The collection phase of [main] *)

Lemma gather_ok (collector : string -> result value) (keys : list string) (d : dict) :
  gather collector keys = Ok d ->
  dict_keys d = keys
  /\ forall key v, In (key, v) d -> collector key = Ok v.
Proof.
  revert d. induction keys as [| k keys IH]; intros d H; simpl in H.
  - injection H as <-. split; [reflexivity | intros key v []].
  - destruct (collector k) as [v |] eqn:Hk; [| discriminate].
    destruct (gather collector keys) as [d' |]; [| discriminate].
    injection H as <-. destruct (IH d' eq_refl) as [Hkeys Hin].
    split; [simpl; now rewrite Hkeys |].
    intros key v' [E | Hv]; [injection E as <- <-; exact Hk | now apply Hin].
Qed.

Lemma gather_returns (collector : string -> result value) (keys : list string) :
  (forall key, In key keys -> exists v, collector key = Ok v) ->
  exists d, gather collector keys = Ok d.
Proof.
  induction keys as [| k keys IH]; intros H; simpl.
  - now exists [].
  - destruct (H k (or_introl eq_refl)) as [v ->].
    destruct IH as [d ->]; [intros key Hk; apply H; now right |]. eauto.
Qed.

(** What a key is bound to in a gathered dictionary. *)
Lemma gather_get (collector : string -> result value) (keys : list string)
  (d : dict) (key : string) :
  gather collector keys = Ok d ->
  dict_get key d
  = if existsb (String.eqb key) keys
    then match collector key with Ok v => Some v | Raise _ => None end
    else None.
Proof.
  revert d. induction keys as [| k keys IH]; intros d H; simpl in H.
  - injection H as <-. reflexivity.
  - destruct (collector k) as [v |] eqn:Hk; [| discriminate].
    destruct (gather collector keys) as [d' |]; [| discriminate].
    injection H as <-. simpl.
    destruct (String.eqb key k) eqn:E.
    + apply String.eqb_eq in E. subst k. now rewrite Hk.
    + simpl. now apply IH.
Qed.

(** The collection phase prints nothing and ends with the snapshot, or
    with the error of the first collector that raises. *)
Lemma collect_snapshot (args : Args.t) (env : Env.t) :
  collect args env = ([], snapshot args env).
Proof.
  unfold collect, snapshot, selected, no_section_flag, section_flag, section_result,
    sections, lift, any.
  destruct args as [all system cpu memory disk network processes sort_by limit output json].
  cbn [Args.all Args.system Args.cpu Args.memory Args.disk Args.network
       Args.processes Args.sort_by Args.limit].
  destruct all, system, cpu, memory, disk, network, processes;
    cbn -[get_system_info get_cpu_info get_memory_info get_disk_info
          get_network_info get_process_info process_value];
    try reflexivity;
    try (destruct (get_network_info env) as [nw | e];
         cbn -[get_system_info get_cpu_info get_memory_info get_disk_info
               get_network_info get_process_info process_value];
         try reflexivity);
    destruct (get_process_info (Env.process_iter env) sort_by limit) as [ps | e'];
    reflexivity.
Qed.

Lemma snapshot_keys (args : Args.t) (env : Env.t) (snap : dict) :
  snapshot args env = Ok snap ->
  dict_keys snap = filter (selected args) sections.
Proof. intros H. now apply gather_ok in H. Qed.

Lemma snapshot_In (args : Args.t) (env : Env.t) (snap : dict) (key : string) (v : value) :
  snapshot args env = Ok snap ->
  In (key, v) snap ->
  In key sections /\ selected args key = true /\ section_result args env key = Ok v.
Proof.
  intros H Hin. pose proof (gather_ok _ _ _ H) as [Hkeys Hv].
  assert (Hk : In key (filter (selected args) sections)).
  { rewrite <- Hkeys. unfold dict_keys. apply in_map_iff. now exists (key, v). }
  apply filter_In in Hk. destruct Hk. auto.
Qed.

(** What a key of the snapshot is bound to. *)
Lemma snapshot_get (args : Args.t) (env : Env.t) (snap : dict) (key : string) :
  snapshot args env = Ok snap ->
  In key sections ->
  if selected args key
  then exists v, section_result args env key = Ok v /\ dict_get key snap = Some v
  else dict_get key snap = None.
Proof.
  intros H Hk. rewrite (gather_get _ _ _ key H).
  destruct (selected args key) eqn:Hsel.
  - assert (He : existsb (String.eqb key) (filter (selected args) sections) = true).
    { apply existsb_exists. exists key. split; [| apply String.eqb_refl].
      apply filter_In. now split. }
    rewrite He.
    assert (Hin : In key (dict_keys snap)).
    { rewrite (snapshot_keys _ _ _ H). apply filter_In. now split. }
    unfold dict_keys in Hin. apply in_map_iff in Hin.
    destruct Hin as ([k v] & E & Hin). simpl in E. subst k.
    destruct (snapshot_In _ _ _ _ _ H Hin) as (_ & _ & Hv).
    rewrite Hv. eauto.
  - assert (He : existsb (String.eqb key) (filter (selected args) sections) = false).
    { apply not_true_is_false. intros He. apply existsb_exists in He.
      destruct He as (x & Hx & E). apply String.eqb_eq in E. subst x.
      apply filter_In in Hx. destruct Hx as [_ Hx]. congruence. }
    now rewrite He.
Qed.

Lemma section_result_returns (args : Args.t) (env : Env.t) (key : string) :
  collects args env ->
  selected args key = true ->
  exists v, section_result args env key = Ok v.
Proof.
  intros [Hn Hp] Hsel. unfold section_result.
  destruct (String.eqb key "system") eqn:E1; [eauto |].
  destruct (String.eqb key "cpu") eqn:E2; [eauto |].
  destruct (String.eqb key "memory") eqn:E3; [eauto |].
  destruct (String.eqb key "disk") eqn:E4; [eauto |].
  unfold selected, section_flag in Hsel. rewrite E1, E2, E3, E4 in Hsel.
  rewrite andb_false_r, orb_false_r in Hsel.
  destruct (String.eqb key "network") eqn:E5.
  - destruct (Hn Hsel) as [ip Hip]. unfold get_network_info. rewrite Hip. eauto.
  - assert (Ha : Args.all args || Args.processes args = true).
    { destruct (String.eqb key "processes"); [exact Hsel |].
      rewrite orb_false_r in Hsel. now rewrite Hsel. }
    destruct (get_process_info_returns _ _ (Args.limit args) (Hp Ha))
      as (sorted & _ & ->). eauto.
Qed.

(** The sections asked for are gathered when each of them can be
    collected. *)
Lemma snapshot_returns (args : Args.t) (env : Env.t) :
  collects args env -> exists snap, snapshot args env = Ok snap.
Proof.
  intros Hc. apply gather_returns. intros key Hk.
  apply filter_In in Hk. destruct Hk as [_ Hsel].
  now apply section_result_returns.
Qed.

(** ** The text formatter *)

Lemma for_each_lines {A : Type} (l : list A) (body : A -> io unit)
  (lines : A -> list effect) :
  (forall x, In x l -> body x = (lines x, Ok tt)) ->
  for_each l body = (flat_map lines l, Ok tt).
Proof.
  induction l as [| x l IH]; intros H; simpl for_each.
  - reflexivity.
  - rewrite (io_bind_ok _ _ (lines x) tt) by (apply H; now left).
    rewrite IH by (intros y Hy; apply H; now right). reflexivity.
Qed.

Lemma fold_left_max (l : list nat) (n : nat) :
  fold_left Nat.max l n = Nat.max n (list_max l).
Proof.
  revert n. induction l as [| m l IH]; intros n; simpl.
  - lia.
  - rewrite IH. lia.
Qed.

Lemma py_max_nonempty (l : list nat) :
  l <> [] -> py_max l = ([], Ok (list_max l)).
Proof.
  destruct l as [| n l]; [congruence |]. intros _. unfold py_max, ret.
  rewrite fold_left_max. reflexivity.
Qed.

Lemma title_part (title : option string) :
  match title with
  | Some (String c t) => print (nl ++ "=== " ++ String c t ++ " ===" ++ nl)
  | _ => ret tt
  end = (title_lines title, Ok tt).
Proof. destruct title as [[| c t] |]; reflexivity. Qed.

Lemma mapping_entry (width : nat) (kv : string * value) :
  (let (key, value) := kv in
   match value with
   | VDict sub =>
       print (key ++ ":") ;;
       for_each sub (fun skv => print ("  " ++ fst skv ++ ": " ++ py_str (snd skv)))
   | VList items =>
       print (key ++ ":") ;;
       for_each items (fun item => print ("  - " ++ py_str item))
   | _ => print (ljust key width ++ ": " ++ py_str value)
   end) = (mapping_lines width kv, Ok tt).
Proof.
  destruct kv as [key v]. unfold mapping_lines.
  destruct v; try reflexivity; cbn [snd fst];
    rewrite for_each_print; reflexivity.
Qed.

(** A mapping that is not empty prints the lines of its entries. *)
Lemma display_info_mapping set_order (d : dict) (title : option string) :
  d <> [] ->
  display_info set_order (VDict d) title
  = ((title_lines title ++ flat_map (mapping_lines (max_key_length d)) d)%list, Ok tt).
Proof.
  intros Hd. unfold display_info. rewrite title_part.
  rewrite (io_bind_ok _ _ (title_lines title) tt) by reflexivity.
  rewrite py_max_nonempty by (destruct d; [congruence | discriminate]).
  rewrite (io_bind_ok _ _ [] (max_key_length d)) by reflexivity.
  rewrite (for_each_lines d _ (mapping_lines (max_key_length d)))
    by (intros kv _; apply mapping_entry).
  reflexivity.
Qed.

(** *** Strings *)

Lemma append_assoc (a b c : string) : (a ++ b) ++ c = a ++ (b ++ c).
Proof. induction a as [| x a IH]; simpl; [reflexivity | now rewrite IH]. Qed.

Lemma append_nil_r (a : string) : a ++ "" = a.
Proof. induction a as [| x a IH]; simpl; [reflexivity | now rewrite IH]. Qed.

Lemma length_append (a b : string) :
  String.length (a ++ b) = (String.length a + String.length b)%nat.
Proof. induction a as [| x a IH]; simpl; [reflexivity | now rewrite IH]. Qed.

Lemma length_repeat_space (n : nat) : String.length (repeat_string " " n) = n.
Proof. induction n as [| n IH]; simpl; [reflexivity | now rewrite IH]. Qed.


Lemma join_cons (sep x : string) (l : list string) :
  join sep (x :: l) = x ++ fold_right (fun s acc => sep ++ s ++ acc) "" l.
Proof.
  revert x. induction l as [| y l IH]; intros x.
  - simpl. now rewrite append_nil_r.
  - change (join sep (x :: y :: l)) with (x ++ sep ++ join sep (y :: l)).
    rewrite IH. reflexivity.
Qed.

Lemma fold_left_columns (f : string -> string) (l : list string) (acc : string) :
  fold_left (fun line k => line ++ " | " ++ f k) l acc
  = acc ++ fold_right (fun s rest => " | " ++ s ++ rest) "" (map f l).
Proof.
  revert acc. induction l as [| k l IH]; intros acc; simpl fold_left.
  - simpl. now rewrite append_nil_r.
  - rewrite IH. cbn [map fold_right]. now rewrite !append_assoc.
Qed.

Lemma header_line_join (cols : list string) :
  header_line cols = join " | " ("Name" :: map capitalize cols).
Proof.
  unfold header_line. rewrite join_cons. apply fold_left_columns.
Qed.

(** *** Sets and dictionaries *)

Lemma set_mem_In (k : string) (keys : list string) :
  set_mem k keys = true <-> In k keys.
Proof.
  unfold set_mem. rewrite existsb_exists. split.
  - intros (x & Hx & E). apply String.eqb_eq in E. now subst.
  - intros H. exists k. split; [exact H | apply String.eqb_refl].
Qed.

Lemma set_add_In (keys : list string) (k x : string) :
  In x (set_add keys k) <-> In x keys \/ x = k.
Proof.
  unfold set_add. destruct (set_mem k keys) eqn:E.
  - apply set_mem_In in E. split; [auto | intros [H | ->]; auto].
  - rewrite in_app_iff. simpl. intuition auto.
Qed.


Lemma set_update_In (ks keys : list string) (x : string) :
  In x (set_update keys ks) <-> In x keys \/ In x ks.
Proof.
  unfold set_update. revert keys. induction ks as [| k ks IH]; intros keys; simpl.
  - tauto.
  - rewrite IH, set_add_In. split; intros H; intuition auto.
Qed.


Lemma fold_update_In (records : list dict) (keys : list string) (x : string) :
  In x (fold_left (fun keys r => set_update keys (dict_keys r)) records keys)
  <-> In x keys \/ exists r, In r records /\ In x (dict_keys r).
Proof.
  revert keys. induction records as [| r rs IH]; intros keys; simpl.
  - split; [auto | intros [H | (r & [] & _)]; exact H].
  - rewrite IH, set_update_In. split.
    + intros [[H | H] | (r' & Hr & Hx)]; eauto.
    + intros [H | (r' & [<- | Hr] & Hx)]; eauto.
Qed.


Lemma key_union_In (records : list dict) (x : string) :
  In x (key_union records) <-> exists r, In r records /\ In x (dict_keys r).
Proof.
  unfold key_union. rewrite fold_update_In. simpl. split; [intros [[] | H] | ]; auto.
Qed.


Lemma set_remove_In (k x : string) (keys : list string) :
  In x (set_remove k keys) <-> In x keys /\ x <> k.
Proof.
  unfold set_remove. rewrite filter_In.
  destruct (String.eqb k x) eqn:E; simpl.
  - apply String.eqb_eq in E. subst. split; [intros [_ H]; discriminate | tauto].
  - apply String.eqb_neq in E. split; intros [H _]; split; auto.
Qed.

Lemma dict_get_None (k : string) (d : dict) :
  dict_get k d = None <-> ~ In k (dict_keys d).
Proof.
  induction d as [| [k' v] d IH]; simpl.
  - tauto.
  - destruct (String.eqb k k') eqn:E.
    + apply String.eqb_eq in E. subst. split; [discriminate | tauto].
    + apply String.eqb_neq in E. rewrite IH. split; [intros H [H' | H'] | ]; auto.
Qed.

Lemma dict_mem_In (k : string) (d : dict) :
  dict_mem k d = true <-> In k (dict_keys d).
Proof.
  unfold dict_mem. destruct (dict_get k d) eqn:E.
  - split; [intros _ | reflexivity].
    destruct (in_dec string_dec k (dict_keys d)) as [H | H]; [exact H |].
    apply dict_get_None in H. congruence.
  - apply dict_get_None in E. split; [discriminate | tauto].
Qed.

Lemma all_keys_records (records : list dict) (keys : list string) :
  all_keys (map VDict records) keys
  = ([], Ok (fold_left (fun keys r => set_update keys (dict_keys r)) records keys)).
Proof.
  revert keys. induction records as [| r rs IH]; intros keys; simpl.
  - reflexivity.
  - apply IH.
Qed.

Lemma item_line_join (cols : list string) (r : dict) (name : value) :
  ~ In "name" cols ->
  Print (item_line cols r name)
  = Print (join " | "
             (py_str name
              :: map (fun k => py_str (match dict_get k r with
                                       | Some v => v
                                       | None => VStr "N/A"
                                       end)) cols)).
Proof.
  intros Hn. f_equal. unfold item_line. rewrite join_cons.
  rewrite <- fold_left_columns. generalize (py_str name) as acc.
  induction cols as [| k cols IH]; intros acc; simpl fold_left.
  - reflexivity.
  - destruct (String.eqb k "name") eqn:E.
    + apply String.eqb_eq in E. subst. exfalso. apply Hn. now left.
    + simpl negb. cbv iota. apply IH. intros H. apply Hn. now right.
Qed.

Lemma flat_map_records (f : dict -> effect) (records : list dict) :
  flat_map (fun item => match item with VDict d => [f d] | _ => [] end)
           (map VDict records)
  = map f records.
Proof.
  induction records as [| r rs IH]; simpl; [reflexivity | now rewrite IH].
Qed.

Lemma flat_map_items (f : value -> effect) (records : list dict) :
  flat_map (fun item => [f item]) (map VDict records)
  = map (fun r => f (VDict r)) records.
Proof.
  induction records as [| r rs IH]; simpl; [reflexivity | now rewrite IH].
Qed.

(** A list of records prints its table. *)
Lemma display_info_records set_order (records : list dict) (title : option string) :
  records <> [] ->
  (forall l, Permutation (set_order l) l) ->
  display_info set_order (VList (map VDict records)) title
  = ((title_lines title ++ table_lines set_order records)%list, Ok tt).
Proof.
  intros Hr Hso. destruct records as [| r rs]; [congruence |].
  unfold display_info. rewrite title_part.
  rewrite (io_bind_ok _ _ (title_lines title) tt) by reflexivity.
  change (map VDict (r :: rs)) with (VDict r :: map VDict rs). cbv iota.
  change (VDict r :: map VDict rs) with (map VDict (r :: rs)).
  rewrite all_keys_records.
  rewrite (io_bind_ok _ _ [] (key_union (r :: rs))) by reflexivity.
  cbv beta zeta. fold (key_union (r :: rs)).
  unfold table_lines. generalize dependent (r :: rs). intros records _.
  set (keys := key_union records).
  destruct (set_mem "name" keys) eqn:Hname.
  - rewrite (io_bind_ok _ _ [Print (header_line (set_order (set_remove "name" keys)));
                             Print (repeat_string "-"
                                      (String.length
                                         (header_line (set_order (set_remove "name" keys)))))] tt)
      by reflexivity.
    rewrite (for_each_lines (map VDict records) _
               (fun item => match item with
                            | VDict d => [record_line (set_order (set_remove "name" keys)) d]
                            | _ => []
                            end)).
    + rewrite header_line_join, flat_map_records. reflexivity.
    + intros item Hi. apply in_map_iff in Hi. destruct Hi as (d & <- & _).
      unfold record_line. destruct (dict_get "name" d) as [name |]; [| reflexivity].
      unfold print. rewrite item_line_join; [reflexivity |].
      intros Hin. apply (Permutation_in _ (Hso _)) in Hin.
      apply set_remove_In in Hin. destruct Hin as [_ Hin]. now apply Hin.
  - rewrite (io_bind_ok _ _ [] tt) by reflexivity.
    rewrite (for_each_lines (map VDict records) _
               (fun item => [Print (py_str item)])).
    + rewrite (flat_map_items (fun item => Print (py_str item))). reflexivity.
    + intros item Hi. apply in_map_iff in Hi. destruct Hi as (d & <- & Hd).
      assert (Hnone : dict_get "name" d = None).
      { apply dict_get_None. intros Hin.
        assert (In "name" keys) by (apply key_union_In; eauto).
        apply set_mem_In in H. congruence. }
      rewrite Hnone. reflexivity.
Qed.






(** C9.  On the empty mapping [display_info] prints the title, if any,
    and then fails: the maximum of the key lengths is taken over no key
    at all. *)
Theorem display_info_empty_mapping_fails
  (set_order : list string -> list string) (title : option string) :
  display_info set_order (VDict []) title = (title_lines title, Raise ValueError).
Proof.
  unfold display_info. rewrite title_part.
  rewrite (io_bind_ok _ _ (title_lines title) tt) by reflexivity.
  simpl. now rewrite app_nil_r.
Qed.

Lemma all_keys_ok (data : list value) (keys : list string) :
  forallb is_dict data = true -> exists ks, all_keys data keys = ([], Ok ks).
Proof.
  revert keys. induction data as [| v data IH]; intros keys H; simpl.
  - now exists keys.
  - simpl in H. apply andb_true_iff in H. destruct H as [Hv Hd].
    destruct v; try discriminate. now apply IH.
Qed.

Lemma display_info_ok set_order (v : value) (title : option string) :
  displayable v -> snd (display_info set_order v title) = Ok tt.
Proof.
  intros Hv. destruct v as [| b | z | f | s | l | d].
  1-5: unfold display_info; rewrite title_part;
       rewrite (io_bind_snd _ _ tt) by reflexivity; reflexivity.
  - unfold display_info. rewrite title_part.
    rewrite (io_bind_snd _ _ tt) by reflexivity.
    destruct l as [| v items].
    + reflexivity.
    + destruct v as [| b | z | f | s | l' | first];
        try (rewrite for_each_print; reflexivity).
      simpl in Hv.
      destruct (all_keys_ok (VDict first :: items) []) as [ks Hks];
        [simpl; exact Hv |].
      rewrite (io_bind_snd _ _ ks) by (now rewrite Hks).
      rewrite (io_bind_snd _ _ tt) by (destruct (set_mem "name" ks); reflexivity).
      apply for_each_ok. intros item Hi.
      assert (Hd : is_dict item = true).
      { destruct Hi as [<- | Hi]; [reflexivity |].
        rewrite forallb_forall in Hv. now apply Hv. }
      destruct item; try discriminate.
      destruct (dict_get "name" d); reflexivity.
  - simpl in Hv. now rewrite display_info_mapping.
Qed.

Lemma dict_set_fresh (k : string) (v : value) (d : dict) :
  ~ In k (dict_keys d) -> dict_set k v d = (d ++ [(k, v)])%list.
Proof.
  induction d as [| [k' v'] d IH]; simpl; intros H.
  - reflexivity.
  - destruct (String.eqb k k') eqn:E.
    + apply String.eqb_eq in E. subst. exfalso. apply H. now left.
    + rewrite IH; [reflexivity | tauto].
Qed.

Lemma dict_get_app (k : string) (d d' : dict) :
  dict_get k (d ++ d')%list = match dict_get k d with
                         | Some v => Some v
                         | None => dict_get k d'
                         end.
Proof.
  induction d as [| [k' v'] d IH]; simpl.
  - reflexivity.
  - destruct (String.eqb k k'); [reflexivity | exact IH].
Qed.

Lemma displayable_records (l : list value) :
  forallb is_dict l = true -> displayable (VList l).
Proof.
  destruct l as [| v l]; simpl; [trivial |].
  intros H. apply andb_true_iff in H. destruct H as [Hv Hl].
  destruct v; try discriminate. exact Hl.
Qed.

Lemma get_disk_info_records (env : Env.t) :
  forallb is_dict (get_disk_info env) = true.
Proof.
  apply forallb_forall. intros v Hv.
  destruct (disk_entries_shape env v Hv) as (p & u & ->).
  reflexivity.
Qed.

(** What a collector returns is printed by [display_info] without an
    error. *)
Lemma section_result_displayable (args : Args.t) (env : Env.t) (key : string) (v : value) :
  section_result args env key = Ok v -> displayable v.
Proof.
  unfold section_result.
  destruct (String.eqb key "system");
    [intros H; injection H as <-; simpl; discriminate |].
  destruct (String.eqb key "cpu");
    [intros H; injection H as <-; simpl; discriminate |].
  destruct (String.eqb key "memory");
    [intros H; injection H as <-; simpl; discriminate |].
  destruct (String.eqb key "disk").
  { intros H. injection H as <-. apply displayable_records, get_disk_info_records. }
  destruct (String.eqb key "network").
  { unfold get_network_info.
    destruct (Env.gethostbyname env (Env.gethostname env)); [| discriminate].
    intros H. injection H as <-. simpl. discriminate. }
  destruct (get_process_info _ _ _) as [processes |]; [| discriminate].
  intros H. injection H as <-. apply displayable_records.
  apply forallb_forall. intros x Hx.
  apply in_map_iff in Hx. destruct Hx as (p & <- & _). reflexivity.
Qed.

Lemma timestamp_fresh (args : Args.t) (env : Env.t) (snap : dict) :
  snapshot args env = Ok snap -> ~ In "timestamp" (dict_keys snap).
Proof.
  intros Hs. rewrite (snapshot_keys _ _ _ Hs). intros H.
  apply filter_In in H. destruct H as [H _].
  simpl in H. intuition discriminate.
Qed.

(** The timestamp hides no section. *)
Lemma with_timestamp_get (args : Args.t) (env : Env.t) (snap : dict) (key : string) :
  In key sections ->
  dict_get key (with_timestamp args env snap) = dict_get key snap.
Proof.
  intros Hk. unfold with_timestamp. rewrite dict_get_app.
  destruct (dict_get key snap); [reflexivity |].
  destruct (Args.json args); [reflexivity |].
  simpl. destruct (String.eqb key "timestamp") eqn:E; [| reflexivity].
  apply String.eqb_eq in E. subst. simpl in Hk. intuition discriminate.
Qed.

Lemma display_section_ok (args : Args.t) (env : Env.t) (snap : dict) (key title : string) :
  snapshot args env = Ok snap ->
  In key sections ->
  snd (display_section env (with_timestamp args env snap) key title) = Ok tt.
Proof.
  intros Hs Hk. unfold display_section. rewrite (with_timestamp_get _ _ _ _ Hk).
  pose proof (snapshot_get _ _ _ _ Hs Hk) as Hg.
  destruct (selected args key).
  - destruct Hg as (v & Hv & ->).
    apply display_info_ok. eapply section_result_displayable. exact Hv.
  - now rewrite Hg.
Qed.

Lemma text_report_ok (args : Args.t) (env : Env.t) (snap : dict) :
  snapshot args env = Ok snap ->
  snd (text_report args env (with_timestamp args env snap)) = Ok tt.
Proof.
  intros Hs. unfold text_report.
  rewrite (io_bind_snd _ _ tt) by reflexivity.
  do 5 (rewrite (io_bind_snd _ _ tt)
         by (apply (display_section_ok _ _ _ _ _ Hs); simpl; tauto)).
  apply (display_section_ok _ _ _ _ _ Hs). simpl. tauto.
Qed.

(** The whole of [main], once the snapshot is gathered: the output
    follows, unless the output file cannot be opened. *)
Lemma main_after_collect (args : Args.t) (env : Env.t) (snap : dict) :
  snapshot args env = Ok snap ->
  main args env
  = match Args.output args with
    | Some (String c f) =>
        match Env.open_w env (String c f) with
        | Ok _ => (main_effects args env (with_timestamp args env snap),
                   Ok (with_timestamp args env snap))
        | Raise e => ([], Raise e)
        end
    | _ => (main_effects args env (with_timestamp args env snap),
            Ok (with_timestamp args env snap))
    end.
Proof.
  intros Hs. unfold main. rewrite collect_snapshot, Hs.
  rewrite (io_bind_ok _ _ [] snap eq_refl).
  pose proof (text_report_ok args env snap Hs) as Hok.
  unfold main_effects, with_timestamp in *. unfold save_to_file.
  destruct (Args.json args) eqn:Hj.
  - rewrite app_nil_r.
    destruct (Args.output args) as [[| c f] |]; try reflexivity.
    destruct (Env.open_w env (String c f)); reflexivity.
  - rewrite (dict_set_fresh _ _ _ (timestamp_fresh args env snap Hs)).
    destruct (Args.output args) as [[| c f] |].
    + destruct (text_report args env _) as [out r]. simpl in Hok. subst r.
      simpl. now rewrite app_nil_r.
    + destruct (Env.open_w env (String c f)); reflexivity.
    + destruct (text_report args env _) as [out r]. simpl in Hok. subst r.
      simpl. now rewrite app_nil_r.
Qed.

(** A collector that raises ends the run before anything is printed or
    written. *)
Lemma main_collect_fails (args : Args.t) (env : Env.t) (e : exn) :
  snapshot args env = Raise e -> main args env = ([], Raise e).
Proof.
  intros Hs. unfold main. rewrite collect_snapshot, Hs. reflexivity.
Qed.

Lemma main_completes (args : Args.t) (env : Env.t) (snap : dict) :
  snapshot args env = Ok snap ->
  opens args env ->
  main args env
  = (main_effects args env (with_timestamp args env snap),
     Ok (with_timestamp args env snap)).
Proof.
  intros Hs Ho. rewrite (main_after_collect _ _ _ Hs). unfold opens in Ho.
  destruct (Args.output args) as [[| c f] |]; try reflexivity.
  now rewrite Ho.
Qed.

(** A run that ends with results has gathered the snapshot, opened its
    output file if it has one, and done what [main_effects] says. *)
Lemma main_ok (args : Args.t) (env : Env.t) (out : list effect) (results : dict) :
  main args env = (out, Ok results) ->
  exists snap,
    snapshot args env = Ok snap
    /\ results = with_timestamp args env snap
    /\ out = main_effects args env results
    /\ opens args env.
Proof.
  intros H. destruct (snapshot args env) as [snap | e] eqn:Hs.
  - exists snap. split; [reflexivity |].
    rewrite (main_after_collect _ _ _ Hs) in H. unfold opens.
    destruct (Args.output args) as [[| c f] |];
      try (injection H as <- <-; auto).
    destruct (Env.open_w env (String c f)) as [[] |]; [| discriminate].
    injection H as <- <-. auto.
  - rewrite (main_collect_fails _ _ _ Hs) in H. discriminate.
Qed.

Lemma main_returns (args : Args.t) (env : Env.t) :
  collects args env -> opens args env ->
  exists out results, main args env = (out, Ok results).
Proof.
  intros Hc Ho. destruct (snapshot_returns _ _ Hc) as [snap Hs].
  rewrite (main_completes _ _ _ Hs Ho). eauto.
Qed.

(** ** The command line *)

Lemma existsb_perm {A : Type} (f : A -> bool) (l l' : list A) :
  Permutation l l' -> existsb f l = existsb f l'.
Proof.
  induction 1 as [| x l l' _ IH | x y l | l l' l'' _ IH1 _ IH2]; simpl.
  - reflexivity.
  - now rewrite IH.
  - destruct (f x), (f y); reflexivity.
  - now rewrite IH1.
Qed.

Lemma forallb_perm {A : Type} (f : A -> bool) (l l' : list A) :
  Permutation l l' -> forallb f l = forallb f l'.
Proof.
  induction 1 as [| x l l' _ IH | x y l | l l' l'' _ IH1 _ IH2]; simpl.
  - reflexivity.
  - now rewrite IH.
  - destruct (f x), (f y); reflexivity.
  - now rewrite IH1.
Qed.

Lemma parse_option_valid (a : Args.t) (o : cli_option) :
  valid_option o = true -> exists a', parse_option a o = Some a'.
Proof.
  destruct a, o; simpl; intros H; try discriminate; try (eexists; reflexivity).
  rewrite H. eexists; reflexivity.
Qed.

Lemma parse_option_Some (a a' : Args.t) (o : cli_option) :
  parse_option a o = Some a' -> valid_option o = true.
Proof.
  destruct a, o; simpl; try reflexivity; try discriminate.
  destruct (String.eqb choice "cpu" || String.eqb choice "memory");
    [reflexivity | discriminate].
Qed.

Lemma parse_args_valid (argv : list cli_option) (a : Args.t) :
  forallb valid_option argv = true <-> exists args, parse_args argv a = Some args.
Proof.
  revert a. induction argv as [| o argv IH]; intros a; simpl.
  - split; [eauto | reflexivity].
  - rewrite andb_true_iff. split.
    + intros [Ho Hv]. destruct (parse_option_valid a o Ho) as [a' ->].
      now apply IH.
    + intros [args H]. destruct (parse_option a o) as [a' |] eqn:E; [| discriminate].
      split; [eapply parse_option_Some; eauto | apply (IH a'); eauto].
Qed.

(** One option adds what it asks for to what the namespace holds. *)
Lemma parse_option_flags (a a' : Args.t) (o : cli_option) (key : string) :
  In key sections ->
  parse_option a o = Some a' ->
  (Args.all a' || section_flag a' key = Args.all a || section_flag a key || asks_for key o)
  /\ no_section_flag a' = no_section_flag a && negb (is_section_option o)
  /\ Args.json a' = Args.json a || is_json_option o.
Proof.
  intros Hk H.
  destruct a as [all system cpu memory disk network processes sort_by limit output json].
  unfold sections in Hk. simpl in Hk.
  destruct o; simpl in H; try discriminate;
    try (destruct (String.eqb choice "cpu" || String.eqb choice "memory");
         [| discriminate]);
    injection H as <-; unfold no_section_flag, section_flag; simpl;
    (split; [| split]);
    try (destruct all, system, cpu, memory, disk, network, processes, json; reflexivity);
    decompose [or] Hk; subst; try contradiction; simpl;
    destruct all, system, cpu, memory, disk, network, processes; reflexivity.
Qed.

Lemma parse_args_flags (argv : list cli_option) (a args : Args.t) (key : string) :
  In key sections ->
  parse_args argv a = Some args ->
  (Args.all args || section_flag args key
   = Args.all a || section_flag a key || existsb (asks_for key) argv)
  /\ no_section_flag args = no_section_flag a && negb (existsb is_section_option argv)
  /\ Args.json args = Args.json a || existsb is_json_option argv.
Proof.
  intros Hk. revert a. induction argv as [| o argv IH]; intros a H; simpl in *.
  - injection H as <-. now rewrite !orb_false_r, andb_true_r.
  - destruct (parse_option a o) as [a' |] eqn:E; [| discriminate].
    destruct (IH a' H) as (H1 & H2 & H3).
    destruct (parse_option_flags a a' o key Hk E) as (E1 & E2 & E3).
    rewrite H1, H2, H3, E1, E2, E3.
    rewrite negb_orb, !orb_assoc, !andb_assoc. auto.
Qed.

Lemma parsed_selected (argv : list cli_option) (args : Args.t) :
  parse_args argv default_args = Some args ->
  filter (selected args) sections = filter (requested argv) sections
  /\ Args.json args = existsb is_json_option argv.
Proof.
  intros H. split.
  - apply filter_ext_in. intros key Hk.
    destruct (parse_args_flags argv default_args args key Hk H) as (H1 & H2 & _).
    unfold selected, requested. rewrite H1, H2.
    unfold sections in Hk. simpl in Hk.
    decompose [or] Hk; subst; try contradiction; reflexivity.
  - destruct (parse_args_flags argv default_args args "system") as (_ & _ & H3);
      [now left | exact H | exact H3].
Qed.

Lemma with_timestamp_keys (args : Args.t) (env : Env.t) (snap : dict) :
  snapshot args env = Ok snap ->
  dict_keys (with_timestamp args env snap)
  = (filter (selected args) sections
     ++ (if Args.json args then [] else ["timestamp"]))%list.
Proof.
  intros Hs. unfold with_timestamp, dict_keys. rewrite map_app.
  fold (dict_keys snap). rewrite (snapshot_keys _ _ _ Hs).
  destruct (Args.json args); reflexivity.
Qed.

(** ** The driver *)

(** What a key of the results is bound to at the end of a run. *)
Lemma results_get (args : Args.t) (env : Env.t) (snap : dict) (key : string) :
  snapshot args env = Ok snap ->
  In key sections ->
  selected args key = true ->
  exists v,
    section_result args env key = Ok v
    /\ dict_get key (with_timestamp args env snap) = Some v.
Proof.
  intros Hs Hk Hsel. rewrite (with_timestamp_get _ _ _ _ Hk).
  pose proof (snapshot_get _ _ _ _ Hs Hk) as Hg. now rewrite Hsel in Hg.
Qed.

(** C3.  When no section flag is set, the snapshot a run ends with is
    the system section alone (followed, in text mode, by the timestamp,
    which is no section): of the six sections only [system] is a key of
    the result.  Such a run does end with a snapshot whenever its output
    file, if it names one, can be opened. *)
Theorem default_invocation_system_only (args : Args.t) (env : Env.t) :
  any [Args.all args; Args.system args; Args.cpu args; Args.memory args;
       Args.disk args; Args.network args; Args.processes args] = false ->
  (forall out results,
      main args env = (out, Ok results) ->
      results
      = (("system", get_system_info env)
         :: (if Args.json args then []
             else [("timestamp", VStr (Env.timestamp env))]))
      /\ (forall key, In key sections ->
            dict_mem key results = String.eqb key "system"))
  /\ (opens args env -> exists out results, main args env = (out, Ok results)).
Proof.
  intros Hany.
  assert (Hs : snapshot args env = Ok [("system", get_system_info env)]).
  { destruct args as [all system cpu memory disk network processes sort_by limit output json].
    cbn [Args.all Args.system Args.cpu Args.memory Args.disk Args.network
         Args.processes] in Hany.
    destruct all, system, cpu, memory, disk, network, processes; try discriminate.
    reflexivity. }
  split.
  - intros out results Hmain.
    destruct (main_ok _ _ _ _ Hmain) as (snap & Hs' & -> & _ & _).
    rewrite Hs in Hs'. injection Hs' as <-. split; [reflexivity |].
    intros key Hk. unfold sections in Hk. simpl in Hk. unfold with_timestamp.
    decompose [or] Hk; subst; try contradiction;
      destruct (Args.json args); reflexivity.
  - intros Ho. rewrite (main_completes _ _ _ Hs Ho). eauto.
Qed.

Lemma default_invocation_system_only_witness :
  exists out,
    main default_args sample_env
    = (out, Ok [("system", get_system_info sample_env);
                ("timestamp", VStr (Env.timestamp sample_env))]).
Proof.
  destruct (default_invocation_system_only default_args sample_env eq_refl)
    as [Hsnap Hruns].
  destruct (Hruns I) as (out & results & Hmain).
  exists out. destruct (Hsnap out results Hmain) as [-> _]. exact Hmain.
Defined.

(** C7.  With [--all] the snapshot a run ends with has the six sections,
    each bound to what its collector returns.  Such a run does end with
    a snapshot whenever the host name resolves, the sort accepts the
    process list and the output file, if one is named, can be opened. *)
Theorem all_flag_six_sections (args : Args.t) (env : Env.t) :
  Args.all args = true ->
  (forall out results,
      main args env = (out, Ok results) ->
      exists network processes,
        get_network_info env = Ok network
        /\ get_process_info (Env.process_iter env) (Args.sort_by args) (Args.limit args)
           = Ok processes
        /\ dict_keys results
           = (sections ++ (if Args.json args then [] else ["timestamp"]))%list
        /\ dict_get "system" results = Some (get_system_info env)
        /\ dict_get "cpu" results = Some (get_cpu_info env)
        /\ dict_get "memory" results = Some (get_memory_info env)
        /\ dict_get "disk" results = Some (VList (get_disk_info env))
        /\ dict_get "network" results = Some network
        /\ dict_get "processes" results = Some (VList (map process_value processes)))
  /\ (resolves env ->
      sortable (Args.sort_by args) (Env.process_iter env) ->
      opens args env ->
      exists out results, main args env = (out, Ok results)).
Proof.
  intros Hall. split.
  - intros out results Hmain.
    destruct (main_ok _ _ _ _ Hmain) as (snap & Hs & -> & _ & _).
    assert (Hsel : forall key, selected args key = true).
    { intros key. unfold selected. now rewrite Hall. }
    assert (Hget : forall key, In key sections ->
               exists v, section_result args env key = Ok v
                         /\ dict_get key (with_timestamp args env snap) = Some v).
    { intros key Hk. now apply results_get. }
    destruct (Hget "system") as (v1 & E1 & G1); [simpl; tauto |].
    destruct (Hget "cpu") as (v2 & E2 & G2); [simpl; tauto |].
    destruct (Hget "memory") as (v3 & E3 & G3); [simpl; tauto |].
    destruct (Hget "disk") as (v4 & E4 & G4); [simpl; tauto |].
    destruct (Hget "network") as (v5 & E5 & G5); [simpl; tauto |].
    destruct (Hget "processes") as (v6 & E6 & G6); [simpl; tauto |].
    cbn [section_result String.eqb Ascii.eqb Bool.eqb] in E1, E2, E3, E4, E5, E6.
    injection E1 as <-. injection E2 as <-. injection E3 as <-. injection E4 as <-.
    destruct (get_process_info _ _ _) as [processes |] eqn:Hp; [| discriminate].
    injection E6 as <-.
    exists v5, processes. split; [exact E5 |]. split; [reflexivity |].
    split.
    + rewrite (with_timestamp_keys _ _ _ Hs).
      f_equal. unfold sections. simpl. now rewrite !Hsel.
    + repeat split; assumption.
  - intros Hr Hp Ho. apply main_returns; [split; intros _; assumption | exact Ho].
Qed.

Lemma all_flag_six_sections_witness :
  exists out results,
    main all_args sample_env = (out, Ok results)
    /\ dict_keys results = sections.
Proof.
  destruct (all_flag_six_sections all_args sample_env eq_refl) as [Hsnap Hruns].
  destruct Hruns as (out & results & Hmain).
  - eexists. reflexivity.
  - right. repeat constructor; discriminate.
  - exact I.
  - exists out, results. split; [exact Hmain |].
    destruct (Hsnap out results Hmain) as (network & processes & _ & _ & Hkeys & _).
    rewrite Hkeys. apply app_nil_r.
Defined.

(** The output file of the parsed arguments is the default (none) or
    one the command line names. *)
Lemma parse_args_output (argv : list cli_option) (a args : Args.t) :
  parse_args argv a = Some args ->
  Args.output args = Args.output a
  \/ exists file, In (OptOutput file) argv /\ Args.output args = Some file.
Proof.
  revert a. induction argv as [| o argv IH]; intros a H; simpl in H.
  - injection H as <-. now left.
  - destruct (parse_option a o) as [a' |] eqn:E; [| discriminate].
    destruct (IH a' H) as [Hsame | (file & Hin & Hout)].
    + assert (Ho : Args.output a' = Args.output a
                   \/ exists file, o = OptOutput file /\ Args.output a' = Some file).
      { destruct a; destruct o; simpl in E; try discriminate;
          try (destruct (String.eqb choice "cpu" || String.eqb choice "memory");
               [| discriminate]);
          injection E as <-; simpl; eauto. }
      destruct Ho as [Ho | (file & -> & Ho)].
      * left. congruence.
      * right. exists file. split; [now left | congruence].
    + right. exists file. split; [now right | exact Hout].
Qed.

(** C10.  Whatever options the command line holds, the keys of the
    snapshot a run ends with are the requested sections in the order
    system, cpu, memory, disk, network, processes (then the timestamp in
    text mode), and a run of the same options in another order ends with
    the same keys.  Such runs do end with a snapshot when every option is
    accepted, the host name resolves, the sort accepts the process list
    and every output file named can be opened. *)
Theorem snapshot_keys_canonical_order (argv : list cli_option) (env : Env.t) :
  (forall out results,
      run argv env = Some (out, Ok results) ->
      dict_keys results
      = (filter (requested argv) sections
         ++ (if existsb is_json_option argv then [] else ["timestamp"]))%list
      /\ (forall argv' out' results',
            Permutation argv argv' ->
            run argv' env = Some (out', Ok results') ->
            dict_keys results' = dict_keys results))
  /\ (forallb valid_option argv = true ->
      resolves env ->
      (forall sort_by, sortable sort_by (Env.process_iter env)) ->
      (forall file, In (OptOutput file) argv -> Env.open_w env file = Ok tt) ->
      forall argv', Permutation argv argv' ->
        exists out results, run argv' env = Some (out, Ok results)).
Proof.
  assert (Hkeys : forall argv0 out results,
             run argv0 env = Some (out, Ok results) ->
             dict_keys results
             = (filter (requested argv0) sections
                ++ (if existsb is_json_option argv0 then [] else ["timestamp"]))%list).
  { intros argv0 out results Hrun. unfold run in Hrun.
    destruct (parse_args argv0 default_args) as [args |] eqn:Hp; [| discriminate].
    injection Hrun as Hmain.
    destruct (main_ok _ _ _ _ Hmain) as (snap & Hs & -> & _ & _).
    destruct (parsed_selected argv0 args Hp) as [Hsel Hjson].
    now rewrite (with_timestamp_keys _ _ _ Hs), Hsel, Hjson. }
  split.
  - intros out results Hrun. split; [now apply (Hkeys argv out) |].
    intros argv' out' results' Hperm Hrun'.
    rewrite (Hkeys _ _ _ Hrun), (Hkeys _ _ _ Hrun').
    rewrite <- (existsb_perm is_json_option _ _ Hperm). f_equal.
    apply filter_ext. intros key. unfold requested.
    now rewrite <- (existsb_perm (asks_for key) _ _ Hperm),
                <- (existsb_perm is_section_option _ _ Hperm).
  - intros Hv Hr Hsort Hopen argv' Hperm.
    rewrite (forallb_perm _ _ _ Hperm) in Hv.
    apply (parse_args_valid argv' default_args) in Hv. destruct Hv as [args Hp].
    unfold run. rewrite Hp.
    destruct (main_returns args env) as (out & results & Hmain).
    + split; intros _; [exact Hr | apply Hsort].
    + unfold opens.
      destruct (parse_args_output _ _ _ Hp) as [Ho | (file & Hin & Ho)].
      * rewrite Ho. exact I.
      * rewrite Ho. destruct file as [| c f]; [exact I |].
        apply Hopen. eapply Permutation_in; [symmetry; exact Hperm | exact Hin].
    + rewrite Hmain. eauto.
Qed.

Lemma snapshot_keys_canonical_order_witness :
  exists out results,
    run sample_argv sample_env = Some (out, Ok results)
    /\ dict_keys results = ["cpu"; "disk"; "processes"].
Proof.
  destruct (snapshot_keys_canonical_order sample_argv sample_env) as [Hkeys Hruns].
  destruct (Hruns eq_refl) with (argv' := sample_argv) as (out & results & Hrun).
  - eexists. reflexivity.
  - intros sort_by. right. unfold measured, metric.
    destruct (String.eqb sort_by "memory"); repeat constructor; discriminate.
  - intros file Hin. simpl in Hin.
    decompose [or] Hin; try discriminate; contradiction.
  - apply Permutation_refl.
  - exists out, results. split; [exact Hrun |].
    destruct (Hkeys out results Hrun) as [-> _]. reflexivity.
Defined.

(** The text [json.dumps] gives with four spaces per level, on a small
    nested value. *)
Example json_dumps_indent_four :
  let q s := String dquote (s ++ String dquote "") in
  json_dumps 4 (VDict [("disk", VList [VInt 1; VNone]); ("cpu", VDict [])])
  = "{" ++ nl
    ++ "    " ++ q "disk" ++ ": [" ++ nl
    ++ "        1," ++ nl
    ++ "        null" ++ nl
    ++ "    ]," ++ nl
    ++ "    " ++ q "cpu" ++ ": {}" ++ nl
    ++ "}".
Proof. vm_compute. reflexivity. Qed.

(** C2 (as stated, refuted).  With an output file and without [--json]
    the file does not hold the text report: it holds the JSON text of
    the results, which differs from what the text mode prints. *)
Lemma output_file_not_text_in_text_mode :
  exists results content,
    main text_file_args sample_env
    = ([WriteFile "report.txt" content; Print "Information saved to report.txt"],
       Ok results)
    /\ content = json_dumps 4 (VDict results)
    /\ content <> stdout_text (fst (text_report text_file_args sample_env results)).
Proof.
  eexists. eexists. split; [vm_compute; reflexivity |].
  split; [vm_compute; reflexivity |].
  vm_compute. discriminate.
Qed.

(** C2 (amended).  For every invocation with a non-empty output file
    name that runs to its end, the run writes that one file and its
    content is the JSON text of the combined results with 4-space
    indentation, whether or not [--json] is set; without [--json] the
    results written also carry the timestamp, and nothing but the
    confirmation line is printed.  The run does reach its end when the
    sections asked for can be collected and the file can be opened for
    writing.  Whatever a run writes to a file is that JSON text. *)
Theorem output_file_always_json
  (args : Args.t) (env : Env.t) (c : ascii) (f : string) :
  Args.output args = Some (String c f) ->
  (forall out results,
      main args env = (out, Ok results) ->
      out = [WriteFile (String c f) (json_dumps 4 (VDict results));
             Print ("Information saved to " ++ String c f)]
      /\ exists snap,
           snapshot args env = Ok snap
           /\ results
              = (snap ++ (if Args.json args then []
                          else [("timestamp", VStr (Env.timestamp env))]))%list)
  /\ (collects args env ->
      Env.open_w env (String c f) = Ok tt ->
      exists out results, main args env = (out, Ok results))
  /\ (forall filename content,
        In (WriteFile filename content) (fst (main args env)) ->
        filename = String c f
        /\ exists results,
             snd (main args env) = Ok results
             /\ content = json_dumps 4 (VDict results)).
Proof.
  intros Ho.
  assert (Hout : forall out results,
             main args env = (out, Ok results) ->
             out = [WriteFile (String c f) (json_dumps 4 (VDict results));
                    Print ("Information saved to " ++ String c f)]).
  { intros out results Hmain.
    destruct (main_ok _ _ _ _ Hmain) as (snap & _ & _ & -> & _).
    unfold main_effects. now rewrite Ho. }
  split; [| split].
  - intros out results Hmain. split; [now apply Hout |].
    destruct (main_ok _ _ _ _ Hmain) as (snap & Hs & -> & _ & _).
    exists snap. split; [exact Hs | reflexivity].
  - intros Hc Hopen. apply main_returns; [exact Hc |].
    unfold opens. now rewrite Ho.
  - intros filename content Hin.
    destruct (main args env) as [out [results | e]] eqn:Hmain; simpl in Hin.
    + rewrite (Hout _ _ eq_refl) in Hin. simpl in Hin.
      destruct Hin as [E | [E | []]]; [| discriminate].
      injection E as <- <-. split; [reflexivity |]. now exists results.
    + destruct (snapshot args env) as [snap | e'] eqn:Hs.
      * rewrite (main_after_collect _ _ _ Hs), Ho in Hmain.
        destruct (Env.open_w env (String c f)); [discriminate |].
        injection Hmain as <- _. destruct Hin.
      * rewrite (main_collect_fails _ _ _ Hs) in Hmain.
        injection Hmain as <- _. destruct Hin.
Qed.

Lemma output_file_always_json_witness :
  exists results,
    main json_file_args sample_env
    = ([WriteFile "top.json" (json_dumps 4 (VDict results));
        Print ("Information saved to " ++ "top.json")],
       Ok results)
    /\ dict_keys results = ["cpu"; "processes"].
Proof.
  destruct (output_file_always_json json_file_args sample_env "t"%char "op.json" eq_refl)
    as (Hjson & Hruns & _).
  destruct Hruns as (out & results & Hmain).
  - split; intros _; [eexists; reflexivity | right; repeat constructor; discriminate].
  - reflexivity.
  - exists results. destruct (Hjson out results Hmain) as (Hout & snap & Hs & Hr).
    split; [now rewrite <- Hout |].
    rewrite Hr. apply (with_timestamp_keys _ _ _ Hs).
Defined.

(** ** JSON round trip *)

(** *** Characters and blanks *)

Ltac each_char c := destruct c as [[] [] [] [] [] [] [] []].

Lemma skip_ws_spaces (n : nat) (s : string) :
  skip_ws (repeat_string " " n ++ s) = skip_ws s.
Proof. induction n as [| n IH]; simpl; [reflexivity | exact IH]. Qed.

Lemma skip_ws_newline_indent (indent level : nat) (s : string) :
  skip_ws (newline_indent indent level ++ s) = skip_ws s.
Proof.
  unfold newline_indent, nl. rewrite append_assoc. simpl.
  apply skip_ws_spaces.
Qed.

Lemma skip_ws_head (c : ascii) (s : string) :
  is_ws c = false -> skip_ws (String c s) = String c s.
Proof. intros H. simpl. now rewrite H. Qed.

Lemma ends_value_no_digit (rest : string) :
  ends_value rest = true -> no_digit_ahead rest = true.
Proof.
  destruct rest as [| c rest]; [reflexivity |]. simpl.
  each_char c; simpl; intros H; try discriminate; reflexivity.
Qed.

(** *** Digits *)

Lemma scan_digits_print (d : uint) (rest : string) :
  no_digit_ahead rest = true ->
  scan_digits (NilEmpty.string_of_uint d ++ rest) = (d, rest).
Proof.
  intros Hr. induction d as [| d IH | d IH | d IH | d IH | d IH | d IH | d IH
                            | d IH | d IH | d IH];
    try (cbn [NilEmpty.string_of_uint append scan_digits];
         change (is_digit _) with true; cbv iota; rewrite IH; reflexivity).
  simpl. destruct rest as [| c rest]; [reflexivity |].
  simpl in Hr. simpl. destruct (is_digit c); [discriminate | reflexivity].
Qed.

Lemma digits_head (d : uint) :
  d <> Nil ->
  exists c t, NilEmpty.string_of_uint d = String c t /\ is_digit c = true.
Proof.
  destruct d; [congruence | ..]; intros _; eexists; eexists; split;
    reflexivity.
Qed.

Lemma nzhead_no_zero (d y : uint) : nzhead d <> D0 y.
Proof. induction d; simpl; try discriminate. exact IHd. Qed.

Lemma unorm_zero (d y : uint) : unorm d = D0 y -> y = Nil.
Proof.
  unfold unorm. destruct (nzhead d) eqn:E; intros H; try discriminate.
  - now injection H.
  - exfalso. now apply (nzhead_no_zero d u).
Qed.

Lemma to_uint_canonical (n : N) : unorm (N.to_uint n) = N.to_uint n.
Proof.
  rewrite <- (DecimalN.Unsigned.of_to n) at 2.
  now rewrite DecimalN.Unsigned.to_of.
Qed.

(** The decimal text of a natural number is [0] or starts with another
    digit, and is read back whole. *)
Lemma scan_int_print (n : N) (rest : string) :
  no_digit_ahead rest = true ->
  scan_int (str_of_N n ++ rest) = Some (N.to_uint n, rest).
Proof.
  intros Hr. unfold str_of_N. pose proof (to_uint_canonical n) as Hc.
  destruct (N.to_uint n) as [| d | d | d | d | d | d | d | d | d | d] eqn:E;
    try (unfold scan_int; cbn [NilEmpty.string_of_uint append];
         change (Ascii.eqb _ "0") with false; change (is_digit _) with true;
         cbv iota;
         match goal with
         | |- context [scan_digits (String ?c (?t ++ rest))] =>
             change (String c (t ++ rest))
               with (NilEmpty.string_of_uint (digit (N_of_ascii c - 48) d) ++ rest)
         end;
         rewrite scan_digits_print by exact Hr; reflexivity).
  - discriminate.
  - simpl in Hc. apply unorm_zero in Hc. subst d. reflexivity.
Qed.

Lemma str_of_N_head (n : N) :
  exists c t, str_of_N n = String c t /\ is_digit c = true.
Proof.
  apply digits_head. intros E. pose proof (to_uint_canonical n) as Hc.
  rewrite E in Hc. discriminate.
Qed.

(** *** Numbers *)

Lemma scan_frac_end (rest : string) :
  ends_value rest = true -> scan_frac rest = (Nil, rest).
Proof.
  destruct rest as [| c [| c' rest]]; try reflexivity.
  simpl. each_char c; simpl; intros H; try discriminate; reflexivity.
Qed.

Lemma scan_exp_end (rest : string) :
  ends_value rest = true -> scan_exp rest = (None, rest).
Proof.
  destruct rest as [| c [| c' rest]]; try reflexivity.
  simpl. each_char c; simpl; intros H; try discriminate; reflexivity.
Qed.

Lemma scan_exp_print (e : option (bool * uint)) (rest : string) :
  wf_exp e = true -> ends_value rest = true ->
  scan_exp (exp_text e ++ rest) = (e, rest).
Proof.
  intros He Hr. destruct e as [[s d] |]; [| now apply scan_exp_end].
  assert (Hd : d <> Nil) by (intros ->; discriminate).
  destruct (digits_head d Hd) as (c & t & Ht & Hc).
  pose proof (scan_digits_print d rest (ends_value_no_digit _ Hr)) as Hs.
  unfold exp_text. rewrite Ht in *.
  cbn [append] in Hs.
  destruct s; cbn [append scan_exp]; rewrite Hc, Hs; reflexivity.
Qed.

Lemma exp_text_no_digit (e : option (bool * uint)) (rest : string) :
  ends_value rest = true -> no_digit_ahead (exp_text e ++ rest) = true.
Proof.
  intros Hr. destruct e as [[s d] |]; [reflexivity |].
  now apply ends_value_no_digit.
Qed.

Lemma scan_frac_print (frac : uint) (e : option (bool * uint)) (rest : string) :
  ends_value rest = true ->
  scan_frac (frac_text frac ++ exp_text e ++ rest) = (frac, exp_text e ++ rest).
Proof.
  intros Hr.
  assert (Hframe : forall d, d <> Nil ->
            scan_frac ("." ++ NilEmpty.string_of_uint d ++ exp_text e ++ rest)
            = (d, exp_text e ++ rest)).
  { intros d Hd. destruct (digits_head d Hd) as (c & t & Ht & Hc).
    pose proof (scan_digits_print d _ (exp_text_no_digit e rest Hr)) as Hs.
    rewrite Ht in *. cbn [append] in Hs. cbn [append scan_frac].
    rewrite Hc. exact Hs. }
  destruct frac;
    try (unfold frac_text; rewrite append_assoc; apply Hframe; discriminate).
  unfold frac_text. cbn [append].
  destruct e as [[[] d] |]; [reflexivity | reflexivity | now apply scan_frac_end].
Qed.

Lemma frac_text_no_digit (frac : uint) (e : option (bool * uint)) (rest : string) :
  ends_value rest = true ->
  no_digit_ahead (frac_text frac ++ exp_text e ++ rest) = true.
Proof.
  intros Hr. destruct frac; try reflexivity.
  now apply exp_text_no_digit.
Qed.

(** The unsigned part of a number, read back. *)
Lemma scan_unsigned (n : N) (frac : uint) (e : option (bool * uint)) (rest : string) :
  wf_exp e = true -> ends_value rest = true ->
  match scan_int (str_of_N n ++ frac_text frac ++ exp_text e ++ rest) with
  | None => None
  | Some (d, s1) =>
      let (frac', s2) := scan_frac s1 in
      let (e', s3) := scan_exp s2 in
      Some (N.of_uint d, frac', e', s3)
  end = Some (n, frac, e, rest).
Proof.
  intros He Hr.
  rewrite scan_int_print by (now apply frac_text_no_digit).
  rewrite scan_frac_print by exact Hr.
  rewrite scan_exp_print by assumption.
  now rewrite DecimalN.Unsigned.of_to.
Qed.

Lemma parse_number_unsigned (s : string) :
  (exists c t, s = String c t /\ is_digit c = true) ->
  parse_number s
  = match scan_int s with
    | None => None
    | Some (d, s1) =>
        let (frac, s2) := scan_frac s1 in
        let (e, s3) := scan_exp s2 in
        match frac, e with
        | Nil, None => Some (VInt (Z.of_N (N.of_uint d)), s3)
        | _, _ => Some (VFloat (mkfloat false (N.of_uint d) frac e), s3)
        end
    end.
Proof.
  intros (c & t & -> & Hc). revert Hc.
  each_char c; intros Hc; try discriminate Hc; reflexivity.
Qed.

(** A number text is read back: sign, digits, fraction, exponent. *)
Lemma parse_number_text (neg : bool) (n : N) (frac : uint)
  (e : option (bool * uint)) (rest : string) :
  wf_exp e = true -> ends_value rest = true ->
  parse_number ((if neg then "-" else "")
                ++ str_of_N n ++ frac_text frac ++ exp_text e ++ rest)
  = Some (match frac, e with
          | Nil, None => VInt (if neg then - Z.of_N n else Z.of_N n)
          | _, _ => VFloat (mkfloat neg n frac e)
          end, rest).
Proof.
  intros He Hr. destruct neg.
  - cbn [append]. unfold parse_number.
    change (Ascii.eqb "-" "-") with true. cbv iota.
    rewrite scan_int_print by (now apply frac_text_no_digit).
    rewrite scan_frac_print by exact Hr.
    rewrite scan_exp_print by assumption.
    rewrite DecimalN.Unsigned.of_to. destruct frac, e; reflexivity.
  - cbn [append]. rewrite parse_number_unsigned.
    + rewrite scan_int_print by (now apply frac_text_no_digit).
      rewrite scan_frac_print by exact Hr.
      rewrite scan_exp_print by assumption.
      rewrite DecimalN.Unsigned.of_to. destruct frac, e; reflexivity.
    + destruct (str_of_N_head n) as (c & t & Ht & Hc).
      exists c, (t ++ frac_text frac ++ exp_text e ++ rest).
      rewrite Ht. split; [reflexivity | exact Hc].
Qed.

Lemma parse_number_int (z : Z) (rest : string) :
  ends_value rest = true ->
  parse_number (str_of_Z z ++ rest) = Some (VInt z, rest).
Proof.
  intros Hr. unfold str_of_Z. rewrite append_assoc.
  pose proof (parse_number_text (z <? 0) (Z.abs_N z) Nil None rest eq_refl Hr) as H.
  cbn [frac_text exp_text append] in H. rewrite H. f_equal. f_equal. f_equal.
  rewrite N2Z.inj_abs_N. destruct (z <? 0) eqn:E.
  - apply Z.ltb_lt in E. lia.
  - apply Z.ltb_ge in E. lia.
Qed.

Lemma parse_number_float (f : pyfloat) (rest : string) :
  wf_float f = true -> ends_value rest = true ->
  parse_number (float_repr f ++ rest) = Some (VFloat f, rest).
Proof.
  intros Hf Hr. destruct f as [neg n frac e]. unfold float_repr, wf_float in *.
  cbn [f_neg f_int f_frac f_exp] in *.
  rewrite !append_assoc.
  rewrite parse_number_text; [| destruct frac, e; try discriminate; exact Hf | exact Hr].
  destruct frac, e; try discriminate; reflexivity.
Qed.

(** *** Strings *)

Lemma json_char_scan (c : ascii) (tail : string) :
  scan_string (json_char c ++ tail) = cons_char c (scan_string tail).
Proof. each_char c; reflexivity. Qed.

Lemma scan_string_json (s rest : string) :
  scan_string (concat_map json_char s ++ String dquote rest) = Some (s, rest).
Proof.
  induction s as [| c s IH].
  - reflexivity.
  - cbn [concat_map]. rewrite append_assoc, json_char_scan, IH. reflexivity.
Qed.

Lemma json_string_append (s rest : string) :
  json_string s ++ rest
  = String dquote (concat_map json_char s ++ String dquote rest).
Proof. unfold json_string. cbn [append]. now rewrite append_assoc. Qed.

(** *** Values *)

Lemma digit_plain (c : ascii) :
  is_digit c = true -> is_ws c = false /\ Ascii.eqb c "]" = false.
Proof. each_char c; intros H; try discriminate H; split; reflexivity. Qed.

(** The text of a value starts with a character that is neither a blank
    nor a closing bracket. *)
Lemma json_encode_head (indent level : nat) (v : value) :
  exists c t, json_encode indent level v = String c t
              /\ is_ws c = false /\ Ascii.eqb c "]" = false.
Proof.
  destruct v as [| [] | z | f | s | l | d]; cbn [json_encode].
  - do 2 eexists. repeat split; reflexivity.
  - do 2 eexists. repeat split; reflexivity.
  - do 2 eexists. repeat split; reflexivity.
  - unfold str_of_Z. destruct (z <? 0).
    + do 2 eexists. repeat split; reflexivity.
    + destruct (str_of_N_head (Z.abs_N z)) as (c & t & -> & Hc).
      exists c, t. split; [reflexivity | now apply digit_plain].
  - unfold float_repr. destruct (f_neg f).
    + do 2 eexists. repeat split; reflexivity.
    + destruct (str_of_N_head (f_int f)) as (c & t & -> & Hc).
      do 2 eexists. split; [reflexivity | now apply digit_plain].
  - do 2 eexists. repeat split; reflexivity.
  - destruct l; do 2 eexists; repeat split; reflexivity.
  - destruct d; do 2 eexists; repeat split; reflexivity.
Qed.

Lemma parse_value_number (fuel : nat) (s : string) :
  (exists c t, s = String c t /\ (Ascii.eqb c "-" || is_digit c = true)) ->
  parse_value (S fuel) s = parse_number s.
Proof.
  intros (c & t & -> & Hc). revert Hc.
  each_char c; intros Hc; try discriminate Hc; reflexivity.
Qed.

Lemma parse_value_string (fuel : nat) (s : string) :
  parse_value (S fuel) (String dquote s)
  = match scan_string s with
    | Some (str, r) => Some (VStr str, r)
    | None => None
    end.
Proof. reflexivity. Qed.

Lemma parse_value_array (fuel : nat) (s : string) :
  parse_value (S fuel) (String "[" s)
  = match skip_ws s with
    | EmptyString => None
    | String c' rest' =>
        if Ascii.eqb c' "]"%char then Some (VList [], rest')
        else match parse_elements fuel (String c' rest') with
             | Some (items, r) => Some (VList items, r)
             | None => None
             end
    end.
Proof. reflexivity. Qed.

Lemma parse_value_object (fuel : nat) (s : string) :
  parse_value (S fuel) (String "{" s)
  = match skip_ws s with
    | EmptyString => None
    | String c' rest' =>
        if Ascii.eqb c' "}"%char then Some (VDict [], rest')
        else match parse_members fuel (String c' rest') with
             | Some (pairs, r) => Some (VDict (build_dict pairs), r)
             | None => None
             end
    end.
Proof. reflexivity. Qed.

Lemma parse_elements_step (fuel : nat) (s : string) :
  parse_elements (S fuel) s
  = match parse_value fuel s with
    | None => None
    | Some (v, r) =>
        match skip_ws r with
        | EmptyString => None
        | String c r' =>
            if Ascii.eqb c ","%char then
              match parse_elements fuel (skip_ws r') with
              | Some (items, r'') => Some (v :: items, r'')
              | None => None
              end
            else if Ascii.eqb c "]"%char then Some ([v], r')
            else None
        end
    end.
Proof. reflexivity. Qed.

Lemma parse_members_step (fuel : nat) (s : string) :
  parse_members (S fuel) (String dquote s)
  = match scan_string s with
    | None => None
    | Some (key, s2) =>
        match skip_ws s2 with
        | EmptyString => None
        | String colon s3 =>
            if Ascii.eqb colon ":"%char then
              match parse_value fuel (skip_ws s3) with
              | None => None
              | Some (v, r) =>
                  match skip_ws r with
                  | EmptyString => None
                  | String c r' =>
                      if Ascii.eqb c ","%char then
                        match parse_members fuel (skip_ws r') with
                        | Some (pairs, r'') => Some ((key, v) :: pairs, r'')
                        | None => None
                        end
                      else if Ascii.eqb c "}"%char then Some ([(key, v)], r')
                      else None
                  end
              end
            else None
        end
    end.
Proof. reflexivity. Qed.

Lemma newline_indent_length (indent level : nat) :
  String.length (newline_indent indent level) = S (indent * level).
Proof.
  unfold newline_indent, nl. cbn [append String.length].
  now rewrite length_repeat_space.
Qed.

Lemma newline_indent_ends (indent level : nat) (s : string) :
  ends_value (newline_indent indent level ++ s) = true.
Proof. reflexivity. Qed.

Lemma skip_ws_encode (indent level : nat) (v : value) (s : string) :
  skip_ws (json_encode indent level v ++ s) = json_encode indent level v ++ s.
Proof.
  destruct (json_encode_head indent level v) as (c & t & -> & Hw & _).
  cbn [append]. now apply skip_ws_head.
Qed.

Lemma join_two (sep x y : string) (l : list string) :
  join sep (x :: y :: l) = x ++ sep ++ join sep (y :: l).
Proof. reflexivity. Qed.

Lemma parse_elements_encode (indent level : nat) (l : list value) (rest : string) :
  l <> [] ->
  Forall (reads_back indent) l ->
  forallb wf_value l = true ->
  forall fuel,
    (String.length (join ("," ++ newline_indent indent (S level))
                         (map (json_encode indent (S level)) l)) + 2 <= fuel)%nat ->
    parse_elements fuel
      (join ("," ++ newline_indent indent (S level))
            (map (json_encode indent (S level)) l)
       ++ newline_indent indent level ++ "]" ++ rest)
    = Some (l, rest).
Proof.
  intros Hne Hall. induction Hall as [| x l Hx Hl IH]; [congruence |].
  intros Hwf fuel Hfuel. clear Hne.
  cbn [forallb] in Hwf. apply andb_true_iff in Hwf. destruct Hwf as [Hwx Hwl].
  destruct fuel as [| [| fuel]]; try lia.
  rewrite parse_elements_step. destruct l as [| y l].
  - cbn [map join] in *.
    rewrite (Hx Hwx (S level) _ fuel (newline_indent_ends _ _ _)) by lia.
    rewrite skip_ws_newline_indent. reflexivity.
  - cbn [map] in *. rewrite join_two in *. rewrite !append_assoc.
    rewrite !length_append, newline_indent_length in Hfuel.
    cbn [String.length] in Hfuel.
    rewrite (Hx Hwx (S level) _ fuel) by (reflexivity || lia).
    cbn [append skip_ws is_ws Ascii.eqb Bool.eqb orb].
    change (Ascii.eqb "," ",") with true. cbv iota.
    rewrite skip_ws_newline_indent.
    assert (Hskip : forall tail,
              skip_ws (join ("," ++ newline_indent indent (S level))
                         (json_encode indent (S level) y
                          :: map (json_encode indent (S level)) l) ++ tail)
              = join ("," ++ newline_indent indent (S level))
                  (json_encode indent (S level) y
                   :: map (json_encode indent (S level)) l) ++ tail).
    { intros tail. destruct l as [| z l].
      - cbn [map join]. apply skip_ws_encode.
      - cbn [map]. rewrite join_two, append_assoc. apply skip_ws_encode. }
    rewrite Hskip. change (String "]" rest) with ("]" ++ rest).
    rewrite IH; [reflexivity | discriminate | exact Hwl | lia].
Qed.

Lemma json_string_length (s : string) : (2 <= String.length (json_string s))%nat.
Proof.
  unfold json_string. cbn [String.length]. rewrite length_append.
  cbn [String.length]. lia.
Qed.

Lemma member_text_head (indent level : nat) (kv : string * value) (tail : string) :
  member_text indent level kv ++ tail
  = String dquote (concat_map json_char (fst kv)
                   ++ String dquote (": " ++ json_encode indent (S level) (snd kv) ++ tail)).
Proof.
  destruct kv as [k v]. unfold member_text. cbn [fst snd].
  rewrite append_assoc, json_string_append, append_assoc. reflexivity.
Qed.

Lemma parse_members_encode (indent level : nat) (d : dict) (rest : string) :
  d <> [] ->
  Forall (fun kv => reads_back indent (snd kv)) d ->
  forallb (fun kv => wf_value (snd kv)) d = true ->
  forall fuel,
    (String.length (join ("," ++ newline_indent indent (S level))
                         (map (member_text indent level) d)) + 2 <= fuel)%nat ->
    parse_members fuel
      (join ("," ++ newline_indent indent (S level))
            (map (member_text indent level) d)
       ++ newline_indent indent level ++ "}" ++ rest)
    = Some (d, rest).
Proof.
  intros Hne Hall. induction Hall as [| [k v] d Hx Hl IH]; [congruence |].
  intros Hwf fuel Hfuel. clear Hne.
  cbn [forallb snd] in Hwf. apply andb_true_iff in Hwf. destruct Hwf as [Hwx Hwl].
  cbn [snd] in Hx.
  destruct fuel as [| [| fuel]]; try lia.
  pose proof (json_string_length k) as Hk.
  destruct d as [| kv' d].
  - cbn [map join] in *. rewrite member_text_head. cbn [fst snd].
    unfold member_text in Hfuel. rewrite !length_append in Hfuel.
    cbn [String.length] in Hfuel.
    rewrite parse_members_step, scan_string_json.
    cbn [append skip_ws is_ws Ascii.eqb Bool.eqb orb]. cbv iota.
    rewrite skip_ws_encode.
    rewrite (Hx Hwx (S level) _ fuel (newline_indent_ends _ _ _)) by lia.
    rewrite skip_ws_newline_indent. reflexivity.
  - cbn [map] in *. rewrite join_two in *. rewrite append_assoc.
    rewrite member_text_head. cbn [fst snd].
    rewrite !length_append, newline_indent_length in Hfuel.
    unfold member_text at 1 in Hfuel. rewrite !length_append in Hfuel.
    cbn [String.length] in Hfuel.
    rewrite parse_members_step, scan_string_json.
    cbn [append skip_ws is_ws Ascii.eqb Bool.eqb orb]. cbv iota.
    rewrite skip_ws_encode. rewrite !append_assoc.
    rewrite (Hx Hwx (S level) _ fuel) by (reflexivity || lia).
    cbn [append skip_ws is_ws Ascii.eqb Bool.eqb orb].
    change (Ascii.eqb "," ",") with true. cbv iota.
    rewrite skip_ws_newline_indent.
    assert (Hskip : forall tail,
              skip_ws (join ("," ++ newline_indent indent (S level))
                         (member_text indent level kv'
                          :: map (member_text indent level) d) ++ tail)
              = join ("," ++ newline_indent indent (S level))
                  (member_text indent level kv'
                   :: map (member_text indent level) d) ++ tail).
    { intros tail. destruct d as [| z d].
      - cbn [map join]. now rewrite member_text_head.
      - cbn [map]. rewrite join_two, append_assoc.
        now rewrite member_text_head. }
    rewrite Hskip. change (String "}" rest) with ("}" ++ rest).
    rewrite IH; [reflexivity | discriminate | exact Hwl | lia].
Qed.

Lemma distinct_NoDup (keys : list string) : distinct keys = true -> NoDup keys.
Proof.
  induction keys as [| k keys IH]; simpl; intros H; constructor.
  - apply andb_true_iff in H. destruct H as [H _].
    intros Hin. apply set_mem_In in Hin. unfold set_mem in Hin.
    rewrite Hin in H. discriminate.
  - apply IH. apply andb_true_iff in H. tauto.
Qed.

Lemma build_dict_from (pairs acc : dict) :
  NoDup (dict_keys (acc ++ pairs)%list) ->
  fold_left (fun d kv => dict_set (fst kv) (snd kv) d) pairs acc = (acc ++ pairs)%list.
Proof.
  revert acc. induction pairs as [| [k v] pairs IH]; intros acc Hnd; simpl.
  - now rewrite app_nil_r.
  - rewrite dict_set_fresh.
    + rewrite IH; rewrite <- app_assoc; [reflexivity | exact Hnd].
    + unfold dict_keys in *. rewrite map_app in Hnd. simpl in Hnd.
      apply NoDup_remove_2 in Hnd. intros Hin. apply Hnd.
      apply in_or_app. now left.
Qed.

Lemma build_dict_distinct (d : dict) :
  distinct (map fst d) = true -> build_dict d = d.
Proof.
  intros H. unfold build_dict. rewrite build_dict_from; [reflexivity |].
  now apply distinct_NoDup.
Qed.

Lemma join_head (sep : string) (texts : list string) (tail : string) (c : ascii) (t : string) :
  match texts with
  | [] => False
  | first :: _ => exists t', first = String c t'
  end ->
  exists t', join sep texts ++ tail = String c t'.
Proof.
  destruct texts as [| first [| second texts]]; [tauto | |];
    intros (t' & ->); eexists; reflexivity.
Qed.

(** Every value is read back from its text. *)
Lemma json_encode_reads_back (indent : nat) (v : value) : reads_back indent v.
Proof.
  induction v as [| b | z | f | s | l IH | d IH] using value_induction;
    intros Hwf level rest fuel Hr Hfuel.
  - reflexivity.
  - destruct b; reflexivity.
  - cbn [json_encode]. rewrite parse_value_number.
    + now apply parse_number_int.
    + unfold str_of_Z. destruct (z <? 0).
      * do 2 eexists. split; reflexivity.
      * destruct (str_of_N_head (Z.abs_N z)) as (c & t & -> & Hc).
        exists c, (t ++ rest). split; [reflexivity |]. rewrite Hc. apply orb_true_r.
  - cbn [json_encode]. rewrite parse_value_number.
    + now apply parse_number_float.
    + unfold float_repr. destruct (f_neg f).
      * do 2 eexists. split; reflexivity.
      * destruct (str_of_N_head (f_int f)) as (c & t & -> & Hc).
        do 2 eexists. split; [reflexivity |]. rewrite Hc. apply orb_true_r.
  - cbn [json_encode]. rewrite json_string_append, parse_value_string.
    now rewrite scan_string_json.
  - destruct l as [| x l]; [reflexivity |].
    cbn [wf_value] in Hwf.
    assert (Htext : json_encode indent level (VList (x :: l))
                    = "[" ++ newline_indent indent (S level)
                      ++ join ("," ++ newline_indent indent (S level))
                              (map (json_encode indent (S level)) (x :: l))
                      ++ newline_indent indent level ++ "]") by reflexivity.
    rewrite Htext in *. clear Htext.
    rewrite !length_append, !newline_indent_length in Hfuel.
    cbn [String.length] in Hfuel.
    rewrite !append_assoc. cbn [append].
    change (String "," (newline_indent indent (S level)))
      with ("," ++ newline_indent indent (S level)).
    rewrite parse_value_array.
    rewrite skip_ws_newline_indent.
    destruct (json_encode_head indent (S level) x) as (c & t & Hx & Hw & Hb).
    destruct (join_head ("," ++ newline_indent indent (S level))
                (map (json_encode indent (S level)) (x :: l))
                (newline_indent indent level ++ String "]" rest) c t) as (t' & Ht').
    { cbn [map]. now exists t. }
    rewrite Ht'. rewrite (skip_ws_head _ _ Hw). rewrite Hb. rewrite <- Ht'.
    change (String "]" rest) with ("]" ++ rest).
    rewrite (parse_elements_encode indent level (x :: l) rest);
      [reflexivity | discriminate | exact IH | exact Hwf | lia].
  - destruct d as [| kv d]; [reflexivity |].
    cbn [wf_value] in Hwf. apply andb_true_iff in Hwf. destruct Hwf as [Hkeys Hwf].
    assert (Htext : json_encode indent level (VDict (kv :: d))
                    = "{" ++ newline_indent indent (S level)
                      ++ join ("," ++ newline_indent indent (S level))
                              (map (member_text indent level) (kv :: d))
                      ++ newline_indent indent level ++ "}") by reflexivity.
    rewrite Htext in *. clear Htext.
    rewrite !length_append, !newline_indent_length in Hfuel.
    cbn [String.length] in Hfuel.
    rewrite !append_assoc. cbn [append].
    change (String "," (newline_indent indent (S level)))
      with ("," ++ newline_indent indent (S level)).
    rewrite parse_value_object.
    rewrite skip_ws_newline_indent.
    destruct (join_head ("," ++ newline_indent indent (S level))
                (map (member_text indent level) (kv :: d))
                (newline_indent indent level ++ String "}" rest) dquote
                (concat_map json_char (fst kv)
                 ++ String dquote (": " ++ json_encode indent (S level) (snd kv))))
      as (t' & Ht').
    { cbn [map]. eexists. rewrite <- (append_nil_r (member_text indent level kv)).
      rewrite member_text_head. now rewrite append_nil_r. }
    rewrite Ht'. rewrite (skip_ws_head dquote t' eq_refl).
    change (Ascii.eqb dquote "}") with false. cbv iota. rewrite <- Ht'.
    change (String "}" rest) with ("}" ++ rest).
    rewrite (parse_members_encode indent level (kv :: d) rest);
      [| discriminate | exact IH | exact Hwf | lia].
    now rewrite build_dict_distinct.
Qed.

(** [json.loads(json.dumps(v, indent=n))] is [v]. *)
Lemma json_loads_dumps (indent : nat) (v : value) :
  wf_value v = true -> json_loads (json_dumps indent v) = Some v.
Proof.
  intros Hwf. unfold json_loads, json_dumps.
  rewrite <- (append_nil_r (json_encode indent 0 v)) at 2.
  rewrite skip_ws_encode.
  rewrite (json_encode_reads_back indent v Hwf 0%nat "" _ eq_refl) by lia.
  reflexivity.
Qed.

(** *** The snapshots of [main] are well formed *)

Lemma NoDup_distinct (keys : list string) : NoDup keys -> distinct keys = true.
Proof.
  induction 1 as [| k keys Hk _ IH]; simpl; [reflexivity |].
  rewrite IH, andb_true_r. apply negb_true_iff, not_true_is_false.
  intros H. apply Hk. now apply set_mem_In.
Qed.

Lemma dict_set_keys (k : string) (v : value) (d : dict) :
  dict_keys (dict_set k v d)
  = if dict_mem k d then dict_keys d else (dict_keys d ++ [k])%list.
Proof.
  unfold dict_mem. induction d as [| [k' v'] d IH]; simpl; [reflexivity |].
  destruct (String.eqb k k') eqn:E.
  - apply String.eqb_eq in E. now subst.
  - simpl. rewrite IH. now destruct (dict_get k d).
Qed.

Lemma dict_set_NoDup (k : string) (v : value) (d : dict) :
  NoDup (dict_keys d) -> NoDup (dict_keys (dict_set k v d)).
Proof.
  intros H. rewrite dict_set_keys. destruct (dict_mem k d) eqn:E; [exact H |].
  apply NoDup_app; [exact H | constructor; [intros [] | constructor] |].
  intros x Hx [<- | []]. apply dict_mem_In in Hx. congruence.
Qed.

Lemma dict_set_values (P : value -> bool) (k : string) (v : value) (d : dict) :
  P v = true -> forallb (fun kv => P (snd kv)) d = true ->
  forallb (fun kv => P (snd kv)) (dict_set k v d) = true.
Proof.
  intros Hv. induction d as [| [k' v'] d IH]; simpl.
  - now rewrite Hv.
  - intros H. apply andb_true_iff in H. destruct H as [H1 H2].
    destruct (String.eqb k k'); simpl.
    + now rewrite Hv.
    + now rewrite H1, IH.
Qed.

Lemma interfaces_wf (counters : list (string * snetio.t)) (d : dict) :
  wf_value (VDict d) = true ->
  wf_value (VDict (fold_left (fun d kv => dict_set (fst kv) (interface_entry (snd kv)) d)
                             counters d)) = true.
Proof.
  revert d. induction counters as [| [k stats] counters IH]; intros d H; simpl fold_left.
  - exact H.
  - apply IH. cbn [wf_value] in *. apply andb_true_iff in H. destruct H as [H1 H2].
    apply andb_true_iff. split.
    + apply NoDup_distinct. apply (dict_set_NoDup k). now apply distinct_NoDup.
    + now apply dict_set_values.
Qed.

Lemma process_value_wf (p : ProcessEntry) :
  wf_process p = true -> wf_value (process_value p) = true.
Proof.
  unfold wf_process, wf_opt_float. intros H.
  apply andb_true_iff in H. destruct H as [H1 H2].
  destruct p as [i n u m c]. cbn in *.
  destruct n, u, m, c; cbn; rewrite ?H1, ?H2; reflexivity.
Qed.

Lemma section_result_wf (args : Args.t) (env : Env.t) (key : string) (v : value) :
  wf_env env = true -> section_result args env key = Ok v -> wf_value v = true.
Proof.
  intros Henv. unfold wf_env in Henv. apply andb_true_iff in Henv.
  destruct Henv as [Hfreq Hprocs]. unfold section_result.
  repeat match goal with
         | |- context [if String.eqb ?a ?b then _ else _] => destruct (String.eqb a b)
         end.
  - intros H. injection H as <-. reflexivity.
  - intros H. injection H as <-.
    unfold get_cpu_info. destruct (Env.cpu_freq env) as [f |].
    + apply andb_true_iff in Hfreq. destruct Hfreq as [H1 H2].
      cbn [wf_value map fst snd forallb distinct existsb].
      rewrite H1, H2. destruct (Env.cpu_count_physical env), (Env.cpu_count_logical env);
        cbn; try reflexivity;
        induction (Env.cpu_percent_percpu env); cbn; auto.
    + destruct (Env.cpu_count_physical env), (Env.cpu_count_logical env);
        cbn; try reflexivity;
        induction (Env.cpu_percent_percpu env); cbn; auto.
  - intros H. injection H as <-. reflexivity.
  - intros H. injection H as <-.
    cbn [wf_value]. apply forallb_forall. intros v Hv.
    destruct (disk_entries_shape env v Hv) as (p & u & ->). reflexivity.
  - unfold get_network_info.
    destruct (Env.gethostbyname env (Env.gethostname env)) as [ip |]; [| discriminate].
    intros H. injection H as <-.
    pose proof (interfaces_wf (Env.net_io_counters env) [] eq_refl) as H.
    cbn [wf_value map fst snd forallb distinct existsb] in *.
    cbn. now rewrite H.
  - destruct (get_process_info _ _ _) as [processes |] eqn:Hg; [| discriminate].
    intros H. injection H as <-.
    cbn [wf_value]. apply forallb_forall. intros v Hv.
    apply in_map_iff in Hv. destruct Hv as (p & <- & Hp).
    destruct (get_process_info_ok _ _ _ _ Hg) as (sorted & Hs & ->).
    apply slice_to_incl in Hp.
    destruct (list_sort_ok _ _ _ Hs) as (Hperm & _).
    apply (Permutation_in _ Hperm) in Hp.
    apply process_value_wf. rewrite forallb_forall in Hprocs. now apply Hprocs.
Qed.

(** The results a run ends with are values Python can hold. *)
Lemma results_wf (args : Args.t) (env : Env.t) (snap : dict) :
  wf_env env = true ->
  snapshot args env = Ok snap ->
  wf_value (VDict (with_timestamp args env snap)) = true.
Proof.
  intros Henv Hs. cbn [wf_value]. apply andb_true_iff. split.
  - fold (dict_keys (with_timestamp args env snap)).
    rewrite (with_timestamp_keys _ _ _ Hs).
    unfold sections. cbn [filter].
    destruct (selected args "system"), (selected args "cpu"),
      (selected args "memory"), (selected args "disk"),
      (selected args "network"), (selected args "processes"),
      (Args.json args); reflexivity.
  - unfold with_timestamp. rewrite forallb_app. apply andb_true_iff. split.
    + apply forallb_forall. intros [key v] Hkv.
      destruct (snapshot_In _ _ _ _ _ Hs Hkv) as (_ & _ & Hv).
      simpl. eapply section_result_wf; eassumption.
    + now destruct (Args.json args).
Qed.

(** Whenever a run emits JSON (with [--json], or into an output file),
    the text it prints or writes is read back as the snapshot the run
    ends with. *)
Lemma main_json_round_trip (args : Args.t) (env : Env.t)
  (out : list effect) (results : dict) :
  Args.json args = true \/ (exists c f, Args.output args = Some (String c f)) ->
  wf_env env = true ->
  main args env = (out, Ok results) ->
  exists text,
    (out = [Print text]
     \/ exists filename,
          out = [WriteFile filename text; Print ("Information saved to " ++ filename)])
    /\ json_loads text = Some (VDict results).
Proof.
  intros Hj Henv Hmain.
  destruct (main_ok _ _ _ _ Hmain) as (snap & Hs & -> & -> & _).
  exists (json_dumps 4 (VDict (with_timestamp args env snap))). split.
  - unfold main_effects.
    destruct (Args.output args) as [[| c f] |]; eauto;
      destruct Hj as [-> | (c' & f' & H)]; try discriminate; eauto.
  - apply json_loads_dumps. now apply results_wf.
Qed.

(** C5.  For every snapshot (a dictionary whose keys are distinct at
    every level and whose floats are finite), the JSON text the run
    prints for it, [json.dumps(results, indent=4)], and the text
    [save_to_file] writes for it into a file it can open are read back
    by [json.loads] as that very snapshot. *)
Theorem json_output_round_trip (results : dict) (env : Env.t) (filename : string) :
  wf_value (VDict results) = true ->
  json_loads (json_dumps 4 (VDict results)) = Some (VDict results)
  /\ (Env.open_w env filename = Ok tt ->
      exists text,
        save_to_file env (VDict results) filename
        = ([WriteFile filename text; Print ("Information saved to " ++ filename)], Ok tt)
        /\ json_loads text = Some (VDict results)).
Proof.
  intros Hwf. split.
  - now apply json_loads_dumps.
  - intros Ho. exists (json_dumps 4 (VDict results)).
    unfold save_to_file. rewrite Ho. split; [reflexivity |].
    now apply json_loads_dumps.
Qed.

Lemma json_output_round_trip_witness :
  json_loads (json_dumps 4 (VDict sample_results)) = Some (VDict sample_results)
  /\ exists text,
       save_to_file sample_env (VDict sample_results) "snapshot.json"
       = ([WriteFile "snapshot.json" text;
           Print ("Information saved to " ++ "snapshot.json")], Ok tt)
       /\ json_loads text = Some (VDict sample_results).
Proof.
  destruct (json_output_round_trip sample_results sample_env "snapshot.json")
    as [Hprint Hfile].
  - vm_compute. reflexivity.
  - split; [exact Hprint | apply Hfile; reflexivity].
Defined.

(** ** Runs on the sample machine *)

(** The empty CD drive is left out of the disk section. *)
Example get_disk_info_sample :
  map (dict_get "device")
      (flat_map (fun v => match v with VDict d => [d] | _ => [] end)
                (get_disk_info sample_env))
  = [Some (VStr "/dev/sda1"); Some (VStr "/dev/sdb1")].
Proof. vm_compute. reflexivity. Qed.

(** The two processes that use most memory, largest first. *)
Example get_process_info_sample :
  get_process_info sample_procs "memory" 2 = Ok [proc_python; proc_sshd].
Proof. vm_compute. reflexivity. Qed.

(** [-p -c] and [-c -p] give the same keys, in the order of [main]. *)
Example run_flag_order :
  option_map (fun r => match snd r with Ok results => dict_keys results | Raise _ => [] end)
             (run [OptProcesses; OptCpu] sample_env)
  = Some ["cpu"; "processes"; "timestamp"]
  /\ option_map (fun r => match snd r with Ok results => dict_keys results | Raise _ => [] end)
                (run [OptCpu; OptProcesses] sample_env)
     = Some ["cpu"; "processes"; "timestamp"].
Proof. split; vm_compute; reflexivity. Qed.

(** C8 (the code does otherwise).  psutil hands over a process it is
    denied with [None] for what it could not read.  The loop keeps that
    process like any other (the handler of line 112 is never entered);
    with another process in the list the sort then raises [TypeError],
    so the collector fails, and the run that asked for the process
    section ends with that error before it prints anything.  Alone in
    the list the denied process is returned as an entry: it is never
    dropped. *)
Theorem denied_process_not_skipped :
  enumerate denied_procs [] = denied_procs
  /\ get_process_info denied_procs "memory" 10 = Raise TypeError
  /\ get_process_info denied_procs "cpu" 10 = Raise TypeError
  /\ get_process_info [proc_denied] "memory" 10 = Ok [proc_denied]
  /\ run [OptProcesses] denied_env = Some ([], Raise TypeError).
Proof. repeat split; vm_compute; reflexivity. Qed.

(** * Further properties *)

(** ** The process collector *)

Lemma slice_to_exact_length {A : Type} (l : list A) (k : Z) :
  Z.of_nat (List.length (slice_to l k))
  = if 0 <=? k then Z.min k (Z.of_nat (List.length l))
    else Z.max 0 (Z.of_nat (List.length l) + k).
Proof.
  unfold slice_to. destruct (0 <=? k) eqn:E; rewrite length_firstn.
  - apply Z.leb_le in E. lia.
  - apply Z.leb_gt in E. lia.
Qed.

(** X1.  Whatever the limit, also a negative one, whenever the collector
    returns a list it returns it in descending order of the metric, and
    its length is the limit cut to the number [n] of processes
    enumerated when the limit is not negative, and [n + limit] cut at
    zero when it is (the slice then drops entries from the end). *)
Theorem get_process_info_exact_length
  (procs : list ProcessEntry) (sort_by : string) (limit : Z) (l : list ProcessEntry) :
  get_process_info procs sort_by limit = Ok l ->
  Z.of_nat (List.length l)
  = (if 0 <=? limit
     then Z.min limit (Z.of_nat (List.length procs))
     else Z.max 0 (Z.of_nat (List.length procs) + limit))
  /\ descending (metric sort_by) l.
Proof.
  intros Hg. destruct (get_process_info_ok _ _ _ _ Hg) as (sorted & Hs & ->).
  destruct (list_sort_ok _ _ _ Hs) as (Hperm & Hsorted & _). split.
  - rewrite slice_to_exact_length, (Permutation_length Hperm). reflexivity.
  - now apply descending_slice.
Qed.

Lemma get_process_info_exact_length_witness :
  Z.of_nat (List.length [proc_python; proc_sshd])
  = (if 0 <=? -1
     then Z.min (-1) (Z.of_nat (List.length sample_procs))
     else Z.max 0 (Z.of_nat (List.length sample_procs) + -1))
  /\ descending (metric "memory") [proc_python; proc_sshd].
Proof.
  apply (get_process_info_exact_length sample_procs "memory" (-1)).
  vm_compute. reflexivity.
Defined.

(** X2.  The sort is stable: when the sort accepts the list and the
    limit does not cut it, the processes whose metric has one and the
    same value stand in the result in the order in which they were
    enumerated. *)
Theorem get_process_info_stable
  (procs : list ProcessEntry) (sort_by : string) (limit : Z) (k : Q) :
  sortable sort_by procs ->
  Z.of_nat (List.length procs) <= limit ->
  exists l,
    get_process_info procs sort_by limit = Ok l
    /\ filter (has_key (metric sort_by) k) l
       = filter (has_key (metric sort_by) k) procs.
Proof.
  intros Hsort Hl.
  destruct (get_process_info_returns _ _ limit Hsort) as (sorted & Hs & Hg).
  destruct (list_sort_ok _ _ _ Hs) as (Hperm & _ & Hstable).
  exists (slice_to sorted limit). split; [exact Hg |].
  rewrite slice_to_all; [apply Hstable |].
  now rewrite (Permutation_length Hperm).
Qed.

Lemma get_process_info_stable_witness :
  exists l,
    get_process_info tie_procs "cpu" 10 = Ok l
    /\ filter (has_key (metric "cpu") 0) l
       = filter (has_key (metric "cpu") 0) tie_procs.
Proof.
  apply (get_process_info_stable tie_procs "cpu" 10 0).
  - right. repeat constructor; discriminate.
  - vm_compute. discriminate.
Defined.

(** X3.  The entries returned are the top of the list: when the sort
    accepts the list, the processes enumerated split into the entries
    returned and the entries left out, and no entry left out has a
    larger metric than an entry returned. *)
Theorem get_process_info_top
  (procs : list ProcessEntry) (sort_by : string) (limit : Z) :
  sortable sort_by procs ->
  exists l dropped,
    get_process_info procs sort_by limit = Ok l
    /\ Permutation (l ++ dropped)%list procs
    /\ (forall a b, In a l -> In b dropped -> key_ge (metric sort_by) a b).
Proof.
  intros Hsort.
  destruct (get_process_info_returns _ _ limit Hsort) as (sorted & Hs & Hg).
  destruct (list_sort_ok _ _ _ Hs) as (Hperm & Hsorted & _).
  destruct (slice_to_firstn sorted limit) as [n Hn].
  exists (firstn n sorted), (skipn n sorted).
  split; [now rewrite Hg, Hn |]. split.
  - now rewrite firstn_skipn.
  - apply sorted_app_order. now rewrite firstn_skipn.
Qed.

Lemma get_process_info_top_witness :
  exists l dropped,
    get_process_info sample_procs "memory" 2 = Ok l
    /\ Permutation (l ++ dropped)%list sample_procs
    /\ (forall a b, In a l -> In b dropped -> key_ge (metric "memory") a b).
Proof.
  apply (get_process_info_top sample_procs "memory" 2).
  right. repeat constructor; discriminate.
Defined.

(** X4.  Raising the limit only appends entries: when the sort accepts
    the list, for limits [0 <= n <= m] the result for [n] is the first
    [n] entries of the result for [m]. *)
Theorem get_process_info_limit_prefix
  (procs : list ProcessEntry) (sort_by : string) (n m : Z) :
  sortable sort_by procs ->
  0 <= n <= m ->
  exists ln lm,
    get_process_info procs sort_by n = Ok ln
    /\ get_process_info procs sort_by m = Ok lm
    /\ ln = firstn (Z.to_nat n) lm.
Proof.
  intros Hsort Hnm.
  destruct (list_sort_returns (metric sort_by) procs Hsort) as [sorted Hs].
  exists (slice_to sorted n), (slice_to sorted m).
  rewrite !get_process_info_sort, Hs. split; [reflexivity |]. split; [reflexivity |].
  unfold slice_to.
  destruct (0 <=? n) eqn:En; [| apply Z.leb_gt in En; lia].
  destruct (0 <=? m) eqn:Em; [| apply Z.leb_gt in Em; lia].
  rewrite firstn_firstn. f_equal. lia.
Qed.

Lemma get_process_info_limit_prefix_witness :
  exists ln lm,
    get_process_info sample_procs "cpu" 1 = Ok ln
    /\ get_process_info sample_procs "cpu" 3 = Ok lm
    /\ ln = firstn (Z.to_nat 1) lm.
Proof.
  apply (get_process_info_limit_prefix sample_procs "cpu" 1 3).
  - right. repeat constructor; discriminate.
  - lia.
Defined.

(** X16.  The collector fails in one way only: with [TypeError], and
    exactly when two or more processes are enumerated and the sort
    metric of one of them is [None]; otherwise it returns a list.  No
    process is dropped on the way: when the limit does not cut the
    list, the list returned holds every process enumerated. *)
Theorem get_process_info_fails
  (procs : list ProcessEntry) (sort_by : string) (limit : Z) :
  (forall e,
      get_process_info procs sort_by limit = Raise e <->
      e = TypeError
      /\ (2 <= List.length procs)%nat
      /\ exists p, In p procs /\ metric sort_by p = None)
  /\ (forall l,
        get_process_info procs sort_by limit = Ok l ->
        Z.of_nat (List.length procs) <= limit ->
        Permutation l procs).
Proof.
  split.
  - intros e. rewrite <- list_sort_raises, get_process_info_sort.
    destruct (list_sort (metric sort_by) procs); split; congruence.
  - intros l Hg Hl. destruct (get_process_info_ok _ _ _ _ Hg) as (sorted & Hs & ->).
    destruct (list_sort_ok _ _ _ Hs) as (Hperm & _).
    rewrite slice_to_all; [exact Hperm |].
    now rewrite (Permutation_length Hperm).
Qed.

(** ** The text formatter *)

Lemma all_keys_silent (data : list value) (keys : list string) :
  fst (all_keys data keys) = [].
Proof.
  revert keys. induction data as [| v data IH]; intros keys; [reflexivity |].
  destruct v; try reflexivity. apply IH.
Qed.

Lemma all_keys_fails (data : list value) (keys : list string) :
  forallb is_dict data = false -> all_keys data keys = ([], Raise AttributeError).
Proof.
  revert keys. induction data as [| v data IH]; intros keys H; [discriminate |].
  destruct v; try reflexivity. simpl in H. now apply IH.
Qed.

(** X5.  A list that starts with a record and holds an item that is no
    record makes the formatter fail with [AttributeError] while it
    gathers the keys: the title has been printed by then, and nothing
    else, not even the lines of the records before that item. *)
Theorem display_info_mixed_list_fails
  (set_order : list string -> list string) (first : dict) (items : list value)
  (title : option string) :
  forallb is_dict items = false ->
  display_info set_order (VList (VDict first :: items)) title
  = (title_lines title, Raise AttributeError).
Proof.
  intros E. unfold display_info. rewrite title_part.
  rewrite (io_bind_ok _ _ (title_lines title) tt) by reflexivity.
  rewrite all_keys_fails by exact E. simpl. now rewrite app_nil_r.
Qed.

Lemma display_info_mixed_list_fails_witness :
  display_info (fun keys => keys)
    (VList [VDict [("name", VStr "sshd")]; VDict [("name", VStr "cron")]; VStr "init"])
    (Some "Processes")
  = ([Print (nl ++ "=== Processes ===" ++ nl)], Raise AttributeError).
Proof.
  apply (display_info_mixed_list_fails (fun keys => keys) [("name", VStr "sshd")]
           [VDict [("name", VStr "cron")]; VStr "init"] (Some "Processes")).
  reflexivity.
Defined.

(** ** The driver *)

Lemma selected_network (args : Args.t) :
  selected args "network" = Args.all args || Args.network args.
Proof.
  unfold selected, section_flag. simpl. now rewrite andb_false_r, orb_false_r.
Qed.

Lemma selected_processes (args : Args.t) :
  selected args "processes" = Args.all args || Args.processes args.
Proof.
  unfold selected, section_flag. simpl. now rewrite andb_false_r, orb_false_r.
Qed.

(** The snapshot when the network collector raises. *)
Lemma snapshot_network_fails (args : Args.t) (env : Env.t) (e : exn) :
  Args.all args || Args.network args = true ->
  Env.gethostbyname env (Env.gethostname env) = Raise e ->
  snapshot args env = Raise e.
Proof.
  intros Hn He.
  assert (Hnet : get_network_info env = Raise e)
    by (unfold get_network_info; now rewrite He).
  unfold snapshot, sections. cbn [filter]. rewrite selected_network, Hn.
  destruct (selected args "system"), (selected args "cpu"),
    (selected args "memory"), (selected args "disk");
    cbn [gather section_result String.eqb Ascii.eqb Bool.eqb];
    now rewrite Hnet.
Qed.

(** The snapshot when the process collector raises after the network
    collector, if it was called, has returned. *)
Lemma snapshot_processes_fail (args : Args.t) (env : Env.t) (e : exn) :
  Args.all args || Args.processes args = true ->
  (Args.all args || Args.network args = true -> resolves env) ->
  get_process_info (Env.process_iter env) (Args.sort_by args) (Args.limit args)
  = Raise e ->
  snapshot args env = Raise e.
Proof.
  intros Hp Hn He.
  unfold snapshot, sections. cbn [filter].
  rewrite selected_network, selected_processes, Hp.
  destruct (Args.all args || Args.network args) eqn:En.
  - destruct (Hn eq_refl) as [ip Hip].
    assert (Hnet : exists nw, get_network_info env = Ok nw)
      by (unfold get_network_info; rewrite Hip; eauto).
    destruct Hnet as [nw Hnet].
    destruct (selected args "system"), (selected args "cpu"),
      (selected args "memory"), (selected args "disk");
      cbn [gather section_result String.eqb Ascii.eqb Bool.eqb];
      now rewrite Hnet, He.
  - destruct (selected args "system"), (selected args "cpu"),
      (selected args "memory"), (selected args "disk");
      cbn [gather section_result String.eqb Ascii.eqb Bool.eqb];
      now rewrite He.
Qed.

(** X6.  An error in the collection phase or at the opening of the
    output file ends the run with that error before anything is printed
    or written.  This is so when the network section is asked for and
    the host name does not resolve; when the process section is asked
    for, the network section (if asked for) has been collected, and two
    or more processes are enumerated of which one has [None] for the
    sort metric; and when the sections have been collected and the
    output file named cannot be opened. *)
Theorem main_fails_without_output (args : Args.t) (env : Env.t) :
  (forall e,
      Args.all args || Args.network args = true ->
      Env.gethostbyname env (Env.gethostname env) = Raise e ->
      main args env = ([], Raise e))
  /\ (Args.all args || Args.processes args = true ->
      (Args.all args || Args.network args = true -> resolves env) ->
      (2 <= List.length (Env.process_iter env))%nat ->
      (exists p, In p (Env.process_iter env) /\ metric (Args.sort_by args) p = None) ->
      main args env = ([], Raise TypeError))
  /\ (forall c f e,
        Args.output args = Some (String c f) ->
        collects args env ->
        Env.open_w env (String c f) = Raise e ->
        main args env = ([], Raise e)).
Proof.
  split; [| split].
  - intros e Hn He. apply main_collect_fails. now apply snapshot_network_fails.
  - intros Hp Hn Hlen Hnone. apply main_collect_fails.
    apply snapshot_processes_fail; [exact Hp | exact Hn |].
    rewrite get_process_info_sort.
    assert (Hr : list_sort (metric (Args.sort_by args)) (Env.process_iter env)
                 = Raise TypeError) by (apply list_sort_raises; auto).
    now rewrite Hr.
  - intros c f e Ho Hc He. destruct (snapshot_returns _ _ Hc) as [snap Hs].
    now rewrite (main_after_collect _ _ _ Hs), Ho, He.
Qed.

(** Three runs that fail: [-n] on a machine whose name does not
    resolve, [-a] for a user who is denied a process, and [-o] into a
    directory that does not exist. *)
Example main_fails_sample :
  run [OptNetwork; OptJson] unresolved_env = Some ([], Raise gaierror)
  /\ run [OptAll] denied_env = Some ([], Raise TypeError)
  /\ run [OptOutput "missing/report.json"] sample_env = Some ([], Raise OSError).
Proof. repeat split; vm_compute; reflexivity. Qed.

Lemma prints_bind {A B : Type} (m : io A) (k : A -> io B) :
  forallb is_print (fst m) = true ->
  (forall a, forallb is_print (fst (k a)) = true) ->
  forallb is_print (fst (io_bind m k)) = true.
Proof.
  intros Hm Hk. destruct m as [out [a | e]]; simpl in *; [| exact Hm].
  specialize (Hk a). destruct (k a) as [out' r]. simpl in *.
  rewrite forallb_app. now rewrite Hm, Hk.
Qed.

Lemma prints_for_each {A : Type} (l : list A) (body : A -> io unit) :
  (forall x, forallb is_print (fst (body x)) = true) ->
  forallb is_print (fst (for_each l body)) = true.
Proof.
  intros H. induction l as [| x l IH]; [reflexivity |].
  simpl for_each. apply prints_bind; [apply H | intros _; exact IH].
Qed.

(** The formatter only prints. *)
Lemma display_info_prints set_order (v : value) (title : option string) :
  forallb is_print (fst (display_info set_order v title)) = true.
Proof.
  unfold display_info. apply prints_bind.
  - destruct title as [[| c t] |]; reflexivity.
  - intros _. destruct v as [| b | z | f | s | l | d]; try reflexivity.
    + destruct l as [| x items]; [reflexivity |].
      destruct x; try (apply prints_for_each; intros; reflexivity).
      apply prints_bind; [now rewrite all_keys_silent |]. intros keys.
      apply prints_bind; [destruct (set_mem "name" keys); reflexivity |].
      intros _. apply prints_for_each. intros item.
      destruct item; try reflexivity. destruct (dict_get "name" d0); reflexivity.
    + apply prints_bind; [destruct d; reflexivity |]. intros width.
      apply prints_for_each. intros [key v].
      destruct v; try reflexivity;
        (apply prints_bind; [reflexivity |]; intros _;
         apply prints_for_each; intros; reflexivity).
Qed.

Lemma text_report_prints (args : Args.t) (env : Env.t) (results : dict) :
  forallb is_print (fst (text_report args env results)) = true.
Proof.
  assert (Hs : forall key title,
             forallb is_print (fst (display_section env results key title)) = true).
  { intros key title. unfold display_section.
    destruct (dict_get key results); [apply display_info_prints | reflexivity]. }
  unfold text_report.
  repeat (apply prints_bind; [first [reflexivity | apply Hs] | intros _]).
  apply Hs.
Qed.

(** X7.  Without an output file name (none, or the empty name) a run
    writes no file, whatever is selected and whatever the machine
    answers: all it does is print. *)
Theorem main_writes_no_file (args : Args.t) (env : Env.t) :
  Args.output args = None \/ Args.output args = Some "" ->
  forallb is_print (fst (main args env)) = true.
Proof.
  intros Ho. destruct (snapshot args env) as [snap | e] eqn:Hs.
  - rewrite (main_after_collect _ _ _ Hs). unfold main_effects.
    destruct Ho as [-> | ->]; cbn [fst];
      (destruct (Args.json args); [reflexivity | apply text_report_prints]).
  - now rewrite (main_collect_fails _ _ _ Hs).
Qed.

Lemma main_writes_no_file_witness :
  forallb is_print (fst (main all_args sample_env)) = true.
Proof.
  apply (main_writes_no_file all_args sample_env). now left.
Defined.

Lemma with_timestamp_timestamp (args : Args.t) (env : Env.t) (snap : dict) :
  snapshot args env = Ok snap ->
  Args.json args = false ->
  dict_get "timestamp" (with_timestamp args env snap) = Some (VStr (Env.timestamp env)).
Proof.
  intros Hs Hj. unfold with_timestamp. rewrite dict_get_app, Hj.
  pose proof (timestamp_fresh args env snap Hs) as Hf. apply dict_get_None in Hf.
  now rewrite Hf.
Qed.

(** What showing one section of the results prints. *)
Lemma display_section_effects (args : Args.t) (env : Env.t) (snap : dict)
  (key title : string) :
  snapshot args env = Ok snap ->
  In key sections ->
  display_section env (with_timestamp args env snap) key title
  = (match dict_get key snap with
     | Some data => fst (display_info (Env.set_order env) data (Some title))
     | None => []
     end, Ok tt).
Proof.
  intros Hs Hk. pose proof (display_section_ok args env snap key title Hs Hk) as Hok.
  unfold display_section in *. rewrite (with_timestamp_get _ _ _ _ Hk) in *.
  destruct (dict_get key snap); [| reflexivity].
  destruct (display_info _ _ _) as [out r]. simpl in *. now subst.
Qed.

(** X8.  In text mode without an output file, when the sections asked
    for can be collected, the report is the line with the timestamp
    followed by the sections of the snapshot, which are the selected
    ones in the order system, cpu, memory, disk, network, processes,
    each bound to what its collector returns and printed by the
    formatter under its title; sections that are not selected leave no
    trace. *)
Theorem main_text_report (args : Args.t) (env : Env.t) :
  Args.json args = false ->
  Args.output args = None \/ Args.output args = Some "" ->
  collects args env ->
  exists snap,
    snapshot args env = Ok snap
    /\ dict_keys snap = filter (selected args) sections
    /\ (forall key data, In (key, data) snap -> section_result args env key = Ok data)
    /\ fst (main args env)
       = Print (nl ++ "System Information - " ++ Env.timestamp env ++ nl)
         :: flat_map (fun section =>
                        fst (display_info (Env.set_order env) (snd section)
                               (Some (section_title args (fst section)))))
                     snap.
Proof.
  intros Hj Ho Hc. destruct (snapshot_returns _ _ Hc) as [snap Hs].
  exists snap. split; [exact Hs |].
  split; [exact (snapshot_keys _ _ _ Hs) |].
  split; [intros key data Hin; now apply (snapshot_In _ _ _ _ _ Hs Hin) |].
  assert (Hopen : opens args env).
  { unfold opens. destruct Ho as [-> | ->]; exact I. }
  rewrite (main_completes _ _ _ Hs Hopen). cbn [fst].
  assert (Hm : main_effects args env (with_timestamp args env snap)
               = fst (text_report args env (with_timestamp args env snap))).
  { unfold main_effects. rewrite Hj. now destruct Ho as [-> | ->]. }
  rewrite Hm. unfold text_report.
  rewrite (with_timestamp_timestamp _ _ _ Hs Hj).
  rewrite (io_bind_ok _ _ [Print (nl ++ "System Information - "
                                  ++ Env.timestamp env ++ nl)] tt)
    by reflexivity.
  cbv beta.
  rewrite (io_bind_ok _ _ _ tt (display_section_effects args env snap "system" _ Hs
                                  ltac:(simpl; tauto))); cbv beta.
  rewrite (io_bind_ok _ _ _ tt (display_section_effects args env snap "cpu" _ Hs
                                  ltac:(simpl; tauto))); cbv beta.
  rewrite (io_bind_ok _ _ _ tt (display_section_effects args env snap "memory" _ Hs
                                  ltac:(simpl; tauto))); cbv beta.
  rewrite (io_bind_ok _ _ _ tt (display_section_effects args env snap "disk" _ Hs
                                  ltac:(simpl; tauto))); cbv beta.
  rewrite (io_bind_ok _ _ _ tt (display_section_effects args env snap "network" _ Hs
                                  ltac:(simpl; tauto))); cbv beta.
  rewrite (display_section_effects args env snap "processes" _ Hs ltac:(simpl; tauto)).
  cbn [fst snd]. clear Hm Hopen Hc.
  unfold snapshot, sections in Hs. cbn [filter] in Hs.
  unfold section_title.
  destruct (selected args "system"), (selected args "cpu"),
    (selected args "memory"), (selected args "disk"),
    (selected args "network"), (selected args "processes");
    cbn [gather section_result String.eqb Ascii.eqb Bool.eqb] in Hs;
    destruct (get_network_info env);
    destruct (get_process_info (Env.process_iter env) (Args.sort_by args)
                               (Args.limit args));
    cbn [gather section_result String.eqb Ascii.eqb Bool.eqb] in Hs;
    try discriminate;
    injection Hs as <-;
    cbn [dict_get flat_map fst snd String.eqb Ascii.eqb Bool.eqb app];
    rewrite ?app_nil_r, <- ?app_assoc; reflexivity.
Qed.

Lemma main_text_report_witness :
  exists snap,
    snapshot text_all_args sample_env = Ok snap
    /\ dict_keys snap = sections
    /\ fst (main text_all_args sample_env)
       = Print (nl ++ "System Information - 2024-05-01 12:00:00" ++ nl)
         :: flat_map (fun section =>
                        fst (display_info (Env.set_order sample_env) (snd section)
                               (Some (section_title text_all_args (fst section)))))
                     snap.
Proof.
  destruct (main_text_report text_all_args sample_env) as (snap & Hs & Hk & _ & Hout).
  - reflexivity.
  - now left.
  - split; intros _; [eexists; reflexivity | right; repeat constructor; discriminate].
  - exists snap. split; [exact Hs |]. split; [exact Hk | exact Hout].
Defined.

(** The first lines of that report. *)
Example main_text_report_sample :
  firstn 3 (fst (main text_all_args sample_env))
  = [Print (nl ++ "System Information - 2024-05-01 12:00:00" ++ nl);
     Print (nl ++ "=== System Information ===" ++ nl);
     Print "system        : Linux"].
Proof. vm_compute. reflexivity. Qed.

(** ** The command line, again *)

Lemma parse_option_sort_by (a a' : Args.t) (o : cli_option) :
  parse_option a o = Some a' ->
  Args.sort_by a'
  = match o with
    | OptSortBy choice => choice
    | _ => Args.sort_by a
    end
  /\ match o with
     | OptSortBy choice => choice = "cpu" \/ choice = "memory"
     | _ => True
     end.
Proof.
  destruct a as [all system cpu memory disk network processes sort_by limit output json].
  destruct o; simpl; intros H; try discriminate; try (injection H as <-; now split).
  destruct (String.eqb choice "cpu") eqn:E1; simpl in H.
  - injection H as <-. split; [reflexivity | left; now apply String.eqb_eq].
  - destruct (String.eqb choice "memory") eqn:E2; [| discriminate].
    injection H as <-. split; [reflexivity | right; now apply String.eqb_eq].
Qed.

Lemma last_cons_default {A : Type} (x d : A) (l : list A) :
  last (x :: l) d = last l x.
Proof.
  revert x d. induction l as [| y l IH]; intros x d; [reflexivity |].
  change (last (x :: y :: l) d) with (last (y :: l) d).
  now rewrite (IH y d), (IH y x).
Qed.

(** X9.  The sort key of an accepted command line is cpu or memory: it
    is the choice of the last [--sort-by] on the line, and memory when
    there is none. *)
Theorem parse_args_sort_by (argv : list cli_option) (args : Args.t) :
  parse_args argv default_args = Some args ->
  (Args.sort_by args = "cpu" \/ Args.sort_by args = "memory")
  /\ Args.sort_by args = last (sort_by_choices argv) "memory".
Proof.
  assert (H : forall argv a args,
             parse_args argv a = Some args ->
             (Args.sort_by a = "cpu" \/ Args.sort_by a = "memory" ->
              Args.sort_by args = "cpu" \/ Args.sort_by args = "memory")
             /\ Args.sort_by args = last (sort_by_choices argv) (Args.sort_by a)).
  { clear. induction argv as [| o argv IH]; intros a args H; simpl in H.
    - injection H as <-. split; [tauto | reflexivity].
    - destruct (parse_option a o) as [a' |] eqn:E; [| discriminate].
      destruct (IH a' args H) as [IH1 IH2].
      destruct (parse_option_sort_by a a' o E) as [Hs Hc].
      split.
      + intros Ha. apply IH1. rewrite Hs. destruct o; auto.
      + rewrite IH2, Hs. unfold sort_by_choices.
        destruct o; try reflexivity.
        simpl flat_map. symmetry. apply last_cons_default. }
  intros Hp. destruct (H argv default_args args Hp) as [H1 H2].
  split; [apply H1; now right | exact H2].
Qed.

Lemma parse_args_sort_by_witness :
  (Args.sort_by sample_parsed = "cpu" \/ Args.sort_by sample_parsed = "memory")
  /\ Args.sort_by sample_parsed = last (sort_by_choices sample_argv) "memory".
Proof.
  apply (parse_args_sort_by sample_argv sample_parsed). reflexivity.
Defined.

(** ** Sizes in GB and MB *)

Lemma round2_hundredths (b k : N) :
  round2 b k
  = mkfloat false (hundredths b k / 100) (two_decimals (hundredths b k mod 100)) None.
Proof. reflexivity. Qed.

(** The decimals written for [c] hundredths denote [c / 100]. *)
Lemma two_decimals_value (c : N) :
  (c < 100)%N ->
  (Z.of_N (N.of_uint (two_decimals c))
   * 10 ^ (2 - Z.of_nat (nb_digits (two_decimals c))) = Z.of_N c
   /\ (nb_digits (two_decimals c) = 1 \/ nb_digits (two_decimals c) = 2)%nat
   /\ two_decimals c <> Nil).
Proof.
  intros Hc.
  assert (Hall : forallb (fun n =>
                   let c := N.of_nat n in
                   (Z.of_N (N.of_uint (two_decimals c))
                    * 10 ^ (2 - Z.of_nat (nb_digits (two_decimals c))) =? Z.of_N c)
                   && ((nb_digits (two_decimals c) =? 1)%nat
                       || (nb_digits (two_decimals c) =? 2)%nat))
                 (seq 0 100) = true) by (vm_compute; reflexivity).
  rewrite forallb_forall in Hall. specialize (Hall (N.to_nat c)).
  rewrite N2Nat.id in Hall. cbv zeta in Hall.
  assert (Hin : In (N.to_nat c) (seq 0 100)) by (apply in_seq; lia).
  apply Hall in Hin. apply andb_true_iff in Hin. destruct Hin as [H1 H2].
  apply Z.eqb_eq in H1. apply orb_true_iff in H2.
  split; [exact H1 |]. split.
  - destruct H2 as [H2 | H2]; apply Nat.eqb_eq in H2; auto.
  - intros E. rewrite E in H2. simpl in H2. destruct H2; discriminate.
Qed.

Lemma float_Q_two_decimals (i c : N) :
  (c < 100)%N ->
  (float_Q (mkfloat false i (two_decimals c) None)
   == (Z.of_N (i * 100 + c) # 100))%Q.
Proof.
  intros Hc. destruct (two_decimals_value c Hc) as (Hv & Hn & _).
  unfold float_Q. cbn [f_neg f_int f_frac f_exp exp_Z].
  destruct Hn as [Hn | Hn]; rewrite Hn in *; simpl Z.of_nat in *;
    simpl Z.sub in *; simpl Z.pow in *; simpl Qpower;
    unfold Qeq, Qmult, Qinv, inject_Z; simpl Qnum; simpl Qden; lia.
Qed.

Lemma hundredths_near (b k : N) :
  2 * Z.abs (2 ^ Z.of_N k * Z.of_N (hundredths b k) - 100 * Z.of_N b) <= 2 ^ Z.of_N k
  /\ (2 * Z.abs (2 ^ Z.of_N k * Z.of_N (hundredths b k) - 100 * Z.of_N b)
      = 2 ^ Z.of_N k ->
      Z.even (Z.of_N (hundredths b k)) = true).
Proof.
  unfold hundredths.
  assert (Hden : (2 ^ k <> 0)%N) by (apply N.pow_nonzero; discriminate).
  pose proof (N.div_mod (b * 100) (2 ^ k) Hden) as Hdm.
  pose proof (N.mod_lt (b * 100) (2 ^ k) Hden) as Hlt.
  pose proof (N.mod_lt (b * 100 / 2 ^ k) 2 ltac:(discriminate)) as Hpar.
  pose proof (N.div_mod (b * 100 / 2 ^ k) 2 ltac:(discriminate)) as Hq.
  assert (Hpow : 2 ^ Z.of_N k = Z.of_N (2 ^ k))
    by (rewrite N2Z.inj_pow; reflexivity).
  rewrite !Hpow. clear Hpow.
  set (den := (2 ^ k)%N) in *. set (q := (b * 100 / den)%N) in *.
  set (r := ((b * 100) mod den)%N) in *.
  set (p := (q mod 2)%N) in *. set (q2 := (q / 2)%N) in *.
  apply (f_equal Z.of_N) in Hdm. apply (f_equal Z.of_N) in Hq.
  rewrite N2Z.inj_add, !N2Z.inj_mul in Hdm, Hq.
  change (Z.of_N 100) with 100 in Hdm. change (Z.of_N 2) with 2 in Hq.
  destruct (den <? 2 * r)%N eqn:E1; [| destruct (den =? 2 * r)%N eqn:E2].
  - apply N.ltb_lt in E1. rewrite N2Z.inj_add, Z.mul_add_distr_l.
    change (Z.of_N 1) with 1. split; [lia | intros H; lia].
  - apply N.eqb_eq in E2. rewrite N2Z.inj_add, Z.mul_add_distr_l.
    assert (Hp : p = 0%N \/ p = 1%N) by lia. split.
    + destruct Hp as [-> | ->]; change (Z.of_N 0) with 0; change (Z.of_N 1) with 1; lia.
    + intros _. apply Z.even_spec. exists (Z.of_N q2 + Z.of_N p). lia.
  - apply N.ltb_ge in E1. apply N.eqb_neq in E2. split; [lia | intros H; lia].
Qed.

(** X11.  A count of bytes below [2**53] is shown in GB ([k] is 30) or
    in MB ([k] is 20) as the multiple of a hundredth nearest to the
    count divided by [2**k]: the number shown is [h / 100] with
    [|2**k * h - 100 * b| <= 2**k / 2], and on a tie [h] is even.  It
    has at most twelve significant digits ([h] is below [10**12]), and
    its text has one or two decimals. *)
Theorem round2_nearest (b k : N) :
  (b < 2 ^ 53)%N ->
  k = 20%N \/ k = 30%N ->
  exists h : N,
    (float_Q (round2 b k) == (Z.of_N h # 100))%Q
    /\ 2 * Z.abs (2 ^ Z.of_N k * Z.of_N h - 100 * Z.of_N b) <= 2 ^ Z.of_N k
    /\ (2 * Z.abs (2 ^ Z.of_N k * Z.of_N h - 100 * Z.of_N b) = 2 ^ Z.of_N k ->
        Z.even (Z.of_N h) = true)
    /\ (h < 10 ^ 12)%N
    /\ wf_float (round2 b k) = true
    /\ float_repr (round2 b k)
       = str_of_N (h / 100) ++ "." ++ NilEmpty.string_of_uint (two_decimals (h mod 100)).
Proof.
  intros Hb Hk. exists (hundredths b k).
  assert (Hc : (hundredths b k mod 100 < 100)%N) by (apply N.mod_lt; discriminate).
  split; [| split; [| split; [| split; [| split]]]].
  - rewrite round2_hundredths, float_Q_two_decimals by exact Hc.
    rewrite N.mul_comm, <- N.div_mod by discriminate. reflexivity.
  - apply hundredths_near.
  - apply hundredths_near.
  - pose proof (proj1 (hundredths_near b k)) as Hn.
    assert (Hb' : Z.of_N b < 2 ^ 53).
    { change (2 ^ 53) with (Z.of_N (2 ^ 53)). lia. }
    change (2 ^ 53) with 9007199254740992 in Hb'.
    assert (Hh : Z.of_N (hundredths b k) < 10 ^ 12).
    { change (10 ^ 12) with 1000000000000.
      destruct Hk as [-> | ->].
      - change (2 ^ Z.of_N 20) with 1048576 in Hn. lia.
      - change (2 ^ Z.of_N 30) with 1073741824 in Hn. lia. }
    change (10 ^ 12) with (Z.of_N (10 ^ 12)) in Hh. lia.
  - rewrite round2_hundredths. unfold wf_float. cbn [f_frac f_exp].
    destruct (two_decimals_value _ Hc) as (_ & _ & Hn).
    destruct (two_decimals (hundredths b k mod 100)); [congruence | ..]; reflexivity.
  - rewrite round2_hundredths. unfold float_repr. cbn [f_neg f_int f_frac f_exp].
    destruct (two_decimals_value _ Hc) as (_ & _ & Hn).
    unfold frac_text, exp_text.
    destruct (two_decimals (hundredths b k mod 100)); [congruence | ..];
      cbn [append]; now rewrite ?append_nil_r.
Qed.

Lemma round2_nearest_witness :
  exists h : N,
    (float_Q (round2 500107862016 30) == (Z.of_N h # 100))%Q
    /\ 2 * Z.abs (2 ^ Z.of_N 30 * Z.of_N h - 100 * Z.of_N 500107862016)
       <= 2 ^ Z.of_N 30
    /\ (2 * Z.abs (2 ^ Z.of_N 30 * Z.of_N h - 100 * Z.of_N 500107862016)
        = 2 ^ Z.of_N 30 ->
        Z.even (Z.of_N h) = true)
    /\ (h < 10 ^ 12)%N
    /\ wf_float (round2 500107862016 30) = true
    /\ float_repr (round2 500107862016 30)
       = str_of_N (h / 100) ++ "." ++ NilEmpty.string_of_uint (two_decimals (h mod 100)).
Proof.
  apply (round2_nearest 500107862016 30); [reflexivity | now right].
Defined.

(** The sizes of the sample machine: 465.76 GB of disk, 117.74 MB
    sent. *)
Example round2_sample :
  float_repr (round2 500107862016 30) = "465.76"
  /\ float_repr (round2 123456789 20) = "117.74".
Proof. split; vm_compute; reflexivity. Qed.

(** A tie goes to the even hundredth: an eighth of a GB shows as 0.12. *)
Example bytes_to_gb_tie : float_repr (bytes_to_gb (2 ^ 27)) = "0.12".
Proof. vm_compute. reflexivity. Qed.

(** ** The JSON text *)

Lemma plain_text_app (a b : string) :
  plain_text (a ++ b) = plain_text a && plain_text b.
Proof.
  induction a as [| c a IH]; [reflexivity |].
  simpl. rewrite IH. now rewrite andb_assoc.
Qed.

Lemma plain_digits (d : uint) : plain_text (NilEmpty.string_of_uint d) = true.
Proof. induction d; simpl; auto. Qed.

Lemma plain_str_of_Z (z : Z) : plain_text (str_of_Z z) = true.
Proof.
  unfold str_of_Z, str_of_N. rewrite plain_text_app, plain_digits.
  now destruct (z <? 0).
Qed.

Lemma plain_float_repr (f : pyfloat) : plain_text (float_repr f) = true.
Proof.
  unfold float_repr, str_of_N, frac_text, exp_text.
  rewrite !plain_text_app, plain_digits.
  destruct (f_neg f), (f_frac f) eqn:Ef, (f_exp f) as [[[] d] |];
    rewrite <- ?Ef; rewrite ?plain_text_app, ?plain_digits; reflexivity.
Qed.

Lemma plain_json_char (c : ascii) : plain_text (json_char c) = true.
Proof. each_char c; reflexivity. Qed.

Lemma plain_json_string (s : string) : plain_text (json_string s) = true.
Proof.
  unfold json_string. cbn [plain_text]. rewrite plain_text_app.
  change (plain_char dquote) with true. cbn [andb plain_text].
  rewrite andb_true_r.
  induction s as [| c s IH]; [reflexivity |].
  cbn [concat_map]. now rewrite plain_text_app, plain_json_char, IH.
Qed.

Lemma plain_newline_indent (indent level : nat) :
  plain_text (newline_indent indent level) = true.
Proof.
  unfold newline_indent. rewrite plain_text_app.
  induction (indent * level)%nat as [| n IH]; [reflexivity |].
  simpl in *. exact IH.
Qed.

Lemma plain_join (sep : string) (l : list string) :
  plain_text sep = true -> Forall (fun s => plain_text s = true) l ->
  plain_text (join sep l) = true.
Proof.
  intros Hs H. induction H as [| x l Hx Hl IH]; [reflexivity |].
  destruct l as [| y l]; [exact Hx |].
  change (join sep (x :: y :: l)) with (x ++ sep ++ join sep (y :: l)).
  now rewrite !plain_text_app, Hx, Hs, IH.
Qed.

Lemma plain_json_encode (indent level : nat) (v : value) :
  plain_text (json_encode indent level v) = true.
Proof.
  revert level.
  induction v as [| b | z | f | s | l IH | d IH] using value_induction; intros level.
  - reflexivity.
  - destruct b; reflexivity.
  - apply plain_str_of_Z.
  - apply plain_float_repr.
  - apply plain_json_string.
  - destruct l as [| x l]; [reflexivity |].
    change (json_encode indent level (VList (x :: l)))
      with ("[" ++ newline_indent indent (S level)
            ++ join ("," ++ newline_indent indent (S level))
                    (map (json_encode indent (S level)) (x :: l))
            ++ newline_indent indent level ++ "]").
    rewrite !plain_text_app, !plain_newline_indent, plain_join; [reflexivity | |].
    + now rewrite plain_text_app, plain_newline_indent.
    + apply Forall_map. revert IH. apply Forall_impl. intros v Hv. apply Hv.
  - destruct d as [| kv d]; [reflexivity |].
    change (json_encode indent level (VDict (kv :: d)))
      with ("{" ++ newline_indent indent (S level)
            ++ join ("," ++ newline_indent indent (S level))
                    (map (member_text indent level) (kv :: d))
            ++ newline_indent indent level ++ "}").
    rewrite !plain_text_app, !plain_newline_indent, plain_join; [reflexivity | |].
    + now rewrite plain_text_app, plain_newline_indent.
    + apply Forall_map. revert IH. apply Forall_impl. intros [k v] Hv.
      unfold member_text. rewrite !plain_text_app, plain_json_string.
      simpl in Hv. now rewrite Hv.
Qed.

(** X12.  Whatever the snapshot holds (host names, process names, any
    character below code point 256), the JSON text that is printed or
    written to a file that can be opened is made of printable ASCII
    characters and line breaks only. *)
Theorem json_text_is_ascii (data : value) (env : Env.t) (filename : string) :
  plain_text (json_dumps 4 data) = true
  /\ (Env.open_w env filename = Ok tt ->
      exists content,
        save_to_file env data filename
        = ([WriteFile filename content; Print ("Information saved to " ++ filename)],
           Ok tt)
        /\ plain_text content = true).
Proof.
  split; [apply plain_json_encode |].
  intros Ho. exists (json_dumps 4 data). unfold save_to_file. rewrite Ho.
  split; [reflexivity | apply plain_json_encode].
Qed.

(** *** Indentation *)

Lemma one_line_app (a b : string) : one_line (a ++ b) = one_line a && one_line b.
Proof.
  induction a as [| c a IH]; [reflexivity |].
  simpl. rewrite IH. now rewrite andb_assoc.
Qed.

Lemma indents_one_line (a b : string) :
  one_line a = true -> indents (a ++ b) = indents b.
Proof.
  induction a as [| c a IH]; [reflexivity |]. simpl. intros H.
  apply andb_true_iff in H. destruct H as [Hc Ha].
  apply negb_true_iff in Hc. rewrite Hc. now apply IH.
Qed.

Lemma indents_one_char (c : ascii) (s : string) :
  Ascii.eqb c "010" = false -> indents (String c "" ++ s) = indents s.
Proof. intros H. cbn [append indents]. now rewrite H. Qed.

Lemma one_line_digits (d : uint) : one_line (NilEmpty.string_of_uint d) = true.
Proof. induction d; simpl; auto. Qed.

Lemma one_line_str_of_Z (z : Z) : one_line (str_of_Z z) = true.
Proof.
  unfold str_of_Z, str_of_N. rewrite one_line_app, one_line_digits.
  now destruct (z <? 0).
Qed.

Lemma one_line_float_repr (f : pyfloat) : one_line (float_repr f) = true.
Proof.
  unfold float_repr, str_of_N, frac_text, exp_text.
  rewrite !one_line_app, one_line_digits.
  destruct (f_neg f), (f_frac f) eqn:Ef, (f_exp f) as [[[] d] |];
    rewrite <- ?Ef; rewrite ?one_line_app, ?one_line_digits; reflexivity.
Qed.

Lemma one_line_json_char (c : ascii) : one_line (json_char c) = true.
Proof. each_char c; reflexivity. Qed.

Lemma one_line_json_string (s : string) : one_line (json_string s) = true.
Proof.
  unfold json_string. cbn [one_line]. rewrite one_line_app.
  change (Ascii.eqb dquote "010") with false. cbn [negb andb one_line].
  rewrite andb_true_r.
  induction s as [| c s IH]; [reflexivity |].
  cbn [concat_map]. now rewrite one_line_app, one_line_json_char, IH.
Qed.

Lemma one_line_spaces (n : nat) : one_line (repeat_string " " n) = true.
Proof. induction n as [| n IH]; [reflexivity | exact IH]. Qed.

Lemma leading_spaces_repeat (n : nat) (s : string) :
  leading_spaces s = 0%nat -> leading_spaces (repeat_string " " n ++ s) = n.
Proof.
  intros H. induction n as [| n IH]; [exact H |]. simpl. now rewrite IH.
Qed.

(** A line break and its indentation, before a text that starts with no
    space. *)
Lemma indents_newline_indent (indent level : nat) (s : string) :
  leading_spaces s = 0%nat ->
  indents (newline_indent indent level ++ s) = (indent * level)%nat :: indents s.
Proof.
  intros H. unfold newline_indent, nl. rewrite append_assoc. cbn [append indents].
  change (Ascii.eqb "010" "010") with true. cbv iota.
  rewrite (leading_spaces_repeat _ _ H).
  now rewrite (indents_one_line _ _ (one_line_spaces _)).
Qed.

Lemma not_ws_not_space (c : ascii) : is_ws c = false -> Ascii.eqb c " " = false.
Proof.
  unfold is_ws. intros H. apply orb_false_iff in H. destruct H as [H _].
  apply orb_false_iff in H. destruct H as [H _].
  apply orb_false_iff in H. tauto.
Qed.

Lemma json_encode_no_space (indent level : nat) (v : value) (tail : string) :
  leading_spaces (json_encode indent level v ++ tail) = 0%nat.
Proof.
  destruct (json_encode_head indent level v) as (c & t & -> & Hw & _).
  cbn [append leading_spaces]. now rewrite (not_ws_not_space _ Hw).
Qed.

Lemma indented_items (indent level : nat) (texts : list string) (tail : string) :
  texts <> [] ->
  Forall (fun text =>
            leading_spaces text = 0%nat
            /\ (forall t', leading_spaces (text ++ t') = 0%nat)
            /\ forall tail,
               exists inner,
                 indents (text ++ tail) = (inner ++ indents tail)%list
                 /\ Forall (fun n => exists m, n = (indent * m)%nat) inner) texts ->
  exists inner,
    indents (join ("," ++ newline_indent indent (S level)) texts ++ tail)
    = (inner ++ indents tail)%list
    /\ Forall (fun n => exists m, n = (indent * m)%nat) inner.
Proof.
  intros Hne H. induction H as [| x l (Hx0 & Hx1 & Hx) Hl IH]; [congruence |].
  clear Hne. destruct l as [| y l].
  - cbn [join]. apply Hx.
  - change (join ("," ++ newline_indent indent (S level)) (x :: y :: l))
      with (x ++ ("," ++ newline_indent indent (S level))
              ++ join ("," ++ newline_indent indent (S level)) (y :: l)).
    rewrite !append_assoc.
    destruct (Hx ("," ++ newline_indent indent (S level)
                  ++ join ("," ++ newline_indent indent (S level)) (y :: l) ++ tail))
      as (inner1 & E1 & F1).
    destruct IH as (inner2 & E2 & F2); [discriminate |].
    exists (inner1 ++ (indent * S level)%nat :: inner2)%list. split.
    + rewrite E1. rewrite (indents_one_char "," _ eq_refl).
      rewrite indents_newline_indent.
      * rewrite E2. now rewrite <- app_assoc.
      * inversion Hl as [| ? ? (_ & Hy1 & _) _]; subst.
        destruct l as [| z l]; [apply Hy1 |].
        change (join ("," ++ newline_indent indent (S level)) (y :: z :: l))
          with (y ++ ("," ++ newline_indent indent (S level))
                  ++ join ("," ++ newline_indent indent (S level)) (z :: l)).
        rewrite append_assoc. apply Hy1.
    + apply Forall_app. split; [exact F1 |]. constructor; [eauto | exact F2].
Qed.

Lemma indented_container (indent level : nat) (opening closing : ascii)
  (texts : list string) (tail : string) :
  Ascii.eqb opening "010" = false ->
  Ascii.eqb closing "010" = false ->
  Ascii.eqb closing " " = false ->
  texts <> [] ->
  Forall (fun text =>
            leading_spaces text = 0%nat
            /\ (forall t', leading_spaces (text ++ t') = 0%nat)
            /\ forall tail,
               exists inner,
                 indents (text ++ tail) = (inner ++ indents tail)%list
                 /\ Forall (fun n => exists m, n = (indent * m)%nat) inner) texts ->
  exists inner,
    indents ((String opening "" ++ newline_indent indent (S level)
              ++ join ("," ++ newline_indent indent (S level)) texts
              ++ newline_indent indent level ++ String closing "") ++ tail)
    = (inner ++ indents tail)%list
    /\ Forall (fun n => exists m, n = (indent * m)%nat) inner.
Proof.
  intros Ho Hc Hs Hne H.
  destruct (indented_items indent level texts
              (newline_indent indent level ++ String closing "" ++ tail) Hne H)
    as (inner & E & F).
  exists ((indent * S level)%nat :: inner ++ [(indent * level)%nat])%list. split.
  - rewrite !append_assoc. rewrite (indents_one_char opening _ Ho).
    rewrite indents_newline_indent.
    + rewrite E. rewrite indents_newline_indent.
      * rewrite (indents_one_char closing _ Hc).
        rewrite <- app_comm_cons, <- app_assoc. reflexivity.
      * cbn [append leading_spaces]. now rewrite Hs.
    + destruct H as [| x l (Hx0 & Hx1 & _) _]; [congruence |].
      destruct l as [| y l]; [apply Hx1 |].
      change (join ("," ++ newline_indent indent (S level)) (x :: y :: l))
        with (x ++ ("," ++ newline_indent indent (S level))
                ++ join ("," ++ newline_indent indent (S level)) (y :: l)).
      rewrite append_assoc. apply Hx1.
  - constructor; [eauto |]. apply Forall_app. split; [exact F |].
    constructor; [eauto | constructor].
Qed.

Lemma json_encode_indented (indent : nat) (v : value) : indented indent v.
Proof.
  induction v as [| b | z | f | s | l IH | d IH] using value_induction;
    intros level tail.
  - exists []. split; [reflexivity | constructor].
  - exists []. split; [destruct b; reflexivity | constructor].
  - exists []. split; [| constructor].
    apply indents_one_line, one_line_str_of_Z.
  - exists []. split; [| constructor].
    apply indents_one_line, one_line_float_repr.
  - exists []. split; [| constructor].
    apply indents_one_line, one_line_json_string.
  - destruct l as [| x l]; [exists []; split; [reflexivity | constructor] |].
    change (json_encode indent level (VList (x :: l)))
      with ("[" ++ newline_indent indent (S level)
            ++ join ("," ++ newline_indent indent (S level))
                    (map (json_encode indent (S level)) (x :: l))
            ++ newline_indent indent level ++ "]").
    apply indented_container; try reflexivity; [discriminate |].
    apply Forall_map. revert IH. apply Forall_impl. intros v Hv.
    split; [| split].
    + rewrite <- (append_nil_r (json_encode indent (S level) v)).
      apply json_encode_no_space.
    + apply json_encode_no_space.
    + apply Hv.
  - destruct d as [| kv d]; [exists []; split; [reflexivity | constructor] |].
    change (json_encode indent level (VDict (kv :: d)))
      with ("{" ++ newline_indent indent (S level)
            ++ join ("," ++ newline_indent indent (S level))
                    (map (member_text indent level) (kv :: d))
            ++ newline_indent indent level ++ "}").
    apply indented_container; try reflexivity; [discriminate |].
    apply Forall_map. revert IH. apply Forall_impl. intros [k v] Hv.
    cbn [snd] in Hv. unfold member_text. split; [| split].
    + reflexivity.
    + intros t'. reflexivity.
    + intros tail'. rewrite !append_assoc.
      rewrite (indents_one_line _ _ (one_line_json_string k)).
      rewrite (indents_one_line ": " _ eq_refl). apply Hv.
Qed.

(** X13.  In the JSON text printed, or written to a file that can be
    opened, every line after the first is indented by a multiple of four
    spaces, whatever the strings of the snapshot hold (their line breaks
    are escaped). *)
Theorem json_text_indentation (data : value) (env : Env.t) (filename : string) :
  Forall (fun n => exists m, n = (4 * m)%nat) (indents (json_dumps 4 data))
  /\ (Env.open_w env filename = Ok tt ->
      exists content,
        save_to_file env data filename
        = ([WriteFile filename content; Print ("Information saved to " ++ filename)],
           Ok tt)
        /\ Forall (fun n => exists m, n = (4 * m)%nat) (indents content)).
Proof.
  assert (H : Forall (fun n => exists m, n = (4 * m)%nat) (indents (json_dumps 4 data))).
  { destruct (json_encode_indented 4 data 0%nat "") as (inner & E & F).
    unfold json_dumps. rewrite append_nil_r in E. rewrite E.
    simpl. now rewrite app_nil_r. }
  split; [exact H |].
  intros Ho. exists (json_dumps 4 data). unfold save_to_file. rewrite Ho.
  split; [reflexivity | exact H].
Qed.

(** The indentation of the lines of a small nested snapshot. *)
Example json_text_indentation_sample :
  indents (json_dumps 4 (VDict [("disk", VList [VDict [("device", VStr "sda")]]);
                                ("note", VStr ("a" ++ nl ++ "  b"))]))
  = [4; 8; 12; 8; 4; 4; 0]%nat.
Proof. vm_compute. reflexivity. Qed.

(** ** The disk section in the text report *)

Lemma key_union_unnamed (records : list dict) :
  (forall r, In r records -> dict_get "name" r = None) ->
  set_mem "name" (key_union records) = false.
Proof.
  intros H. apply not_true_is_false. intros Hm. apply set_mem_In in Hm.
  apply key_union_In in Hm. destruct Hm as (r & Hr & Hin).
  specialize (H r Hr). apply dict_get_None in H. contradiction.
Qed.

(** Records without a name are printed as they are. *)
Lemma display_info_unnamed set_order (records : list dict) (title : option string) :
  (forall r, In r records -> dict_get "name" r = None) ->
  display_info set_order (VList (map VDict records)) title
  = ((title_lines title ++ map (fun r => Print (py_str (VDict r))) records)%list, Ok tt).
Proof.
  intros Hn. pose proof (key_union_unnamed records Hn) as Hk.
  unfold display_info. rewrite title_part.
  rewrite (io_bind_ok _ _ (title_lines title) tt) by reflexivity.
  destruct records as [| r rs]; [reflexivity |].
  change (map VDict (r :: rs)) with (VDict r :: map VDict rs). cbv iota.
  change (VDict r :: map VDict rs) with (map VDict (r :: rs)).
  rewrite all_keys_records.
  rewrite (io_bind_ok _ _ [] (key_union (r :: rs))) by reflexivity.
  cbv beta zeta. fold (key_union (r :: rs)). rewrite Hk.
  rewrite (io_bind_ok _ _ [] tt) by reflexivity.
  rewrite (for_each_lines (map VDict (r :: rs)) _ (fun item => [Print (py_str item)])).
  - rewrite (flat_map_items (fun item => Print (py_str item))). reflexivity.
  - intros item Hi. apply in_map_iff in Hi. destruct Hi as (d & <- & Hd).
    now rewrite (Hn d Hd).
Qed.

Lemma usage_entries_records disk_usage partitions :
  exists records,
    usage_entries disk_usage partitions = map VDict records
    /\ forall r, In r records -> dict_get "name" r = None.
Proof.
  induction partitions as [| p ps (records & E & H)].
  - exists []. split; [reflexivity | intros r []].
  - unfold usage_entries in *. cbn [flat_map].
    destruct (disk_usage (sdiskpart.mountpoint p)) as [u | e].
    + eexists (_ :: records). split.
      * cbn [app map]. rewrite E. unfold disk_entry. reflexivity.
      * intros r [<- | Hr]; [reflexivity | now apply H].
    + exists records. split; [exact E | exact H].
Qed.

(** X14.  The disk section never gets a table: its entries have no name
    key, so after the title the formatter prints each partition as the
    dictionary it is, one line per partition whose usage could be read,
    and nothing when there is none. *)
Theorem display_disk_info_raw
  (set_order : list string -> list string) (env : Env.t) (title : option string) :
  display_info set_order (VList (get_disk_info env)) title
  = ((title_lines title ++ map (fun v => Print (py_str v)) (get_disk_info env))%list,
     Ok tt).
Proof.
  unfold get_disk_info. rewrite disk_loop_entries.
  destruct (usage_entries_records (Env.disk_usage env) (Env.disk_partitions env))
    as (records & -> & Hn).
  rewrite (display_info_unnamed _ _ _ Hn). rewrite app_nil_l, map_map. reflexivity.
Qed.

(** The disk section of the sample machine. *)
Example display_disk_info_sample :
  List.length (fst (display_info (fun keys => keys)
                      (VList (get_disk_info sample_env)) (Some "Disk Information")))
  = 3%nat.
Proof. vm_compute. reflexivity. Qed.
(** ** The process section in the text report *)

Lemma process_value_fields (ps : list ProcessEntry) :
  map process_value ps = map VDict (map process_fields ps).
Proof. rewrite map_map. reflexivity. Qed.

Lemma key_union_processes (p : ProcessEntry) (ps : list ProcessEntry) :
  key_union (map process_fields (p :: ps))
  = ["pid"; "name"; "username"; "memory_percent"; "cpu_percent"].
Proof.
  unfold key_union. cbn [map fold_left].
  change (set_update [] (dict_keys (process_fields p)))
    with ["pid"; "name"; "username"; "memory_percent"; "cpu_percent"].
  induction ps as [| q qs IH]; [reflexivity |].
  cbn [map fold_left]. exact IH.
Qed.

(** X15.  The process section is always a table with the same five
    columns: for a non-empty list of process records the formatter
    prints, after the title, the header Name followed by Pid, Username,
    Memory_percent and Cpu_percent in the iteration order of the key
    set, a rule as long as the header, and one line per process; every
    column of every line is filled from the record, so N/A never
    appears.  For no process at all only the title is printed. *)
Theorem display_processes_table
  (set_order : list string -> list string) (ps : list ProcessEntry)
  (title : option string) :
  (forall l, Permutation (set_order l) l) ->
  let cols := set_order process_columns in
  let header := join " | " ("Name" :: map capitalize cols) in
  display_info set_order (VList (map process_value ps)) title
  = ((title_lines title
      ++ match ps with
         | [] => []
         | _ :: _ =>
             Print header
             :: Print (repeat_string "-" (String.length header))
             :: map (fun p => record_line cols (process_fields p)) ps
         end)%list,
     Ok tt)
  /\ forall p k, In k cols -> dict_get k (process_fields p) <> None.
Proof.
  intros Hso cols header. split.
  - destruct ps as [| p ps].
    + unfold display_info. rewrite title_part.
      rewrite (io_bind_ok _ _ (title_lines title) tt) by reflexivity.
      reflexivity.
    + rewrite process_value_fields.
      rewrite display_info_records; [| discriminate | exact Hso].
      unfold table_lines. rewrite key_union_processes.
      change (set_mem "name" ["pid"; "name"; "username"; "memory_percent"; "cpu_percent"])
        with true.
      change (set_remove "name" ["pid"; "name"; "username"; "memory_percent"; "cpu_percent"])
        with process_columns.
      cbv iota zeta. fold cols. fold header. rewrite map_map. reflexivity.
  - intros p k Hk. apply (Permutation_in _ (Hso _)) in Hk.
    destruct Hk as [<- | [<- | [<- | [<- | []]]]]; discriminate.
Qed.

Lemma display_processes_table_witness :
  (forall l : list string, Permutation ((fun keys => keys) l) l)
  /\ fst (display_info (fun keys => keys)
            (VList (map process_value sample_procs)) None)
     = [Print "Name | Pid | Username | Memory_percent | Cpu_percent";
        Print "----------------------------------------------------";
        Print "init | 1 | root | 0.5 | 1.0";
        Print "sshd | 812 | root | 3.2 | 0.0";
        Print "python3 | 4021 | alice | 12.75 | 48.1"].
Proof.
  split; [intros l; apply Permutation_refl |].
  rewrite (proj1 (display_processes_table (fun keys => keys) sample_procs None
                    (fun l => Permutation_refl l))).
  vm_compute. reflexivity.
Defined.
